(** * bidirpc: a shallow embedding of the RPC runtime and its properties

    The development follows the Go sources of the package:
    - [message.go], [negotiation.go]: the frames ([Msg]);
    - the auto-client's [backoffDuration] and reconnect [loop] ([Backoff]);
    - the handler context's parameter accessors, in the version the
      connection uses ([Ctx]) and in the version of [context.go]
      ([CtxLegacy]);
    - the result adapter [decodeInto] ([Adapter]);
    - the connection: [Send], [handleMessage], [readLoop], [Call],
      [CallAsync], as the steps of its goroutines ([Conn]);
    - the server registry with heartbeats: [ServeConn], [handlePing],
      [GetClientByID] ([Srv]);
    - the auto-client's connection slot: [connectOnce] and the call
      methods ([Auto]);
    - the server's call methods ([SrvCalls]), a call and its answer over
      two connections ([Exchange]), the auto-client's [Start] and [loop]
      with their connections ([Reconnect]), the handshake of the two
      ([Handshake]);
    - [handler.go]: the registry's [Handle] and [HandleWithContext]
      ([Registry]), and the dialer's [Dial] ([Transport]).

    Go's [int] and [time.Duration] are 64-bit two's complement integers:
    they are integers of [Z] with the wrap-around written out ([Int64]).
    Go maps are finite maps ([gmap]); a [float64] is a binary64 float of
    the kernel.  What the Go library does ([strconv.Atoi], the clock, the
    transport, the decoders) is in [GoLib] and [GoTime], or a parameter.

    The first part holds the definitions, the second part, from
    "Properties" on, the theorems. *)

From Stdlib Require Import ZArith Lia Floats Ascii String.
From stdpp Require Import base option list gmap strings fin_maps.

Local Open Scope Z_scope.
#[local] Set Warnings "-register-all".

(** ** 64-bit integers *)

Module Int64.

Definition min_int : Z := - 2 ^ 63.
Definition max_int : Z := 2 ^ 63 - 1.

(** The value a 64-bit signed register holds after an operation whose
    mathematical result is [z]. *)
Definition wrap (z : Z) : Z := (z + 2 ^ 63) mod 2 ^ 64 - 2 ^ 63.

Definition in_range (z : Z) : Prop := min_int <= z <= max_int.

(** Go's [x << k] on an [int64], for a shift count [k >= 0]: the low 64 bits
    of the unbounded shift (all of them zero once [k >= 64]). *)
Definition shl (x k : Z) : Z := wrap (Z.shiftl x k).

End Int64.

(** ** Frames ([message.go], [negotiation.go]) *)

Module Msg.

(** [MessageType] is a Go string type; the constants are the ones the two
    files declare. *)
Definition MessageType := string.

Definition AuthType : MessageType := "auth".
Definition AuthOKType : MessageType := "auth_ok".
Definition AuthErrType : MessageType := "auth_error".
Definition RequestType : MessageType := "request".
Definition ResponseType : MessageType := "response".
Definition AuthRequestType : MessageType := "auth_request".
Definition AuthFailType : MessageType := "auth_fail".

(** A value of Go's [any] as the package meets it: what [encoding/json]
    decodes into an [any] (nil, bool, float64, string, slice, string-keyed
    map), a native [int] (parameters built locally), and a struct value. *)
Inductive any : Type :=
  | ANil
  | ABool (b : bool)
  | AInt (i : Z)
  | AFloat64 (f : float)
  | AString (s : string)
  | ASlice (l : list any)
  | AMap (m : gmap string any)
  | AStruct (tname : string) (fields : list (string * any)).

Record RPCMessage : Type := mkRPC {
  Type_ : MessageType;
  ID : string;
  Method : string;
  Params : gmap string any;
  Result : any;
  Error : option string;
  ErrorCode : Z
}.

Record NegotiationMessage : Type := mkNeg {
  NType : MessageType;
  ClientID : string;
  AuthCode : string;
  UseCompression : bool
}.

End Msg.

(** ** Time ([time] of the Go library) *)

Module GoTime.

(** [time.Duration] counts nanoseconds in an [int64]. *)
Definition Second : Z := 1000000000.
Definition Minute : Z := 60 * Second.

(** An instant of the monotonic clock, in nanoseconds. *)
Definition instant := Z.

(** [t.Sub(u)]: the duration [t - u], or the largest or smallest duration
    when the difference does not fit one. *)
Definition Sub (t u : instant) : Z :=
  let d := t - u in
  if d <? Int64.min_int then Int64.min_int
  else if Int64.max_int <? d then Int64.max_int
  else d.

(** [time.Since(t)] at the instant [now]. *)
Definition Since (now t : instant) : Z := Sub now t.

End GoTime.

(** ** Reconnect backoff (auto-client) *)

Module Backoff.
Import GoTime.

(** [backoffDuration(attempt)].  A negative shift count panics in Go: the
    result is [None] there. *)
Definition backoffDuration (attempt : Z) : option Z :=
  let k := Int64.wrap (attempt - 1) in
  if k <? 0 then None
  else
    let base := Int64.wrap (Second * 2) in
    let delay := Int64.shl base k in
    if 3 * Minute <? delay then Some (3 * Minute) else Some delay.

(** What the claim promises for attempt [n]. *)
Definition spec_delay (n : Z) : Z := Z.min (2 ^ (n - 1) * (2 * Second)) (3 * Minute).

(** [AutoClient.loop], observed through the delays it sleeps: [outcomes]
    lists the results of the successive [connectOnce] calls ([true] is
    success) until the stop channel is closed.  [None]: the shift panicked. *)
Fixpoint loop (outcomes : list bool) (attempt : Z) : option (list Z) :=
  match outcomes with
  | [] => Some []
  | true :: rest => loop rest 1
  | false :: rest =>
      match backoffDuration attempt with
      | None => None
      | Some delay =>
          match loop rest (Int64.wrap (attempt + 1)) with
          | None => None
          | Some ds => Some (delay :: ds)
          end
      end
  end.

End Backoff.

(** ** Go library functions the accessors call *)

Module GoLib.

(** [strconv.Atoi]: an optional sign, then one or more decimal digits and
    nothing else; a value outside [int] is an error.  [None] is [err != nil]. *)
Definition digit_of (a : ascii) : option Z :=
  let n := Z.of_N (N_of_ascii a) in
  if (48 <=? n) && (n <=? 57) then Some (n - 48) else None.

Fixpoint parse_digits (acc : Z) (s : string) : option Z :=
  match s with
  | EmptyString => Some acc
  | String a rest =>
      match digit_of a with
      | Some d => parse_digits (acc * 10 + d) rest
      | None => None
      end
  end.

Definition Atoi (s : string) : option Z :=
  match s with
  | EmptyString => None
  | String a rest =>
      let neg := Ascii.eqb a "-"%char in
      let body := if neg || Ascii.eqb a "+"%char then rest else s in
      match body with
      | EmptyString => None
      | _ =>
          match parse_digits 0 body with
          | None => None
          | Some n =>
              let v := if neg then - n else n in
              if (Int64.min_int <=? v) && (v <=? Int64.max_int) then Some v else None
          end
      end
  end.

(** The integer part of a finite [float64], rounded toward zero; [None] for
    a NaN or an infinity. *)
Definition trunc (f : float) : option Z :=
  match Prim2SF f with
  | S754_zero _ => Some 0
  | S754_finite sign m e =>
      let mag := if 0 <=? e then Z.shiftl (Z.pos m) e else Z.shiftr (Z.pos m) (- e) in
      Some (if sign then - mag else mag)
  | S754_infinity _ | S754_nan => None
  end.

Section Conversion.

(** Go converts a float to [int] by discarding the fraction; where the
    result does not fit the [int] the language leaves the value to the
    implementation: [unrepresentable] stands for that choice. *)
Variable unrepresentable : float -> Z.

Definition int_of_float64 (f : float) : Z :=
  match trunc f with
  | Some z => if (Int64.min_int <=? z) && (z <=? Int64.max_int) then z else unrepresentable f
  | None => unrepresentable f
  end.

End Conversion.

End GoLib.

(** ** Handler context, as the connection builds it *)

Module Ctx.
Import Msg.

(** [Context]; its [conn] pointer is the connection that the operations
    writing a response take as their state (see [Conn]). *)
Record Context : Type := mkContext {
  clientID : string;
  id : string;
  params : gmap string any
}.

Definition ClientID (ctx : Context) : string := clientID ctx.

Definition GetParamString (ctx : Context) (name def : string) : string :=
  match params ctx !! name with
  | None => def
  | Some val =>
      match val with
      | AString str => str
      | _ => def
      end
  end.

Section Accessors.
Variable unrepresentable : float -> Z.

Definition GetParamInt (ctx : Context) (name : string) (def : Z) : Z :=
  match params ctx !! name with
  | None => def
  | Some val =>
      match val with
      | AFloat64 f => GoLib.int_of_float64 unrepresentable f
      | _ => def
      end
  end.

End Accessors.

(** The frame [WriteResponse] hands to [Send]. *)
Definition response_msg (ctx : Context) (result : any) : RPCMessage :=
  {| Type_ := ResponseType; ID := id ctx; Method := ""; Params := ∅;
     Result := result; Error := None; ErrorCode := 0 |}.

(** The frame [WriteError] hands to [Send]. *)
Definition error_msg (ctx : Context) (code : Z) (message : string) : RPCMessage :=
  {| Type_ := ResponseType; ID := id ctx; Method := ""; Params := ∅;
     Result := ANil; Error := Some message; ErrorCode := code |}.

End Ctx.

(** ** Handler context of [context.go] *)

Module CtxLegacy.
Import Msg.

Record Context : Type := mkContext {
  params : gmap string any;
  requestID : string
}.

Definition GetParamString (ctx : Context) (name def : string) : string :=
  match params ctx !! name with
  | Some (AString s) => s
  | _ => def
  end.

Section Accessors.
Variable unrepresentable : float -> Z.

Definition GetParamInt (ctx : Context) (name : string) (def : Z) : Z :=
  match params ctx !! name with
  | Some val =>
      match val with
      | AFloat64 v => GoLib.int_of_float64 unrepresentable v
      | AInt v => v
      | AString v =>
          match GoLib.Atoi v with
          | Some i => i
          | None => def
          end
      | _ => def
      end
  | None => def
  end.

End Accessors.

End CtxLegacy.

(** ** The accessors' coercion rules, as the specification words them *)

Module CtxSpec.
Import Msg.

(** The coercion rules of the integer accessor as the specification words
    them, for an accessor [get] over contexts whose parameters are
    [params_of]: a string is parsed, a float is truncated toward zero, a
    missing parameter or one of any other type gives the default. *)
Definition coercion_rules {C : Type} (params_of : C -> gmap string any)
    (get : C -> string -> Z -> Z) : Prop :=
  forall (ctx : C) (name : string) (def : Z),
    (forall s i, params_of ctx !! name = Some (AString s) ->
                 GoLib.Atoi s = Some i -> get ctx name def = i)
    /\ (forall f z, params_of ctx !! name = Some (AFloat64 f) ->
                    GoLib.trunc f = Some z -> Int64.in_range z -> get ctx name def = z)
    /\ (params_of ctx !! name = None -> get ctx name def = def)
    /\ (forall v, params_of ctx !! name = Some v ->
                  (forall s, v <> AString s) -> (forall f, v <> AFloat64 f) ->
                  get ctx name def = def).

(** The conversion of a float outside [int] on amd64: the minimal [int]. *)
Definition amd64_unrepresentable (_ : float) : Z := Int64.min_int.

End CtxSpec.

(** ** The connection *)

Module Conn.
Import Msg.

(** Go heap references: a channel made by [make(chan RPCMessage, 1)], and a
    handler function. *)
Definition chan_ref := nat.
Definition func_ref := nat.

(** A [HandlerFunc] value: [None] is the nil function. *)
Abbreviation HandlerFunc := (option func_ref).

(** [HandlerRegistry]: the [handlers] map. *)
Definition Register (method : string) (fn : HandlerFunc)
    (hr : gmap string HandlerFunc) : gmap string HandlerFunc :=
  <[method := fn]> hr.

(** A missing key reads as the zero value, the nil function. *)
Definition Get (method : string) (hr : gmap string HandlerFunc) : HandlerFunc :=
  default None (hr !! method).

(** What [Enc] writes to and [Dec] reads from: the transport itself or the
    gzip layer around it. *)
Inductive enc_target := EncConn | EncGzip.
Inductive dec_source := DecConn | DecGzip.

(** [Connection].  [wire] is the transport seen from the peer: the frames
    written to [Conn] so far, oldest first.  [gzbuf] holds the frames the
    gzip writer has taken and not yet flushed.  [Dec] is a pointer and may
    be nil; [gzWriter] and [gzReader] record whether those pointers are set. *)
Record Connection : Type := mkConnection {
  wire : list RPCMessage;
  Enc : enc_target;
  Dec : option dec_source;
  useCompression : bool;
  gzWriter : bool;
  gzbuf : list RPCMessage;
  gzReader : bool;
  pending : gmap string chan_ref;
  handlers : gmap string HandlerFunc;
  clientID : string
}.

Definition NewConnection : Connection :=
  {| wire := []; Enc := EncConn; Dec := Some DecConn; useCompression := false;
     gzWriter := false; gzbuf := []; gzReader := false; pending := ∅;
     handlers := ∅; clientID := "" |}.

Definition set_pending (f : gmap string chan_ref -> gmap string chan_ref)
    (c : Connection) : Connection :=
  {| wire := wire c; Enc := Enc c; Dec := Dec c; useCompression := useCompression c;
     gzWriter := gzWriter c; gzbuf := gzbuf c; gzReader := gzReader c;
     pending := f (pending c); handlers := handlers c; clientID := clientID c |}.

Definition set_handlers (h : gmap string HandlerFunc) (c : Connection) : Connection :=
  {| wire := wire c; Enc := Enc c; Dec := Dec c; useCompression := useCompression c;
     gzWriter := gzWriter c; gzbuf := gzbuf c; gzReader := gzReader c;
     pending := pending c; handlers := h; clientID := clientID c |}.

Definition set_clientID (i : string) (c : Connection) : Connection :=
  {| wire := wire c; Enc := Enc c; Dec := Dec c; useCompression := useCompression c;
     gzWriter := gzWriter c; gzbuf := gzbuf c; gzReader := gzReader c;
     pending := pending c; handlers := handlers c; clientID := i |}.

Definition set_output (w b : list RPCMessage) (c : Connection) : Connection :=
  {| wire := w; Enc := Enc c; Dec := Dec c; useCompression := useCompression c;
     gzWriter := gzWriter c; gzbuf := b; gzReader := gzReader c;
     pending := pending c; handlers := handlers c; clientID := clientID c |}.

(** [EnableCompression]; it always returns a nil error. *)
Definition EnableCompression (c : Connection) : Connection :=
  if useCompression c then c
  else
    {| wire := wire c; Enc := EncGzip; Dec := Dec c; useCompression := true;
       gzWriter := true; gzbuf := gzbuf c; gzReader := gzReader c;
       pending := pending c; handlers := handlers c; clientID := clientID c |}.

(** The lazy set-up of the gzip reader at the head of a [readLoop] round. *)
Definition init_reader (c : Connection) : Connection :=
  {| wire := wire c; Enc := Enc c; Dec := Some DecGzip; useCompression := useCompression c;
     gzWriter := gzWriter c; gzbuf := gzbuf c; gzReader := true;
     pending := pending c; handlers := handlers c; clientID := clientID c |}.

(** What the transport does with one [Send]: the error of [Enc.Encode] and
    the error of [gzWriter.Flush], [None] for success. *)
Record transport_io : Type := mkIO {
  encode_err : option string;
  flush_err : option string
}.

Definition io_ok : transport_io := mkIO None None.

(** [Enc.Encode(msg)] when it succeeds. *)
Definition Encode (msg : RPCMessage) (c : Connection) : Connection :=
  match Enc c with
  | EncConn => set_output (wire c ++ [msg]) (gzbuf c) c
  | EncGzip => set_output (wire c) (gzbuf c ++ [msg]) c
  end.

(** [gzWriter.Flush()] when it succeeds. *)
Definition Flush (c : Connection) : Connection :=
  set_output (wire c ++ gzbuf c) [] c.

(** [Send], the body run under [sendMu]. *)
Definition Send (io : transport_io) (msg : RPCMessage) (c : Connection)
    : Connection * option string :=
  match encode_err io with
  | Some e => (c, Some e)
  | None =>
      let c1 := Encode msg c in
      if useCompression c1 && gzWriter c1 then
        match flush_err io with
        | Some e => (c1, Some e)
        | None => (Flush c1, None)
        end
      else (c1, None)
  end.

(** [connClosed]: the body is empty. *)
Definition connClosed (c : Connection) : Connection := c.

(** *** The goroutines around one connection *)

(** What a caller is handed when its call completes. *)
Inductive outcome : Type :=
  | OResult (v : any)
  | OResponseError (code : Z) (message : string)
  | OErrorf (code : Z) (message : string)
  | OSendError (e : string)
  | OTimeout
  | OCancelled.

(** [Call], or [CallAsync] with a callback that is nil or not. *)
Inductive call_kind : Type :=
  | Blocking
  | Async (has_callback : bool).

(** Where the goroutine of one call stands: the entry is stored and [Send]
    has not returned; [Send] returned an error and the entry is not yet
    deleted; the entry is deleted and [go callback(nil, err)] has not run;
    the call has failed; the [select] is waiting; [Call]'s timer case was
    taken and its delete has not run; [CallAsync]'s waiter ran its case and
    its deferred delete has not run; the call is over. *)
Inductive call_pc : Type :=
  | PcRegistered
  | PcSendFailed (err : string)
  | PcFailedCallback (err : string)
  | PcFailed
  | PcWaiting
  | PcTimedOut
  | PcCompleting
  | PcDone.

Record call : Type := mkCall {
  kind : call_kind;
  ch : chan_ref;
  method : string;
  cparams : gmap string any;
  pc : call_pc;
  cancelled : bool
}.

Definition set_pc (p : call_pc) (c : call) : call :=
  {| kind := kind c; ch := ch c; method := method c; cparams := cparams c;
     pc := p; cancelled := cancelled c |}.

Definition set_cancelled (c : call) : call :=
  {| kind := kind c; ch := ch c; method := method c; cparams := cparams c;
     pc := pc c; cancelled := true |}.

Inductive reader_pc : Type := Running | Exited.

(** The connection with the channels of its calls, the calls' goroutines by
    correlation id, and the read loop. *)
Record State : Type := mkState {
  conn : Connection;
  chans : gmap chan_ref (list RPCMessage);
  calls : gmap string call;
  reader : reader_pc
}.

Definition init (c : Connection) : State :=
  {| conn := c; chans := ∅; calls := ∅; reader := Running |}.

Definition set_conn (c : Connection) (st : State) : State :=
  {| conn := c; chans := chans st; calls := calls st; reader := reader st |}.

Definition set_chan (r : chan_ref) (buf : list RPCMessage) (st : State) : State :=
  {| conn := conn st; chans := <[r := buf]> (chans st); calls := calls st;
     reader := reader st |}.

Definition set_call (id : string) (c : call) (st : State) : State :=
  {| conn := conn st; chans := chans st; calls := <[id := c]> (calls st);
     reader := reader st |}.

Definition set_reader (r : reader_pc) (st : State) : State :=
  {| conn := conn st; chans := chans st; calls := calls st; reader := r |}.

Definition delete_pending (id : string) (st : State) : State :=
  set_conn (set_pending (delete id) (conn st)) st.

(** What the rest of the program observes. *)
Inductive event : Type :=
  | EvSend (msg : RPCMessage) (err : option string)
  | EvInboxWrite (id : string) (msg : RPCMessage)
  | EvDispatch (fn : func_ref) (ctx : Ctx.Context)
  | EvReturn (id : string) (o : outcome)
  | EvCallback (id : string) (o : outcome)
  | EvLog (line : string).

Definition request_msg (id : string) (c : call) : RPCMessage :=
  {| Type_ := RequestType; ID := id; Method := method c; Params := cparams c;
     Result := ANil; Error := None; ErrorCode := 0 |}.

(** [handleMessage].  [None]: the send on the channel would block (its one
    slot is taken), with [pendingMu] held. *)
Definition handleMessage (io : transport_io) (msg : RPCMessage) (st : State)
    : option (State * list event) :=
  if decide (Type_ msg = ResponseType) then
    match pending (conn st) !! ID msg with
    | Some r =>
        match chans st !! r with
        | Some [] =>
            Some (delete_pending (ID msg) (set_chan r [msg] st),
                  [EvInboxWrite (ID msg) msg])
        | _ => None
        end
    | None => Some (st, [])
    end
  else if decide (Type_ msg = RequestType) then
    let ctx := Ctx.mkContext (clientID (conn st)) (ID msg) (Params msg) in
    match Get (Method msg) (handlers (conn st)) with
    | Some fn => Some (st, [EvDispatch fn ctx])
    | None =>
        let reply := Ctx.error_msg ctx 404 "method not found" in
        let r := Send io reply (conn st) in
        Some (set_conn (fst r) st, [EvSend reply (snd r)])
    end
  else Some (st, [EvLog "[conn] unknown message type"]).

(** What one round of [readLoop] meets: whether the gzip header can be read
    (asked only when the reader is set up), and the frame [Decode] yields,
    [None] when it fails. *)
Record read_input : Type := mkRead {
  gzip_header_ok : bool;
  decoded : option RPCMessage
}.

Definition read_exit (st : State) : State * list event :=
  (set_conn (connClosed (conn st)) (set_reader Exited st),
   [EvLog "[conn] readLoop terminated"]).

(** One round of the loop of [readLoop]. *)
Definition readLoop_round (inp : read_input) (io : transport_io) (st : State)
    : option (State * list event) :=
  match reader st with
  | Exited => None
  | Running =>
      let c := conn st in
      if useCompression c && negb (gzReader c) && negb (gzip_header_ok inp) then
        Some (read_exit st)
      else
        let st1 :=
          if useCompression c && negb (gzReader c)
          then set_conn (init_reader c) st else st in
        match decoded inp with
        | None => Some (read_exit st1)
        | Some msg => handleMessage io msg st1
        end
  end.

(** What a caller of [Call] gets for a delivered frame, and what the
    callback of [CallAsync] gets. *)
Definition call_outcome (msg : RPCMessage) : outcome :=
  match Error msg with
  | Some e => OResponseError (ErrorCode msg) e
  | None => OResult (Result msg)
  end.

Definition callback_outcome (msg : RPCMessage) : outcome :=
  match Error msg with
  | Some e => OErrorf (ErrorCode msg) e
  | None => OResult (Result msg)
  end.

(** The callback is invoked only when it is not nil. *)
Definition callback_event (k : call_kind) (id : string) (o : outcome) : list event :=
  match k with
  | Async true => [EvCallback id o]
  | _ => []
  end.

(** The steps of the goroutines.  A step is one critical section or one
    channel operation with the thread-local code up to the next one. *)
Inductive action : Type :=
  | ACall (k : call_kind) (id : string) (r : chan_ref) (method : string)
      (params : gmap string any)
  | ASendRequest (id : string) (io : transport_io)
  | ADeleteOnSendError (id : string)
  | ARunErrCallback (id : string)
  | ASelectRecv (id : string)
  | ASelectTimeout (id : string)
  | ASelectCancel (id : string)
  | ACancel (id : string)
  | ADelete (id : string)
  | ARead (inp : read_input) (io : transport_io).

(** [ACall]: [uuid.NewString()] gave [id] (an id no call had before),
    [make] gave the channel [r], and [pending[id] = ch] was stored.
    [ASendRequest]: [c.Send(req)] ran.  [ADeleteOnSendError]: the delete
    after a failed [Send], and [Call]'s return.  [ARunErrCallback]: the
    goroutine [go callback(nil, err)] ran.  [ASelectRecv], [ASelectTimeout],
    [ASelectCancel]: the [select] took that case.  [ACancel]:
    [CallContext.Cancel()].  [ADelete]: the delete that follows [Call]'s
    timer case, or the deferred delete of the waiter of [CallAsync].
    [ARead]: one round of [readLoop]. *)
Definition exec (a : action) (st : State) : option (State * list event) :=
  match a with
  | ACall k id r m params =>
      match calls st !! id, chans st !! r with
      | None, None =>
          let c := mkCall k r m params PcRegistered false in
          Some (set_call id c
                  (set_conn (set_pending (<[id := r]>) (conn st)) (set_chan r [] st)),
                [])
      | _, _ => None
      end
  | ASendRequest id io =>
      match calls st !! id with
      | Some c =>
          match pc c with
          | PcRegistered =>
              let req := request_msg id c in
              let r := Send io req (conn st) in
              let p := match snd r with Some e => PcSendFailed e | None => PcWaiting end in
              Some (set_call id (set_pc p c) (set_conn (fst r) st), [EvSend req (snd r)])
          | _ => None
          end
      | None => None
      end
  | ADeleteOnSendError id =>
      match calls st !! id with
      | Some c =>
          match pc c with
          | PcSendFailed e =>
              let st1 := delete_pending id st in
              match kind c with
              | Blocking =>
                  Some (set_call id (set_pc PcFailed c) st1, [EvReturn id (OSendError e)])
              | Async true => Some (set_call id (set_pc (PcFailedCallback e) c) st1, [])
              | Async false => Some (set_call id (set_pc PcFailed c) st1, [])
              end
          | _ => None
          end
      | None => None
      end
  | ARunErrCallback id =>
      match calls st !! id with
      | Some c =>
          match pc c with
          | PcFailedCallback e =>
              Some (set_call id (set_pc PcFailed c) st, [EvCallback id (OSendError e)])
          | _ => None
          end
      | None => None
      end
  | ASelectRecv id =>
      match calls st !! id with
      | Some c =>
          match pc c, chans st !! ch c with
          | PcWaiting, Some (msg :: rest) =>
              let st1 := set_chan (ch c) rest st in
              match kind c with
              | Blocking =>
                  Some (set_call id (set_pc PcDone c) st1, [EvReturn id (call_outcome msg)])
              | Async _ =>
                  Some (set_call id (set_pc PcCompleting c) st1,
                        callback_event (kind c) id (callback_outcome msg))
              end
          | _, _ => None
          end
      | None => None
      end
  | ASelectTimeout id =>
      match calls st !! id with
      | Some c =>
          match pc c with
          | PcWaiting =>
              match kind c with
              | Blocking => Some (set_call id (set_pc PcTimedOut c) st, [])
              | Async _ =>
                  Some (set_call id (set_pc PcCompleting c) st,
                        callback_event (kind c) id OTimeout)
              end
          | _ => None
          end
      | None => None
      end
  | ASelectCancel id =>
      match calls st !! id with
      | Some c =>
          match pc c, kind c, cancelled c with
          | PcWaiting, Async _, true =>
              Some (set_call id (set_pc PcCompleting c) st,
                    callback_event (kind c) id OCancelled)
          | _, _, _ => None
          end
      | None => None
      end
  | ACancel id =>
      match calls st !! id with
      | Some c =>
          match kind c, pc c with
          | Async _, (PcWaiting | PcCompleting | PcDone) =>
              Some (set_call id (set_cancelled c) st, [])
          | _, _ => None
          end
      | None => None
      end
  | ADelete id =>
      match calls st !! id with
      | Some c =>
          match pc c, kind c with
          | PcTimedOut, Blocking =>
              Some (set_call id (set_pc PcDone c) (delete_pending id st),
                    [EvReturn id OTimeout])
          | PcCompleting, Async _ =>
              Some (set_call id (set_pc PcDone c) (delete_pending id st), [])
          | _, _ => None
          end
      | None => None
      end
  | ARead inp io => readLoop_round inp io st
  end.

(** A schedule: the steps in the order they are taken, with the events they
    give in that order.  [None]: a step of the schedule cannot be taken. *)
Fixpoint run (acts : list action) (st : State) : option (State * list event) :=
  match acts with
  | [] => Some (st, [])
  | a :: rest =>
      match exec a st with
      | None => None
      | Some (st1, evs1) =>
          match run rest st1 with
          | None => None
          | Some (st2, evs2) => Some (st2, evs1 ++ evs2)
          end
      end
  end.

(** [Call] with no goroutine in between but the read loop: [Send] meets
    [io]; then the read loop decodes [reply], or, for [None], the timer
    fires first. *)
Definition Call (id : string) (r : chan_ref) (method : string)
    (params : gmap string any) (io : transport_io) (reply : option RPCMessage)
    (st : State) : option (State * list event) :=
  match run [ACall Blocking id r method params; ASendRequest id io] st with
  | None => None
  | Some (st1, evs1) =>
      let rest :=
        match pc <$> calls st1 !! id, reply with
        | Some (PcSendFailed _), _ => [ADeleteOnSendError id]
        | _, Some msg => [ARead (mkRead true (Some msg)) io_ok; ASelectRecv id]
        | _, None => [ASelectTimeout id; ADelete id]
        end in
      match run rest st1 with
      | None => None
      | Some (st2, evs2) => Some (st2, evs1 ++ evs2)
      end
  end.

(** [CallAsync] with its waiter, in the same way; the callback is nil
    unless [has_callback]. *)
Definition CallAsync (id : string) (r : chan_ref) (method : string)
    (params : gmap string any) (has_callback : bool) (io : transport_io)
    (reply : option RPCMessage) (st : State) : option (State * list event) :=
  match run [ACall (Async has_callback) id r method params; ASendRequest id io] st with
  | None => None
  | Some (st1, evs1) =>
      let rest :=
        match pc <$> calls st1 !! id, reply with
        | Some (PcSendFailed _), _ =>
            ADeleteOnSendError id :: (if has_callback then [ARunErrCallback id] else [])
        | _, Some msg =>
            [ARead (mkRead true (Some msg)) io_ok; ASelectRecv id; ADelete id]
        | _, None => [ASelectTimeout id; ADelete id]
        end in
      match run rest st1 with
      | None => None
      | Some (st2, evs2) => Some (st2, evs1 ++ evs2)
      end
  end.

(** [readLoop] alone, over the inputs it meets. *)
Definition readLoop (inps : list (read_input * transport_io)) (st : State)
    : option (State * list event) :=
  run (map (fun x => ARead (fst x) (snd x)) inps) st.

End Conn.

(** ** The connection's claims, as the specification words them *)

Module ConnSpec.
Import Msg Conn.

(** The event hands the completion of call [id] to its caller. *)
Definition completes (id : string) (e : event) : Prop :=
  match e with
  | EvReturn i _ | EvCallback i _ => i = id
  | _ => False
  end.

(** The event is a write to the inbox of call [id]. *)
Definition writes (id : string) (e : event) : Prop :=
  match e with
  | EvInboxWrite i _ => i = id
  | _ => False
  end.

(** The completion is final: [Call] returned, or the callback of
    [CallAsync] got a result, a response error or the send error. *)
Definition final (id : string) (e : event) : Prop :=
  match e with
  | EvReturn i _ => i = id
  | EvCallback i (OResult _ | OErrorf _ _ | OSendError _) => i = id
  | _ => False
  end.

(** The event hands the send error of call [id] to its caller. *)
Definition send_error (id : string) (e : event) : Prop :=
  match e with
  | EvReturn i (OSendError _) | EvCallback i (OSendError _) => i = id
  | _ => False
  end.

(** "After a caller has received a result, error, timeout, or cancellation,
    no further inbox write or callback invocation occurs for that id", over
    the schedules of a connection that starts as [c0]. *)
Definition quiet_after_completion (c0 : Connection) : Prop :=
  forall acts st tr id tr1 e tr2,
    run acts (init c0) = Some (st, tr) ->
    tr = tr1 ++ e :: tr2 ->
    completes id e ->
    forall e', e' ∈ tr2 -> ~ completes id e' /\ ~ writes id e'.

(** "When the read loop terminates, every entry then present in the pending
    table is completed with a disconnection error": the entry is taken out
    of the table, or an error frame is put in its inbox. *)
Definition released_on_exit (c0 : Connection) : Prop :=
  forall acts st tr inp io st' evs,
    run acts (init c0) = Some (st, tr) ->
    exec (ARead inp io) st = Some (st', evs) ->
    reader st' = Exited ->
    forall id r,
      pending (conn st) !! id = Some r ->
      pending (conn st') !! id = None
      \/ exists msg, chans st' !! r = Some [msg] /\ is_Some (Error msg).

End ConnSpec.

(** ** States, invariants and scenarios of the connection used in the proofs *)

Module ConnInv.
Import Msg Conn ConnSpec.

(** The id has been issued to a call and is not in the pending table. *)
Definition retired (id : string) (st : State) : Prop :=
  is_Some (calls st !! id) /\ pending (conn st) !! id = None.

(** The state and the events of a schedule that can be run. *)
Definition the (r : option (State * list event)) : State * list event :=
  default (init NewConnection, []) r.

(** The response to the echo request of call [id]. *)
Definition echo_response (id : string) : RPCMessage :=
  {| Type_ := ResponseType; ID := id; Method := ""; Params := ∅;
     Result := AString "ping"; Error := None; ErrorCode := 0 |}.

(** A blocking call is waiting for its response. *)
Definition waiting_acts : list action :=
  [ACall Blocking "a" 0%nat "Echo" ∅; ASendRequest "a" io_ok].

(** After the exit: the loop has returned, and call [id] is past its
    [select] or still in it with an empty inbox. *)
Definition orphaned (id : string) (st : State) : Prop :=
  reader st = Exited
  /\ exists c, calls st !! id = Some c
       /\ (pc c = PcWaiting /\ chans st !! ch c = Some []
           \/ pc c = PcTimedOut \/ pc c = PcCompleting \/ pc c = PcDone).

(** If this event completes call [id], then by its timeout when it is the
    return of [Call], and by its timeout or its cancellation when it is the
    callback of [CallAsync]. *)
Definition timeout_or_cancel (id : string) (e : event) : Prop :=
  (forall o, e = EvReturn id o -> o = OTimeout)
  /\ (forall o, e = EvCallback id o -> o = OTimeout \/ o = OCancelled).

(** The places of a call's goroutine at which its entry may be in the table. *)
Definition live_pc (p : call_pc) : Prop :=
  match p with
  | PcRegistered | PcSendFailed _ | PcWaiting | PcTimedOut | PcCompleting => True
  | PcFailedCallback _ | PcFailed | PcDone => False
  end.

(** What every state of a schedule satisfies: an entry of the table belongs
    to a call that is not over, and its channel is that call's and is
    empty; the channel of a call exists; two calls have two channels. *)
Record wf (st : State) : Prop := mk_wf {
  wf_pending : forall id r, pending (conn st) !! id = Some r ->
     exists c, calls st !! id = Some c /\ ch c = r /\ chans st !! r = Some [] /\ live_pc (pc c);
  wf_chan : forall id c, calls st !! id = Some c -> is_Some (chans st !! ch c);
  wf_inj : forall id id' c c', calls st !! id = Some c -> calls st !! id' = Some c' ->
     ch c = ch c' -> id = id'
}.

(** The call is past its completion. *)
Definition completed (id : string) (st : State) : Prop :=
  exists c, calls st !! id = Some c
    /\ (pc c = PcFailed \/ pc c = PcCompleting \/ pc c = PcDone).

(** The timer of an asynchronous call fires, its callback runs, and the
    response arrives before the deferred delete. *)
Definition late_acts : list action :=
  [ACall (Async true) "a" 0%nat "Echo" ∅; ASendRequest "a" io_ok;
   ASelectTimeout "a"; ARead (mkRead true (Some (echo_response "a"))) io_ok;
   ADelete "a"].

(** A transport whose write fails. *)
Definition io_broken : transport_io := mkIO (Some "broken pipe"%string) None.

(** The reply the specification names: a response for the request's id
    with the code 404 and the message "method not found". *)
Definition not_found_reply (msg : RPCMessage) : RPCMessage :=
  {| Type_ := ResponseType; ID := ID msg; Method := ""; Params := ∅;
     Result := ANil; Error := Some "method not found"%string; ErrorCode := 404 |}.

(** Nothing is held back in the compressor, and an encoder that writes to
    it belongs to a connection with compression on. *)
Definition flushed (c : Connection) : Prop :=
  gzbuf c = []
  /\ (Enc c = EncGzip -> useCompression c = true /\ gzWriter c = true)
  /\ (Enc c = EncConn -> useCompression c = false).

(** The request of the test suite's unknown-method scenario. *)
Definition unknown_request : RPCMessage :=
  {| Type_ := RequestType; ID := "r1"; Method := "Nope"; Params := ∅;
     Result := ANil; Error := None; ErrorCode := 0 |}.

End ConnInv.

(** ** The server: the client registry and its heartbeats *)

Module Srv.
Import Msg GoTime.

(** A [*Connection]. *)
Definition conn_ref := nat.

Definition DefaultHeartbeatTimeout : Z := 40 * Second.

(** The handler function [s.handlePing]. *)
Definition handlePing_ref : Conn.func_ref := 0%nat.

(** [Server]: the fields under [clientsMu], the handlers and [authFunc]. *)
Record Server : Type := mkServer {
  authFunc : string -> string -> bool;
  handlers : gmap string (option Conn.func_ref);
  clients : gmap string conn_ref;
  lastPing : gmap string instant
}.

Definition NewServer (auth : string -> string -> bool) : Server :=
  {| authFunc := auth;
     handlers := Conn.Register "Ping" (Some handlePing_ref) ∅;
     clients := ∅;
     lastPing := ∅ |}.

Definition set_clients (m : gmap string conn_ref) (s : Server) : Server :=
  {| authFunc := authFunc s; handlers := handlers s; clients := m;
     lastPing := lastPing s |}.

Definition set_lastPing (m : gmap string instant) (s : Server) : Server :=
  {| authFunc := authFunc s; handlers := handlers s; clients := clients s;
     lastPing := m |}.

(** The two deletes that every removal makes. *)
Definition purge (clientID : string) (s : Server) : Server :=
  set_lastPing (delete clientID (lastPing s)) (set_clients (delete clientID (clients s)) s).

(** [GetClientByID] at the instant [now]: the connection, [None] for nil,
    and the server after the call. *)
Definition GetClientByID (now : instant) (clientID : string) (s : Server)
    : option conn_ref * Server :=
  match clients s !! clientID with
  | None => (None, s)
  | Some conn =>
      match lastPing s !! clientID with
      | Some lp =>
          if DefaultHeartbeatTimeout <? Since now lp
          then (None, purge clientID s)
          else (Some conn, s)
      | None => (None, purge clientID s)
      end
  end.

(** The critical section of [handlePing]. *)
Definition handlePing (now : instant) (ctx : Ctx.Context) (s : Server) : Server :=
  set_lastPing (<[Ctx.ClientID ctx := now]> (lastPing s)) s.

(** Where [ServeConn] stands for one connection: authenticated, with
    [lastPing] stored and [AuthOK] not yet sent; [AuthOK] sent and the
    connection set up, not yet in [clients]; in [clients], with the read
    loop and the cleanup goroutine started; cleaned up; closed without
    having been registered. *)
Inductive serve_pc : Type :=
  | SAuthenticated (neg : NegotiationMessage)
  | SReady (neg : NegotiationMessage)
  | SRunning (neg : NegotiationMessage)
  | SCleaned (neg : NegotiationMessage)
  | SClosed.

(** The server, the connections [ServeConn] made with their goroutines, the
    [Ping] handlers dispatched and not yet run, and the clock. *)
Record State : Type := mkState {
  server : Server;
  conns : gmap conn_ref Conn.State;
  serving : gmap conn_ref serve_pc;
  dispatched : list (conn_ref * Ctx.Context);
  clock : instant
}.

Definition init (auth : string -> string -> bool) : State :=
  {| server := NewServer auth; conns := ∅; serving := ∅; dispatched := [];
     clock := 0 |}.

Definition set_server (s : Server) (st : State) : State :=
  {| server := s; conns := conns st; serving := serving st;
     dispatched := dispatched st; clock := clock st |}.

Definition set_conn (c : conn_ref) (cs : Conn.State) (st : State) : State :=
  {| server := server st; conns := <[c := cs]> (conns st); serving := serving st;
     dispatched := dispatched st; clock := clock st |}.

Definition set_serving (c : conn_ref) (p : serve_pc) (st : State) : State :=
  {| server := server st; conns := conns st; serving := <[c := p]> (serving st);
     dispatched := dispatched st; clock := clock st |}.

Definition set_dispatched (l : list (conn_ref * Ctx.Context)) (st : State) : State :=
  {| server := server st; conns := conns st; serving := serving st;
     dispatched := l; clock := clock st |}.

Definition set_clock (t : instant) (st : State) : State :=
  {| server := server st; conns := conns st; serving := serving st;
     dispatched := dispatched st; clock := t |}.

(** The [Ping] handlers among the events of a connection's step. *)
Fixpoint pings (c : conn_ref) (evs : list Conn.event) : list (conn_ref * Ctx.Context) :=
  match evs with
  | [] => []
  | Conn.EvDispatch fn ctx :: rest =>
      if decide (fn = handlePing_ref) then (c, ctx) :: pings c rest else pings c rest
  | _ :: rest => pings c rest
  end.

(** The steps of the server's goroutines.
    [AServe c neg]: [ServeConn] makes the connection [c] and reads the
    negotiation frame [neg] ([None]: the read fails); up to the store of
    [lastPing] when the client is authenticated.
    [AAuthOK c ok]: [SendNegotiation] of [AuthOK], which fails unless [ok];
    then the set-up of compression and handlers.
    [ARegister c]: the critical section storing [clients], then
    [StartReadLoop] and the start of the cleanup goroutine.
    [ACleanup c]: the cleanup goroutine finds [c.Dec == nil] and deletes.
    [AConn c a]: a goroutine of connection [c] takes the step [a].
    [APing k io]: the [k]th dispatched [handlePing] runs.
    [AGet id]: a call of [GetClientByID].
    [ATick d]: [d] nanoseconds pass. *)
Inductive action : Type :=
  | AServe (c : conn_ref) (neg : option NegotiationMessage)
  | AAuthOK (c : conn_ref) (ok : bool)
  | ARegister (c : conn_ref)
  | ACleanup (c : conn_ref)
  | AConn (c : conn_ref) (a : Conn.action)
  | APing (k : nat) (io : Conn.transport_io)
  | AGet (clientID : string)
  | ATick (d : Z).

Definition exec (a : action) (st : State) : option State :=
  match a with
  | AServe c neg =>
      match conns st !! c with
      | Some _ => None
      | None =>
          let st1 := set_conn c (Conn.init Conn.NewConnection) st in
          match neg with
          | None => Some (set_serving c SClosed st1)
          | Some negMsg =>
              if decide (NType negMsg = AuthRequestType) then
                if authFunc (server st) (ClientID negMsg) (AuthCode negMsg) then
                  let cs := Conn.init (Conn.set_clientID (ClientID negMsg) Conn.NewConnection) in
                  let s := set_lastPing
                             (<[ClientID negMsg := clock st]> (lastPing (server st)))
                             (server st) in
                  Some (set_serving c (SAuthenticated negMsg)
                          (set_server s (set_conn c cs st)))
                else Some (set_serving c SClosed st1)
              else Some (set_serving c SClosed st1)
          end
      end
  | AAuthOK c ok =>
      match serving st !! c, conns st !! c with
      | Some (SAuthenticated negMsg), Some cs =>
          if ok then
            let k0 := Conn.conn cs in
            let k1 := if UseCompression negMsg then Conn.EnableCompression k0 else k0 in
            let k2 := Conn.set_handlers (handlers (server st)) k1 in
            Some (set_serving c (SReady negMsg) (set_conn c (Conn.set_conn k2 cs) st))
          else Some (set_serving c SClosed st)
      | _, _ => None
      end
  | ARegister c =>
      match serving st !! c with
      | Some (SReady negMsg) =>
          let s := set_clients (<[ClientID negMsg := c]> (clients (server st))) (server st) in
          Some (set_serving c (SRunning negMsg) (set_server s st))
      | _ => None
      end
  | ACleanup c =>
      match serving st !! c, conns st !! c with
      | Some (SRunning negMsg), Some cs =>
          match Conn.Dec (Conn.conn cs) with
          | None =>
              Some (set_serving c (SCleaned negMsg)
                      (set_server (purge (ClientID negMsg) (server st)) st))
          | Some _ => None
          end
      | _, _ => None
      end
  | AConn c a =>
      match serving st !! c, conns st !! c with
      | Some (SRunning _ | SCleaned _), Some cs =>
          match Conn.exec a cs with
          | Some (cs', evs) =>
              Some (set_dispatched (dispatched st ++ pings c evs) (set_conn c cs' st))
          | None => None
          end
      | _, _ => None
      end
  | APing k io =>
      match dispatched st !! k with
      | Some (c, ctx) =>
          match conns st !! c with
          | Some cs =>
              let s := handlePing (clock st) ctx (server st) in
              let r := Conn.Send io (Ctx.response_msg ctx (AString "pong")) (Conn.conn cs) in
              Some (set_dispatched (take k (dispatched st) ++ drop (S k) (dispatched st))
                      (set_server s (set_conn c (Conn.set_conn (fst r) cs) st)))
          | None => None
          end
      | None => None
      end
  | AGet clientID =>
      Some (set_server (snd (GetClientByID (clock st) clientID (server st))) st)
  | ATick d =>
      if 0 <=? d then Some (set_clock (clock st + d) st) else None
  end.

Fixpoint run (acts : list action) (st : State) : option State :=
  match acts with
  | [] => Some st
  | a :: rest =>
      match exec a st with
      | None => None
      | Some st1 => run rest st1
      end
  end.

(** [ServeConn] for the connection [c] with no goroutine in between: the
    negotiation frame read is [neg], and [AuthOK] can be sent if [ok]. *)
Definition ServeConn (c : conn_ref) (neg : option NegotiationMessage) (ok : bool)
    (st : State) : option State :=
  match exec (AServe c neg) st with
  | None => None
  | Some st1 =>
      match serving st1 !! c with
      | Some (SAuthenticated _) =>
          if ok then run [AAuthOK c true; ARegister c] st1
          else exec (AAuthOK c false) st1
      | _ => Some st1
      end
  end.

End Srv.

(** ** The registry's claims, as the specification words them *)

Module SrvSpec.
Import Msg GoTime Srv.

(** "[GetClientByID] returns a non-nil connection if and only if the client
    is registered and the time since its last recorded ping is at most 40
    seconds". *)
Definition alive (now : instant) (clientID : string) (s : Server) (c : conn_ref) : Prop :=
  clients s !! clientID = Some c
  /\ exists lp, lastPing s !! clientID = Some lp /\ now - lp <= 40 * Second.

(** The connection [c] was authenticated as [clientID] by [ServeConn]. *)
Definition authenticated_as (auth : string -> string -> bool) (clientID : string)
    (p : serve_pc) : Prop :=
  match p with
  | SRunning neg | SCleaned neg =>
      ClientID neg = clientID /\ NType neg = AuthRequestType
      /\ auth clientID (AuthCode neg) = true
  | _ => False
  end.

(** "In every reachable server state, the clients map and the lastPing map
    have exactly the same key set". *)
Definition same_keys_always (auth : string -> string -> bool) : Prop :=
  forall acts st,
    run acts (init auth) = Some st ->
    dom (clients (server st)) = dom (lastPing (server st)).

(** "An entry for a clientID is present only between that client's
    successful authentication handshake and the earlier of read-loop
    termination or heartbeat expiry": a client in [clients] has been
    authenticated, the read loop of its connection runs, and its last ping
    is at most 40 seconds old. *)
Definition present_only_in_window (auth : string -> string -> bool) : Prop :=
  forall acts st,
    run acts (init auth) = Some st ->
    forall clientID c,
      clients (server st) !! clientID = Some c ->
      (exists p, serving st !! c = Some p /\ authenticated_as auth clientID p)
      /\ (exists cs, conns st !! c = Some cs /\ Conn.reader cs = Conn.Running)
      /\ (exists lp, lastPing (server st) !! clientID = Some lp
                     /\ clock st - lp <= 40 * Second).

(** "Every removal deletes the entry from both maps in the same critical
    section": a step after which [clientID] is missing from one map where
    it was present leaves it in neither. *)
Definition removes_both (st st' : State) (clientID : string) : Prop :=
  (is_Some (clients (server st) !! clientID) /\ clients (server st') !! clientID = None
   \/ is_Some (lastPing (server st) !! clientID) /\ lastPing (server st') !! clientID = None) ->
  clients (server st') !! clientID = None /\ lastPing (server st') !! clientID = None.

(** What every state of the server satisfies: [authFunc] is the function
    the server was made with; a connection [ServeConn] works on exists; a
    connection past the authentication sent an [AuthRequest] that
    [authFunc] accepted; a connection in [clients] has been registered
    under that id. *)
Definition registered (auth : string -> string -> bool) (st : State) : Prop :=
  authFunc (server st) = auth
  /\ (forall c p, serving st !! c = Some p -> is_Some (conns st !! c))
  /\ (forall c p, serving st !! c = Some p ->
        match p with
        | SAuthenticated neg | SReady neg | SRunning neg | SCleaned neg =>
            NType neg = AuthRequestType
            /\ auth (ClientID neg) (AuthCode neg) = true
        | SClosed => True
        end)
  /\ (forall clientID c, clients (server st) !! clientID = Some c ->
        exists p, serving st !! c = Some p
          /\ match p with
             | SRunning neg | SCleaned neg => ClientID neg = clientID
             | _ => False
             end).

(** Every connection has its decoder. *)
Definition decoders_set (st : State) : Prop :=
  forall c cs, conns st !! c = Some cs -> is_Some (Conn.Dec (Conn.conn cs)).

(** The authentication function of the test suite's server, for any code. *)
Definition accept_all (clientID authCode : string) : bool := true.

Definition client42_request : NegotiationMessage :=
  {| NType := AuthRequestType; ClientID := "client42"; AuthCode := "s3cr3t";
     UseCompression := true |}.

(** The client is authenticated and [AuthOK] cannot be sent. *)
Definition refused_acts : list action :=
  [AServe 0%nat (Some client42_request); AAuthOK 0%nat false].

(** The client connects and is registered; 41 seconds pass. *)
Definition silent_acts : list action :=
  [AServe 0%nat (Some client42_request); AAuthOK 0%nat true; ARegister 0%nat;
   ATick (41 * Second)].

End SrvSpec.

(** ** The result adapter *)

Module Adapter.
Import Msg.

(** The [reflect.Type] of a value or of a destination variable. *)
Inductive rtype : Type :=
  | TBool
  | TInt
  | TFloat64
  | TString
  | TSlice
  | TMap
  | TInterface
  | TStruct (name : string).

#[export] Instance rtype_eq_dec : EqDecision rtype.
Proof. solve_decision. Defined.

(** [reflect.TypeOf(src)]: nil for the nil interface; never an interface
    type. *)
Definition TypeOf (v : any) : option rtype :=
  match v with
  | ANil => None
  | ABool _ => Some TBool
  | AInt _ => Some TInt
  | AFloat64 _ => Some TFloat64
  | AString _ => Some TString
  | ASlice _ => Some TSlice
  | AMap _ => Some TMap
  | AStruct name _ => Some (TStruct name)
  end.

(** The argument [result]: a value that is no pointer ([ANil] is the nil
    interface), a nil pointer to a [t], or a pointer to a variable of type
    [t] that holds [cur]. *)
Inductive dest : Type :=
  | DValue (v : any)
  | DNilPointer (t : rtype)
  | DPointer (t : rtype) (cur : any).

(** [mapstructure.DecoderConfig], the fields the adapter sets. *)
Record DecoderConfig : Type := mkConfig {
  TagName : string;
  Result_ : dest;
  WeaklyTypedInput : bool
}.

Section Libraries.

(** The libraries the adapter calls.  An error is its message; a decoder
    gives the value it leaves in the destination variable.
    [mapstructure.NewDecoder] gives [Some] error or a decoder for the
    configuration. *)
Variable NewDecoder : DecoderConfig -> option string.
Variable Decode : DecoderConfig -> gmap string any -> string + any.
Variable Marshal : any -> string + string.
Variable Unmarshal : string -> dest -> string + any.

(** [decodeInto(result, src)]: the error, or the value the destination
    variable holds afterwards. *)
Definition decodeInto (result : dest) (src : any) : string + any :=
  match result with
  | DValue ANil => inl "result pointer is nil"%string
  | DValue _ | DNilPointer _ => inl "result must be a non-nil pointer"%string
  | DPointer t cur =>
      if decide (TypeOf src = Some t) then inr src
      else
        match src with
        | AMap m =>
            let cfg := {| TagName := "json"; Result_ := result; WeaklyTypedInput := true |} in
            match NewDecoder cfg with
            | Some err => inl err
            | None => Decode cfg m
            end
        | _ =>
            match Marshal src with
            | inl err => inl ("encode fallback: " ++ err)%string
            | inr data => Unmarshal data result
            end
        end
  end.

End Libraries.

(** The destination is a pointer to a variable. *)
Definition usable (result : dest) : Prop :=
  match result with
  | DPointer _ _ => True
  | _ => False
  end.

(** The type of the variable the destination points to. *)
Definition elem_type (result : dest) : option rtype :=
  match result with
  | DPointer t _ => Some t
  | _ => None
  end.

Definition is_map (src : any) : Prop :=
  match src with
  | AMap _ => True
  | _ => False
  end.

Definition is_error {A : Type} (r : string + A) : Prop :=
  match r with
  | inl _ => True
  | inr _ => False
  end.

(** The configuration the adapter decodes a map with. *)
Definition json_config (result : dest) : DecoderConfig :=
  {| TagName := "json"; Result_ := result; WeaklyTypedInput := true |}.

End Adapter.

(** ** The auto-client *)

Module Auto.
Import Msg.

(** A [*Connection]. *)
Definition conn_ref := nat.

(** [AutoClient]: what a connection attempt and the call methods read, and
    the atomic slot [activeConn], [None] while nothing was stored. *)
Record AutoClient : Type := mkAutoClient {
  clientID : string;
  authCode : string;
  useCompression : bool;
  handlers : gmap string (option Conn.func_ref);
  activeConn : option conn_ref
}.

Definition NewAutoClient (clientID authCode : string) (useCompression : bool) : AutoClient :=
  {| clientID := clientID; authCode := authCode; useCompression := useCompression;
     handlers := ∅; activeConn := None |}.

Definition RegisterHandler (method : string) (fn : option Conn.func_ref)
    (ac : AutoClient) : AutoClient :=
  {| clientID := clientID ac; authCode := authCode ac;
     useCompression := useCompression ac;
     handlers := Conn.Register method fn (handlers ac); activeConn := activeConn ac |}.

(** [ac.activeConn.Store(c)]. *)
Definition Store (c : conn_ref) (ac : AutoClient) : AutoClient :=
  {| clientID := clientID ac; authCode := authCode ac;
     useCompression := useCompression ac; handlers := handlers ac;
     activeConn := Some c |}.

(** [ac.activeConn.Load()]. *)
Definition Load (ac : AutoClient) : option conn_ref := activeConn ac.

Definition IsConnected (ac : AutoClient) : bool :=
  match Load ac with
  | None => false
  | Some _ => true
  end.

(** The four call methods: the error "client is not connected", or the
    connection whose method of the same name is called with the same
    arguments. *)
Definition not_connected : string := "client is not connected".

Definition Call (ac : AutoClient) : string + conn_ref :=
  match Load ac with
  | None => inl not_connected
  | Some value => inr value
  end.

Definition CallWithResult (ac : AutoClient) : string + conn_ref :=
  match Load ac with
  | None => inl not_connected
  | Some value => inr value
  end.

Definition CallAsync (ac : AutoClient) : string + conn_ref :=
  match Load ac with
  | None => inl not_connected
  | Some value => inr value
  end.

Definition CallAsyncWithResult (ac : AutoClient) : string + conn_ref :=
  match Load ac with
  | None => inl not_connected
  | Some value => inr value
  end.

(** What one connection attempt meets: whether the dial succeeds, whether
    the negotiation frame can be sent, and the frame received in answer
    ([None]: the read fails). *)
Record connect_io : Type := mkConnect {
  dial_ok : bool;
  send_ok : bool;
  received : option NegotiationMessage
}.

(** The auto-client, the connections it made with their goroutines, and
    the connections handed to [onReady]. *)
Record State : Type := mkState {
  client : AutoClient;
  conns : gmap conn_ref Conn.State;
  ready : list conn_ref
}.

Definition init (ac : AutoClient) : State :=
  {| client := ac; conns := ∅; ready := [] |}.

(** [connectOnce], making the connection [c]: the state and the error. *)
Definition connectOnce (c : conn_ref) (io : connect_io) (st : State)
    : State * option string :=
  if negb (dial_ok io) then (st, Some "dial"%string)
  else if negb (send_ok io) then (st, Some "send negotiation"%string)
  else
    match received io with
    | None => (st, Some "receive negotiation"%string)
    | Some resp =>
        if decide (NType resp = AuthOKType) then
          let k0 := Conn.NewConnection in
          let k1 := if UseCompression resp then Conn.EnableCompression k0 else k0 in
          let k2 := Conn.set_handlers (handlers (client st)) k1 in
          ({| client := Store c (client st);
              conns := <[c := Conn.init k2]> (conns st);
              ready := ready st ++ [c] |}, None)
        else (st, Some "authentication failed"%string)
    end.

Inductive event : Type :=
  | EvConnect (c : conn_ref) (err : option string)
  | EvNotConnected (id : string)
  | EvConn (c : conn_ref) (e : Conn.event).

(** The steps: a connection attempt (of [Start] or of the reconnect loop);
    a step of a goroutine of a connection; one of the four call methods,
    for the call that [Conn.ACall] would start with these arguments. *)
Inductive action : Type :=
  | AConnect (c : conn_ref) (io : connect_io)
  | AConn (c : conn_ref) (a : Conn.action)
  | ACallVia (k : Conn.call_kind) (id : string) (r : Conn.chan_ref) (method : string)
      (params : gmap string any).

(** A step of connection [c]. *)
Definition conn_step (c : conn_ref) (a : Conn.action) (st : State)
    : option (State * list event) :=
  match conns st !! c with
  | Some cs =>
      match Conn.exec a cs with
      | Some (cs', evs) =>
          Some ({| client := client st; conns := <[c := cs']> (conns st);
                   ready := ready st |}, map (EvConn c) evs)
      | None => None
      end
  | None => None
  end.

Definition exec (a : action) (st : State) : option (State * list event) :=
  match a with
  | AConnect c io =>
      match conns st !! c with
      | Some _ => None
      | None =>
          let r := connectOnce c io st in
          Some (fst r, [EvConnect c (snd r)])
      end
  | AConn c a => conn_step c a st
  | ACallVia k id r m params =>
      match (match k with Conn.Blocking => Call | Conn.Async _ => CallAsync end) (client st) with
      | inl _ => Some (st, [EvNotConnected id])
      | inr c => conn_step c (Conn.ACall k id r m params) st
      end
  end.

Fixpoint run (acts : list action) (st : State) : option (State * list event) :=
  match acts with
  | [] => Some (st, [])
  | a :: rest =>
      match exec a st with
      | None => None
      | Some (st1, evs1) =>
          match run rest st1 with
          | None => None
          | Some (st2, evs2) => Some (st2, evs1 ++ evs2)
          end
      end
  end.

(** The slot holds a connection the client made. *)
Definition connected (st : State) : Prop :=
  exists c, activeConn (client st) = Some c /\ is_Some (conns st !! c).

(** The client of the test suite, the server's answer, and a schedule: the
    first attempt succeeds, the read loop of the connection ends on a decode
    error, and a second attempt fails at the dial. *)
Definition client42 : AutoClient := NewAutoClient "client42" "s3cr3t" true.

Definition auth_ok : NegotiationMessage :=
  {| NType := AuthOKType; ClientID := ""; AuthCode := ""; UseCompression := true |}.

Definition lost_acts : list action :=
  [AConnect 0%nat (mkConnect true true (Some auth_ok));
   AConn 0%nat (Conn.ARead (Conn.mkRead false None) Conn.io_ok);
   AConnect 1%nat (mkConnect false false None)].

(** The state that schedule ends in. *)
Definition lost_state : State :=
  fst (default (init client42, []) (run lost_acts (init client42))).

End Auto.

(** ** What a connection's schedule shows of its frames *)

Module ConnObs.
Import Msg Conn ConnInv.

(** The event is no [Send] that returned an error. *)
Definition send_succeeded (e : event) : bool :=
  match e with
  | EvSend _ (Some _) => false
  | _ => true
  end.

(** The frames of the [Send] calls that returned nil, in the order of the
    events. *)
Fixpoint sent (tr : list event) : list RPCMessage :=
  match tr with
  | [] => []
  | EvSend msg None :: rest => msg :: sent rest
  | _ :: rest => sent rest
  end.

(** The round of [readLoop] gets no frame: the gzip reader is to be set up
    and the header cannot be read, or [Decode] fails. *)
Definition read_fails (inp : read_input) (c : Connection) : Prop :=
  decoded inp = None
  \/ (useCompression c = true /\ gzReader c = false /\ gzip_header_ok inp = false).

(** The outcome is not drawn from a response: the send error, the timeout
    or the cancellation. *)
Definition local_outcome (o : outcome) : Prop :=
  match o with
  | OSendError _ | OTimeout | OCancelled => True
  | _ => False
  end.

(** Every frame in the inbox of call [id] is a response that carries [id]
    and was written there by the read loop, among the events [tr]. *)
Definition inboxes_own (st : State) (tr : list event) : Prop :=
  forall id c buf msg,
    calls st !! id = Some c -> chans st !! ch c = Some buf -> msg ∈ buf ->
    ID msg = id /\ Type_ msg = ResponseType /\ EvInboxWrite id msg ∈ tr.

(** The call "a" is sent, its echo is read, and [Call] returns. *)
Definition answered_acts : list action :=
  waiting_acts ++ [ARead (mkRead true (Some (echo_response "a"))) io_ok; ASelectRecv "a"].

Definition echo_request : RPCMessage :=
  request_msg "a" (mkCall Blocking 0%nat "Echo" ∅ PcRegistered false).

End ConnObs.

(** ** The server's call methods *)

Module SrvCalls.
Import Msg GoTime Srv.

(** The error of the four call methods for a client that [GetClientByID]
    does not return. *)
Definition not_connected (clientID : string) : string :=
  ("client " ++ clientID ++ " is not connected")%string.

(** [Server.Call], [CallWithResult], [CallAsync] and [CallAsyncWithResult]
    at the instant [now]: the error, or the connection whose method of the
    same name is called with the same arguments; and the server after the
    call. *)
Definition Call (now : instant) (clientID : string) (s : Server)
    : (string + conn_ref) * Server :=
  let r := GetClientByID now clientID s in
  match fst r with
  | None => (inl (not_connected clientID), snd r)
  | Some conn => (inr conn, snd r)
  end.

Definition CallWithResult (now : instant) (clientID : string) (s : Server)
    : (string + conn_ref) * Server :=
  let r := GetClientByID now clientID s in
  match fst r with
  | None => (inl (not_connected clientID), snd r)
  | Some conn => (inr conn, snd r)
  end.

Definition CallAsync (now : instant) (clientID : string) (s : Server)
    : (string + conn_ref) * Server :=
  let r := GetClientByID now clientID s in
  match fst r with
  | None => (inl (not_connected clientID), snd r)
  | Some conn => (inr conn, snd r)
  end.

Definition CallAsyncWithResult (now : instant) (clientID : string) (s : Server)
    : (string + conn_ref) * Server :=
  let r := GetClientByID now clientID s in
  match fst r with
  | None => (inl (not_connected clientID), snd r)
  | Some conn => (inr conn, snd r)
  end.

(** The step is the critical section of [ServeConn] that stores an entry of
    [clients]. *)
Definition registers (a : action) : bool :=
  match a with
  | ARegister _ => true
  | _ => false
  end.

(** [authFunc] accepts the id with some code. *)
Definition accepted (auth : string -> string -> bool) (clientID : string) : Prop :=
  exists authCode, auth clientID authCode = true.

(** What every state of the server satisfies besides [SrvSpec.registered]:
    a connection past the authentication carries the id it was
    authenticated as; a [Ping] handler waiting to run was dispatched for an
    accepted id; a recorded last ping belongs to an accepted id. *)
Definition vetted (auth : string -> string -> bool) (st : State) : Prop :=
  (forall c p cs, serving st !! c = Some p -> conns st !! c = Some cs ->
     match p with
     | SAuthenticated neg | SReady neg | SRunning neg | SCleaned neg =>
         Conn.clientID (Conn.conn cs) = ClientID neg
     | SClosed => True
     end)
  /\ (forall c ctx, (c, ctx) ∈ dispatched st -> accepted auth (Ctx.ClientID ctx))
  /\ (forall clientID, is_Some (lastPing (server st) !! clientID) -> accepted auth clientID).

(** A negotiation frame that [ServeConn] turns away: the read failed, the
    frame is no [AuthRequest], or [authFunc] refuses the credentials. *)
Definition turned_away (s : Server) (neg : option NegotiationMessage) : Prop :=
  match neg with
  | None => True
  | Some m =>
      NType m <> AuthRequestType \/ authFunc s (ClientID m) (AuthCode m) = false
  end.

(** A [Ping] request, and the steps in which a connection delivers it and
    the handler runs: taken after the client "client42", registered and
    silent for 41 seconds, was dropped by [GetClientByID]. *)
Definition ping_request : RPCMessage :=
  {| Type_ := RequestType; ID := "p1"; Method := "Ping"; Params := ∅;
     Result := ANil; Error := None; ErrorCode := 0 |}.

Definition late_ping_acts : list action :=
  [AConn 0%nat (Conn.ARead (Conn.mkRead true (Some ping_request)) Conn.io_ok);
   APing 0%nat Conn.io_ok].

End SrvCalls.

(** ** A call and its answer, over two connections *)

Module Exchange.
Import Msg Conn.

(** What a handler does with its context: [ctx.WriteResponse(result)] or
    [ctx.WriteError(code, message)]. *)
Inductive answer : Type :=
  | Respond (result : any)
  | Fail (code : Z) (message : string).

Definition answer_msg (ctx : Ctx.Context) (a : answer) : RPCMessage :=
  match a with
  | Respond result => Ctx.response_msg ctx result
  | Fail code message => Ctx.error_msg ctx code message
  end.

(** The callee's side of a request: a round of the read loop decodes
    [req]; the handler it dispatches, if any, runs and writes its answer
    with [Send]. *)
Definition serve (handler : func_ref -> Ctx.Context -> answer) (req : RPCMessage)
    (io : transport_io) (st : State) : option (State * list event) :=
  match exec (ARead (mkRead true (Some req)) io) st with
  | Some (st1, [EvDispatch fn ctx]) =>
      let msg := answer_msg ctx (handler fn ctx) in
      let r := Send io msg (conn st1) in
      Some (set_conn (fst r) st1, [EvDispatch fn ctx; EvSend msg (snd r)])
  | r => r
  end.

(** What the decoder of the other side yields for a frame written: the
    fields of a struct type (type, id, method, error, error code) are the
    ones written; the parameters and the result, values of [any], are what
    the codec makes of them. *)
Definition keeps_header (transfer : RPCMessage -> RPCMessage) : Prop :=
  forall m,
    Type_ (transfer m) = Type_ m /\ ID (transfer m) = ID m
    /\ Method (transfer m) = Method m /\ Error (transfer m) = Error m
    /\ ErrorCode (transfer m) = ErrorCode m.

(** The context the callee builds for the request [req]. *)
Definition context_of (callee : Connection) (req : RPCMessage) : Ctx.Context :=
  Ctx.mkContext (clientID callee) (ID req) (Params req).

(** The frame the callee writes in answer to [req]. *)
Definition reply (handler : func_ref -> Ctx.Context -> answer) (callee : Connection)
    (req : RPCMessage) : RPCMessage :=
  match Get (Method req) (handlers callee) with
  | Some fn => answer_msg (context_of callee req) (handler fn (context_of callee req))
  | None => Ctx.error_msg (context_of callee req) 404 "method not found"
  end.

(** What the caller of [Call] is to get. *)
Definition expected (transfer : RPCMessage -> RPCMessage)
    (handler : func_ref -> Ctx.Context -> answer) (callee : Connection)
    (req : RPCMessage) : outcome :=
  match Get (Method req) (handlers callee) with
  | Some fn =>
      match handler fn (context_of callee (transfer req)) with
      | Respond result =>
          OResult (Result (transfer (Ctx.response_msg (context_of callee (transfer req)) result)))
      | Fail code message => OResponseError code message
      end
  | None => OResponseError 404 "method not found"
  end.

(** The handlers of the test suite's [Echo] and [Divide], for a callee that
    registered them as the functions 1 and 2: [Echo] answers with its
    parameter [text], [Divide] fails with the code 44. *)
Definition test_handler (fn : func_ref) (ctx : Ctx.Context) : answer :=
  match fn with
  | 1%nat => Respond (AString (Ctx.GetParamString ctx "text" ""))
  | _ => Fail 44 "division by zero"
  end.

Definition test_callee : Connection :=
  set_handlers (Register "Divide" (Some 2%nat) (Register "Echo" (Some 1%nat) ∅))
    (EnableCompression NewConnection).

(** A caller that has stored the entry of the call "a" of [Echo]. *)
Definition test_caller : State :=
  fst (default (init NewConnection, [])
         (run [ACall Blocking "a" 0%nat "Echo" {[ "text"%string := AString "hi" ]}]
            (init (EnableCompression NewConnection)))).

End Exchange.

(** ** The auto-client's [Start] and reconnect loop *)

Module Reconnect.
Import Msg Auto.

(** The attempt gets through dial, negotiation and authentication. *)
Definition succeeds (io : connect_io) : bool :=
  dial_ok io && send_ok io
  && match received io with
     | Some resp => bool_decide (NType resp = AuthOKType)
     | None => false
     end.

(** [Start]: the first attempt makes the connection [c] and meets [io]; it
    is over within the five seconds or not ([in_time]).  The state when the
    attempt is over, what [Start] has returned ([None] is nil), and whether
    the goroutine of [loop] is started. *)
Definition Start (c : conn_ref) (io : connect_io) (in_time : bool) (st : State)
    : State * option string * bool :=
  let r := connectOnce c io st in
  (fst r,
   if in_time then snd r else Some "initial connection timeout"%string,
   match snd r with
   | None => true
   | Some _ => false
   end).

(** [loop] up to the closing of [stopChan], over the attempts it makes: an
    attempt makes the connection [c], a fresh one, and meets [io].  The
    state at the end and the delays slept; [None]: the shift of
    [backoffDuration] panicked, or [c] is not fresh. *)
Fixpoint loop (attempts : list (conn_ref * connect_io)) (attempt : Z) (st : State)
    : option (State * list Z) :=
  match attempts with
  | [] => Some (st, [])
  | (c, io) :: rest =>
      match conns st !! c with
      | Some _ => None
      | None =>
          let r := connectOnce c io st in
          match snd r with
          | Some _ =>
              match Backoff.backoffDuration attempt with
              | None => None
              | Some delay =>
                  match loop rest (Int64.wrap (attempt + 1)) (fst r) with
                  | None => None
                  | Some (st', ds) => Some (st', delay :: ds)
                  end
              end
          | None => loop rest 1 (fst r)
          end
      end
  end.

(** The delays the specification's formula gives for the outcomes of the
    attempts ([true] is success), the count of consecutive failures
    starting again after every success. *)
Fixpoint spec_delays (outcomes : list bool) (n : Z) : list Z :=
  match outcomes with
  | [] => []
  | true :: rest => spec_delays rest 1
  | false :: rest => Backoff.spec_delay n :: spec_delays rest (n + 1)
  end.

(** No attempt number above [bound] is reached. *)
Fixpoint within (bound : Z) (outcomes : list bool) (n : Z) : bool :=
  match outcomes with
  | [] => true
  | true :: rest => within bound rest 1
  | false :: rest => (n <=? bound) && within bound rest (n + 1)
  end.

(** The connections the loop makes: those of the attempts that succeed. *)
Definition made (attempts : list (conn_ref * connect_io)) : list conn_ref :=
  map fst (List.filter (fun a => succeeds (snd a)) attempts).

(** The outcomes of the attempts. *)
Definition outcomes (attempts : list (conn_ref * connect_io)) : list bool :=
  map (fun a => succeeds (snd a)) attempts.

(** What every state of the auto-client [ac] satisfies: the handlers of
    the client are those of [ac]; a connection the client made has no
    client id and holds these handlers. *)
Definition plain_conns (ac : AutoClient) (st : State) : Prop :=
  handlers (client st) = handlers ac
  /\ forall c cs, conns st !! c = Some cs ->
       Conn.clientID (Conn.conn cs) = ""%string
       /\ Conn.handlers (Conn.conn cs) = handlers ac.

(** The event is no dispatch, or the dispatch of a handler registered with
    [ac], with a context that has no client id. *)
Definition plain_dispatch (ac : AutoClient) (e : event) : Prop :=
  match e with
  | EvConn _ (Conn.EvDispatch fn ctx) =>
      Ctx.ClientID ctx = ""%string
      /\ exists method, handlers ac !! method = Some (Some fn)
  | _ => True
  end.

(** The client of the test suite with its [Echo] handler registered. *)
Definition echo_client : AutoClient := RegisterHandler "Echo" (Some 1%nat) client42.

Definition echo_call : RPCMessage :=
  {| Type_ := RequestType; ID := "r1"; Method := "Echo"; Params := ∅;
     Result := ANil; Error := None; ErrorCode := 0 |}.

(** Three attempts that succeed, one after the other. *)
Definition three_attempts : list (conn_ref * connect_io) :=
  [(0%nat, mkConnect true true (Some auth_ok));
   (1%nat, mkConnect true true (Some auth_ok));
   (2%nat, mkConnect true true (Some auth_ok))].

End Reconnect.

(** ** The handler registry's dispatch ([handler.go]) *)

Module Registry.
Import Msg Conn.

(** What a dispatch does: the handler [fn] is called with [ctx]; or a
    reply was handed to [Send], which left the connection [c] and returned
    [err]; or the nil function was called, which panics. *)
Inductive handled : Type :=
  | Invoked (fn : func_ref) (ctx : Ctx.Context)
  | Replied (c : Connection) (err : option string)
  | NilCall.

(** [strPtr("method not found")] in a reply for the request [msg]. *)
Definition not_found (msg : RPCMessage) : RPCMessage :=
  {| Type_ := ResponseType; ID := ID msg; Method := ""; Params := ∅;
     Result := ANil; Error := Some "method not found"%string; ErrorCode := 404 |}.

(** [hr.Handle(conn, msg)]: the map is read with the comma-ok form, and the
    function found is called whatever it is. *)
Definition Handle (io : transport_io) (msg : RPCMessage) (hr : gmap string HandlerFunc)
    (conn : Connection) : handled :=
  match hr !! Method msg with
  | None =>
      let r := Send io (not_found msg) conn in
      Replied (fst r) (snd r)
  | Some fn =>
      let ctx := Ctx.mkContext "" (ID msg) (Params msg) in
      match fn with
      | Some f => Invoked f ctx
      | None => NilCall
      end
  end.

(** [r.HandleWithContext(ctx, method)], for a context whose connection is
    [conn]. *)
Definition HandleWithContext (io : transport_io) (ctx : Ctx.Context) (method : string)
    (hr : gmap string HandlerFunc) (conn : Connection) : handled :=
  match Get method hr with
  | Some f => Invoked f ctx
  | None =>
      let r := Send io (Ctx.error_msg ctx 404 "method not found") conn in
      Replied (fst r) (snd r)
  end.

(** What the read loop does with what the dispatch did: the handler runs
    in a goroutine of its own. *)
Definition as_step (reply : RPCMessage) (h : handled) (st : State)
    : option (State * list event) :=
  match h with
  | Invoked fn ctx => Some (st, [EvDispatch fn ctx])
  | Replied c err => Some (set_conn c st, [EvSend reply err])
  | NilCall => None
  end.

End Registry.

(** ** The dialer ([transport.go]) *)

Module Transport.

(** A [*tls.Config]; of the configuration, the field [NextProtos] and the
    other fields taken together. *)
Definition config_ref := nat.

Record tls_config : Type := mkTLS {
  NextProtos : list string;
  settings : nat
}.

(** [&tls.Config{}]. *)
Definition zero_config : tls_config := mkTLS [] 0.

Record Dialer : Type := mkDialer {
  Timeout : Z;
  UseTLS : bool;
  TLSConfig : option config_ref;
  ALPN : string
}.

(** What one [Dial] meets: whether [net.DialTimeout] succeeds and whether
    the TLS handshake does. *)
Record dial_io : Type := mkDial {
  tcp_ok : bool;
  handshake_ok : bool
}.

(** The transport [Dial] returns: the TCP connection, or the TLS connection
    over it, which holds the pointer to its configuration. *)
Inductive transport : Type :=
  | Plain
  | OverTLS (config : config_ref).

(** The dialer, the configurations on the heap, what [Dial] returns (the
    transport or the error), and whether the TCP connection was closed. *)
Record dialed : Type := mkDialed {
  dialer : Dialer;
  heap : gmap config_ref tls_config;
  result : string + transport;
  closed : bool
}.

(** [d.Dial(addr)]; [fresh] is the address a new configuration gets.
    [None]: the pointer [TLSConfig] points to no configuration. *)
Definition Dial (fresh : config_ref) (io : dial_io) (d : Dialer)
    (h : gmap config_ref tls_config) : option dialed :=
  if negb (tcp_ok io) then Some (mkDialed d h (inl "dial"%string) false)
  else if UseTLS d then
    let d1 :=
      match TLSConfig d with
      | None => mkDialer (Timeout d) (UseTLS d) (Some fresh) (ALPN d)
      | Some _ => d
      end in
    let h1 :=
      match TLSConfig d with
      | None => <[fresh := zero_config]> h
      | Some _ => h
      end in
    let r := default fresh (TLSConfig d) in
    match h1 !! r with
    | None => None
    | Some cfg =>
        let h2 := <[r := mkTLS [ALPN d] (settings cfg)]> h1 in
        if handshake_ok io then Some (mkDialed d1 h2 (inr (OverTLS r)) false)
        else Some (mkDialed d1 h2 (inl "handshake"%string) true)
    end
  else Some (mkDialed d h (inr Plain) false).

(** The configuration a dial with TLS works on: the one the dialer points
    to, or a new empty one at [fresh] when the pointer is nil. *)
Definition target (fresh : config_ref) (d : Dialer) : config_ref :=
  default fresh (TLSConfig d).

Definition config_at (d : Dialer) (h : gmap config_ref tls_config) : option tls_config :=
  match TLSConfig d with
  | Some r => h !! r
  | None => Some zero_config
  end.

(** Two dialers that were given the same configuration, for two protocols. *)
Definition shared_heap : gmap config_ref tls_config := {[ 0%nat := mkTLS ["http/1.1"%string] 7 ]}.
Definition dialer_a : Dialer := mkDialer 5000000000 true (Some 0%nat) "rpc-a".
Definition dialer_b : Dialer := mkDialer 5000000000 true (Some 0%nat) "rpc-b".

End Transport.

(** ** The handshake between an auto-client and the server *)

Module Handshake.
Import Msg.

(** The negotiation frame [connectOnce] sends. *)
Definition auth_request (ac : Auto.AutoClient) : NegotiationMessage :=
  {| NType := AuthRequestType; ClientID := Auto.clientID ac;
     AuthCode := Auto.authCode ac; UseCompression := Auto.useCompression ac |}.

(** The frames [ServeConn] answers with: [AuthOK], which confirms the
    compression asked for, and [AuthFail]. *)
Definition auth_ok_reply (neg : NegotiationMessage) : NegotiationMessage :=
  {| NType := AuthOKType; ClientID := ""; AuthCode := "";
     UseCompression := UseCompression neg |}.

Definition auth_fail_reply : NegotiationMessage :=
  {| NType := AuthFailType; ClientID := ""; AuthCode := ""; UseCompression := false |}.

(** What [ServeConn] answers to the negotiation frame [neg]; [None]: it
    closes the connection without an answer. *)
Definition server_reply (s : Srv.Server) (neg : NegotiationMessage)
    : option NegotiationMessage :=
  if decide (NType neg = AuthRequestType) then
    if Srv.authFunc s (ClientID neg) (AuthCode neg) then Some (auth_ok_reply neg)
    else Some auth_fail_reply
  else None.

(** What the client's attempt meets when the dial and both writes succeed
    and the server is [s]. *)
Definition attempt_with (s : Srv.Server) (ac : Auto.AutoClient) : Auto.connect_io :=
  Auto.mkConnect true true (server_reply s (auth_request ac)).

(** A server that accepts the client of the test suite, and one that
    accepts nobody. *)
Definition accepting : Srv.State := Srv.init SrvSpec.accept_all.
Definition refusing : Srv.State := Srv.init (fun _ _ => false).

End Handshake.

(** ** The pending table and the inboxes, from a waiting call's side *)

Module PendingObs.
Import Msg Conn.

(** The goroutine of the call has stored its entry and has not yet taken a
    case of its [select] or deleted the entry after a failed [Send]. *)
Definition before_select (p : call_pc) : Prop :=
  match p with
  | PcRegistered | PcSendFailed _ | PcWaiting => True
  | _ => False
  end.

(** The call [id] is over, or has failed and only owes its callback. *)
Definition finished (p : call_pc) : Prop :=
  match p with
  | PcFailedCallback _ | PcFailed | PcDone => True
  | _ => False
  end.

(** What every state satisfies for a call that has not reached its
    [select]'s end: its entry is in the table and its inbox is empty, or
    the entry is gone and the inbox holds one frame. *)
Definition posted (st : State) : Prop :=
  forall id c, calls st !! id = Some c -> before_select (pc c) ->
    (pending (conn st) !! id = Some (ch c) /\ chans st !! ch c = Some [])
    \/ (pending (conn st) !! id = None /\ exists msg, chans st !! ch c = Some [msg]).

End PendingObs.

(** * Properties *)

Module Int64Facts.

Lemma wrap_in_range z : Int64.in_range (Int64.wrap z).
Proof.
  unfold Int64.in_range, Int64.wrap, Int64.min_int, Int64.max_int.
  pose proof (Z.mod_pos_bound (z + 2 ^ 63) (2 ^ 64) ltac:(lia)). lia.
Qed.

Lemma wrap_small z : Int64.in_range z -> Int64.wrap z = z.
Proof.
  unfold Int64.in_range, Int64.wrap, Int64.min_int, Int64.max_int. intros Hz.
  rewrite Z.mod_small; lia.
Qed.

End Int64Facts.

(** ** Properties of the backoff *)

Module BackoffFacts.
Import GoTime Backoff.

Example backoff_first_delays :
  map backoffDuration [1; 2; 3; 7; 8; 33] =
  map Some [2 * Second; 4 * Second; 8 * Second; 128 * Second; 3 * Minute; 3 * Minute].
Proof. reflexivity. Qed.

Lemma shl_base_exact k :
  0 <= k <= 32 -> Int64.shl (Int64.wrap (Second * 2)) k = 2 ^ k * (2 * Second).
Proof.
  intros Hk. unfold Int64.shl.
  rewrite (Int64Facts.wrap_small (Second * 2)) by (unfold Int64.in_range; vm_compute; split; discriminate).
  rewrite Z.shiftl_mul_pow2 by lia.
  rewrite Int64Facts.wrap_small.
  - unfold Second. lia.
  - unfold Int64.in_range, Int64.min_int, Int64.max_int, Second.
    assert (0 < 2 ^ k) by (apply Z.pow_pos_nonneg; lia).
    assert (2 ^ k <= 2 ^ 32) by (apply Z.pow_le_mono_r; lia).
    change (2 ^ 32) with 4294967296 in *. lia.
Qed.

(** Up to attempt 33 the delay is the promised one. *)
Lemma backoffDuration_small n :
  1 <= n <= 33 -> backoffDuration n = Some (spec_delay n).
Proof.
  intros Hn. unfold backoffDuration, spec_delay.
  rewrite (Int64Facts.wrap_small (n - 1))
    by (unfold Int64.in_range, Int64.min_int, Int64.max_int; lia).
  destruct (Z.ltb_spec (n - 1) 0) as [?|_]; [lia|].
  rewrite shl_base_exact by lia.
  destruct (Z.ltb_spec (3 * Minute) (2 ^ (n - 1) * (2 * Second))) as [Hlt|Hge].
  - f_equal. lia.
  - f_equal. lia.
Qed.

(** C4: at attempt 34 the 64-bit shift [base << 33] overflows to a negative
    duration, which is not above the three-minute cap and is returned as it
    is, where the promised delay is three minutes; and the delays slept over
    34 consecutive failures end with that negative value after 26 sleeps of
    three minutes, so they are not non-decreasing. *)
Theorem backoffDuration_overflows_at_34 :
  backoffDuration 34 = Some (-1266874889709551616)
  /\ spec_delay 34 = 3 * Minute
  /\ backoffDuration 33 = Some (3 * Minute)
  /\ (exists ds, loop (repeat false 34) 1 = Some ds
        /\ nth_error ds 32 = Some (3 * Minute)
        /\ nth_error ds 33 = Some (-1266874889709551616)).
Proof.
  repeat split; try reflexivity.
  eexists. split; [vm_compute; reflexivity|]. split; reflexivity.
Qed.

Lemma backoffDuration_small_witness :
  1 <= 5 <= 33 /\ backoffDuration 5 = Some (spec_delay 5).
Proof. split; [lia|apply (backoffDuration_small 5); lia]. Defined.

End BackoffFacts.

(** ** Properties of the parameter accessors *)

Module CtxFacts.
Import Msg CtxSpec.

Example Atoi_examples :
  map GoLib.Atoi
    ["42"; "-7"; "+3"; ""; "-"; "4x"; " 1"; "9223372036854775807"; "9223372036854775808"]%string
  = [Some 42; Some (-7); Some 3; None; None; None; None; Some 9223372036854775807; None].
Proof. reflexivity. Qed.

Example trunc_examples :
  map GoLib.trunc [3.5; -3.5; 0; 0.25; -0.75; 10; 1e19]%float
  = [Some 3; Some (-3); Some 0; Some 0; Some 0; Some 10; Some 10000000000000000000].
Proof. vm_compute. reflexivity. Qed.

Example trunc_not_finite : GoLib.trunc infinity = None /\ GoLib.trunc nan = None.
Proof. split; reflexivity. Qed.

Lemma int_of_float64_trunc u f z :
  GoLib.trunc f = Some z -> Int64.in_range z -> GoLib.int_of_float64 u f = z.
Proof.
  intros Ht [Hlo Hhi]. unfold GoLib.int_of_float64. rewrite Ht.
  destruct (Z.leb_spec Int64.min_int z); [|lia].
  destruct (Z.leb_spec z Int64.max_int); [|lia].
  reflexivity.
Qed.

(** C5, as stated, fails on both accessors: the connection's accessor gives
    the default for the string "42", and the accessor of [context.go]
    returns a native [int] parameter itself, not the default. *)
Lemma GetParamInt_coercion_rules_fail :
  ~ coercion_rules Ctx.params (Ctx.GetParamInt amd64_unrepresentable)
  /\ ~ coercion_rules CtxLegacy.params (CtxLegacy.GetParamInt amd64_unrepresentable).
Proof.
  split.
  - intros H.
    destruct (H (Ctx.mkContext "" "1" {[ "n"%string := AString "42" ]}) "n"%string 7)
      as (Hs & _).
    specialize (Hs "42"%string 42 eq_refl eq_refl). discriminate Hs.
  - intros H.
    destruct (H (CtxLegacy.mkContext {[ "n"%string := AInt 5 ]} "1") "n"%string 7)
      as (_ & _ & _ & Ho).
    specialize (Ho (AInt 5) eq_refl ltac:(discriminate) ltac:(discriminate)).
    discriminate Ho.
Qed.

(** C5, amended: what each accessor returns for each kind of parameter.
    [new] is the accessor of the context the connection builds, [old] the
    one of [context.go]. *)
Theorem GetParamInt_by_kind (u : float -> Z) (cid rid : string)
    (params : gmap string any) (name : string) (def : Z) :
  let new := Ctx.GetParamInt u (Ctx.mkContext cid rid params) name def in
  let old := CtxLegacy.GetParamInt u (CtxLegacy.mkContext params rid) name def in
  match params !! name with
  | None => new = def /\ old = def
  | Some (AFloat64 f) =>
      forall z, GoLib.trunc f = Some z -> Int64.in_range z -> new = z /\ old = z
  | Some (AString s) =>
      new = def /\ old = match GoLib.Atoi s with Some i => i | None => def end
  | Some (AInt i) => new = def /\ old = i
  | Some _ => new = def /\ old = def
  end.
Proof.
  intros new old. subst new old.
  unfold Ctx.GetParamInt, CtxLegacy.GetParamInt. cbn [Ctx.params CtxLegacy.params].
  destruct (params !! name) as [v|] eqn:Hv; [|split; reflexivity].
  destruct v; try (split; reflexivity).
  intros z Ht Hz. rewrite (int_of_float64_trunc u f z Ht Hz). split; reflexivity.
Qed.

Example GetParamInt_divide_by_two :
  let params : gmap string any := {[ "num"%string := AFloat64 10; "denom"%string := AFloat64 2.5 ]} in
  let ctx := Ctx.mkContext "client42" "1" params in
  Ctx.GetParamInt amd64_unrepresentable ctx "num" 0 = 10
  /\ Ctx.GetParamInt amd64_unrepresentable ctx "denom" 1 = 2
  /\ Ctx.GetParamInt amd64_unrepresentable ctx "other" 1 = 1.
Proof. cbv zeta. repeat apply conj; vm_compute; reflexivity. Qed.

End CtxFacts.

(** ** Properties of the connection *)

Module ConnFacts.
Import Msg Conn ConnSpec ConnInv.

(** *** [Send] touches the output only *)

Lemma Send_pending io msg c : pending (fst (Send io msg c)) = pending c.
Proof.
  unfold Send, Encode, Flush.
  repeat case_match; reflexivity.
Qed.

Lemma Send_handlers io msg c : handlers (fst (Send io msg c)) = handlers c.
Proof.
  unfold Send, Encode, Flush.
  repeat case_match; reflexivity.
Qed.

Lemma Send_Dec io msg c : Dec (fst (Send io msg c)) = Dec c.
Proof.
  unfold Send, Encode, Flush.
  repeat case_match; reflexivity.
Qed.

(** *** Schedules *)

Lemma run_app acts1 acts2 st :
  run (acts1 ++ acts2) st =
  match run acts1 st with
  | None => None
  | Some (st1, evs1) =>
      match run acts2 st1 with
      | None => None
      | Some (st2, evs2) => Some (st2, evs1 ++ evs2)
      end
  end.
Proof.
  revert st. induction acts1 as [|a acts1 IH]; intros st; simpl.
  - destruct (run acts2 st) as [[st2 evs2]|]; reflexivity.
  - destruct (exec a st) as [[st1 evs1]|]; [|reflexivity].
    rewrite IH. destruct (run acts1 st1) as [[st2 evs2]|]; [|reflexivity].
    destruct (run acts2 st2) as [[st3 evs3]|]; [|reflexivity].
    by rewrite app_assoc.
Qed.

(** A property of states that every step keeps, and under which the steps
    give only events of [E], holds along a schedule. *)
Lemma run_stable (P : State -> Prop) (E : event -> Prop) :
  (forall a st st' evs, P st -> exec a st = Some (st', evs) ->
                        P st' /\ forall e, e ∈ evs -> E e) ->
  forall acts st st' tr,
    P st -> run acts st = Some (st', tr) -> P st' /\ forall e, e ∈ tr -> E e.
Proof.
  intros Hstep acts. induction acts as [|a acts IH]; intros st st' tr HP Hrun; simpl in Hrun.
  - simplify_eq. split; [done|]. intros e He. by apply elem_of_nil in He.
  - destruct (exec a st) as [[st1 evs1]|] eqn:Ha; [|done].
    destruct (run acts st1) as [[st2 evs2]|] eqn:Hr; [|done]. simplify_eq.
    destruct (Hstep _ _ _ _ HP Ha) as [HP1 HE1].
    destruct (IH _ _ _ HP1 Hr) as [HP2 HE2].
    split; [done|]. intros e He. apply elem_of_app in He as [He|He]; eauto.
Qed.

(** Case analysis on a step that can be taken. *)
Ltac exec_inv H :=
  unfold exec, readLoop_round, handleMessage, read_exit, callback_event in H;
  repeat (case_match; simplify_eq/=; try done).

(** Lookups in a map after inserts and deletes, by cases on the keys. *)
Ltac map_cases :=
  rewrite ?lookup_insert, ?lookup_delete;
  repeat case_decide; simplify_eq; try done.

(** *** An id that has been issued and is not in the table *)

Lemma exec_writes_pending a st st' evs id :
  exec a st = Some (st', evs) ->
  forall e, e ∈ evs -> writes id e -> is_Some (pending (conn st) !! id).
Proof.
  intros H e He Hw. destruct a; exec_inv H;
    repeat (apply elem_of_cons in He as [->|He]; simpl in Hw; try done);
    try (by apply elem_of_nil in He).
  all: subst; eauto.
Qed.

Lemma exec_retired a st st' evs id :
  retired id st -> exec a st = Some (st', evs) ->
  retired id st' /\ forall e, e ∈ evs -> ~ writes id e.
Proof.
  intros [Hc Hp] H. split.
  - destruct Hc as [c0 Hc].
    destruct a; exec_inv H; unfold retired, delete_pending; simpl;
      rewrite ?Send_pending; simpl; map_cases; eauto.
  - intros e He Hw.
    destruct (exec_writes_pending _ _ _ _ id H e He Hw) as [r Hr]. congruence.
Qed.

Lemma run_retired acts st st' tr id :
  retired id st -> run acts st = Some (st', tr) ->
  retired id st' /\ forall e, e ∈ tr -> ~ writes id e.
Proof.
  intros Hret Hrun.
  apply (run_stable (retired id) (fun e => ~ writes id e)) with acts st; [|done..].
  intros a s s' evs Hs Ha. by apply exec_retired with a s.
Qed.

(** *** The read loop's exit *)

Lemma waiting_run :
  run waiting_acts (init NewConnection)
  = Some (fst (the (run waiting_acts (init NewConnection))),
          snd (the (run waiting_acts (init NewConnection)))).
Proof. vm_compute. reflexivity. Qed.

(** C1 fails as stated: with the call "a" waiting, a decode error ends the
    read loop and the entry of "a" stays in the table with an empty inbox. *)
Lemma pending_not_released_on_exit : ~ released_on_exit NewConnection.
Proof.
  intros H.
  destruct (H waiting_acts _ _ (mkRead true None) io_ok
              (fst (read_exit (fst (the (run waiting_acts (init NewConnection))))))
              (snd (read_exit (fst (the (run waiting_acts (init NewConnection))))))
              waiting_run eq_refl eq_refl "a"%string 0%nat eq_refl)
    as [Hgone|(msg & Hmsg & _)].
  - vm_compute in Hgone. discriminate Hgone.
  - vm_compute in Hmsg. discriminate Hmsg.
Qed.

Lemma exec_orphaned id a st st' evs :
  orphaned id st -> exec a st = Some (st', evs) ->
  orphaned id st' /\ forall e, e ∈ evs -> timeout_or_cancel id e.
Proof.
  intros (Hr & c & Hc & Hpc) H.
  destruct a; exec_inv H; (split; [split; [done|]; simpl|]).
  all: try (intros e He;
            repeat (apply elem_of_cons in He as [->|He]);
            try (by apply elem_of_nil in He);
            split; intros o Ho; simplify_eq; intuition congruence).
  all: try (destruct (decide (id0 = id)) as [->|Hne];
            [rewrite lookup_insert_eq|rewrite lookup_insert_ne by done]).
  all: try (eexists; split; [done|]; simpl; simplify_eq; intuition congruence).
  all: try (exists c; split; [done|]; simpl; simplify_eq;
            destruct Hpc as [[Hw Hb]|Hpc]; [left; split; [done|]|tauto]).
  all: try (rewrite lookup_insert_ne; [done|congruence]).
Qed.

Lemma exec_exited_no_write a st st' evs :
  reader st = Exited -> exec a st = Some (st', evs) ->
  reader st' = Exited /\ forall e, e ∈ evs -> forall id, ~ writes id e.
Proof.
  intros Hr H.
  destruct a; exec_inv H; (split; [done|]).
  all: intros e He i Hw;
       repeat (apply elem_of_cons in He as [->|He]); try (by apply elem_of_nil in He);
       done.
Qed.

(** A round in which the frame cannot be decoded ends the loop. *)
Lemma decode_error_ends_loop inp io st :
  reader st = Running -> decoded inp = None ->
  exists st', exec (ARead inp io) st = Some (st', [EvLog "[conn] readLoop terminated"])
              /\ reader st' = Exited.
Proof.
  intros Hr Hd. simpl. unfold readLoop_round. rewrite Hr, Hd.
  repeat case_match; eexists; split; reflexivity.
Qed.

(** C1, amended: the round of [readLoop] that ends the loop leaves the
    pending table, the inboxes and the calls as they are; from then on the
    loop stays ended and nothing is written to any inbox, and a call that
    was waiting with an empty inbox completes, if it does, by its timeout or
    its cancellation. *)
Theorem readLoop_exit_leaves_pending st inp io st' evs :
  exec (ARead inp io) st = Some (st', evs) ->
  reader st' = Exited ->
  pending (conn st') = pending (conn st)
  /\ chans st' = chans st
  /\ calls st' = calls st
  /\ forall acts st'' tr,
       run acts st' = Some (st'', tr) ->
       reader st'' = Exited
       /\ (forall e, e ∈ tr -> forall id, ~ writes id e)
       /\ forall id c,
            calls st' !! id = Some c -> pc c = PcWaiting ->
            chans st' !! ch c = Some [] ->
            forall o,
              (EvReturn id o ∈ tr -> o = OTimeout)
              /\ (EvCallback id o ∈ tr -> o = OTimeout \/ o = OCancelled).
Proof.
  intros H Hex.
  assert (pending (conn st') = pending (conn st) /\ chans st' = chans st
          /\ calls st' = calls st) as (Hp & Hch & Hca).
  { exec_inv H; simpl in Hex; try done.
    all: rewrite ?Send_pending in *; simpl in *; try done; congruence. }
  do 3 (split; [done|]).
  intros acts st'' tr Hrun.
  destruct (run_stable (fun s => reader s = Exited) (fun e => forall id, ~ writes id e)
              (fun a s s' es Hs Ha => exec_exited_no_write a s s' es Hs Ha)
              acts st' st'' tr Hex Hrun) as [Hexited Hquiet].
  do 2 (split; [done|]).
  intros id c Hc Hpc Hbuf o.
  assert (orphaned id st') as Horph.
  { split; [done|]. exists c. split; [done|]. left. done. }
  destruct (run_stable (orphaned id) (timeout_or_cancel id)
              (fun a s s' es Hs Ha => exec_orphaned id a s s' es Hs Ha)
              acts st' st'' tr Horph Hrun) as [_ Hev].
  split; intros Ho; destruct (Hev _ Ho) as [Hret Hcb]; eauto.
Qed.

(** The loop ends with the call "a" waiting; the timer of "a" then fires. *)
Lemma readLoop_exit_leaves_pending_witness :
  let st := fst (the (run waiting_acts (init NewConnection))) in
  let st' := fst (read_exit st) in
  pending (conn st') = pending (conn st)
  /\ chans st' = chans st
  /\ calls st' = calls st
  /\ forall acts st'' tr,
       run acts st' = Some (st'', tr) ->
       reader st'' = Exited
       /\ (forall e, e ∈ tr -> forall id, ~ writes id e)
       /\ forall id c,
            calls st' !! id = Some c -> pc c = PcWaiting ->
            chans st' !! ch c = Some [] ->
            forall o,
              (EvReturn id o ∈ tr -> o = OTimeout)
              /\ (EvCallback id o ∈ tr -> o = OTimeout \/ o = OCancelled).
Proof.
  exact (readLoop_exit_leaves_pending
           (fst (the (run waiting_acts (init NewConnection))))
           (mkRead true None) io_ok _ _ eq_refl eq_refl).
Defined.

Example orphaned_call_times_out :
  option_map snd
    (run (waiting_acts ++ [ARead (mkRead true None) io_ok; ASelectTimeout "a"; ADelete "a"])
       (init NewConnection))
  = Some [EvSend (request_msg "a" (mkCall Blocking 0%nat "Echo" ∅ PcRegistered false)) None;
          EvLog "[conn] readLoop terminated"; EvReturn "a" OTimeout].
Proof. vm_compute. reflexivity. Qed.

Lemma wf_init c0 : pending c0 = ∅ -> wf (init c0).
Proof.
  intros H0. split; simpl.
  - intros id r. rewrite H0, lookup_empty. done.
  - intros id c. rewrite lookup_empty. done.
  - intros id id' c c'. rewrite lookup_empty. done.
Qed.

Lemma exec_wf_chan a st st' evs :
  wf st -> exec a st = Some (st', evs) ->
  forall id c, calls st' !! id = Some c -> is_Some (chans st' !! ch c).
Proof.
  intros [Hp Hc Hi] H.
  destruct a; exec_inv H; intros i c' Hc'; simpl in *.
  all: revert Hc'; map_cases; intros; simplify_eq; simpl; eauto.
Qed.

Lemma exec_wf_inj a st st' evs :
  wf st -> exec a st = Some (st', evs) ->
  forall id id' c c', calls st' !! id = Some c -> calls st' !! id' = Some c' ->
     ch c = ch c' -> id = id'.
Proof.
  intros [Hp Hc Hi] H.
  destruct a; exec_inv H; intros i i' c1 c2 Hl1 Hl2 Heq; simpl in *.
  all: revert Hl1 Hl2; map_cases; intros; simplify_eq; simpl in *; eauto.
  all: match goal with
       | Hx : calls _ !! _ = Some ?c |- _ =>
           destruct (Hc _ _ Hx) as [? ?]; simpl in *; congruence
       end.
Qed.

Lemma exec_wf_pending a st st' evs :
  wf st -> exec a st = Some (st', evs) ->
  forall id r, pending (conn st') !! id = Some r ->
     exists c, calls st' !! id = Some c /\ ch c = r /\ chans st' !! r = Some [] /\ live_pc (pc c).
Proof.
  intros [Hp Hc Hi] H.
  destruct a; exec_inv H; intros i r' Hl; simpl in *; rewrite ?Send_pending in Hl;
    simpl in *.
  all: revert Hl; map_cases; intros; simplify_eq; simpl in *; eauto.
  all: try (destruct (Hp _ _ Hl) as (c' & Hc' & Hch & Hbuf & Hlive); simplify_eq).
  all: try (eexists; split; [done|]; simpl; done).
  all: try (match goal with
            | Hpc : pc ?c = _, Hl : live_pc (pc ?c) |- _ => rewrite Hpc in Hl; done
            end).
  all: exfalso;
       match goal with
       | Hq : pending (conn _) !! ID ?m = Some _, Hn : ID ?m ≠ _ |- _ =>
           destruct (Hp _ _ Hq) as (c0 & Hc0 & Hch0 & _); apply Hn; eapply Hi; eauto
       end.
Qed.

Lemma exec_wf a st st' evs : wf st -> exec a st = Some (st', evs) -> wf st'.
Proof.
  intros Hwf H. split.
  - by apply exec_wf_pending with a st evs.
  - by apply exec_wf_chan with a st evs.
  - by apply exec_wf_inj with a st evs.
Qed.

Lemma run_wf acts st st' tr : wf st -> run acts st = Some (st', tr) -> wf st'.
Proof.
  intros Hwf Hrun.
  apply (run_stable wf (fun _ => True)) with acts st tr; [|done..].
  intros a s s' es Hs Ha. split; [by apply exec_wf with a s es|done].
Qed.

(** In a state a schedule reaches, the send of [handleMessage] on an
    entry's channel finds the slot free: the read loop is never held up. *)
Lemma handleMessage_never_blocks c0 acts st tr io msg :
  pending c0 = ∅ -> run acts (init c0) = Some (st, tr) ->
  is_Some (handleMessage io msg st).
Proof.
  intros H0 Hrun.
  pose proof (run_wf _ _ _ _ (wf_init c0 H0) Hrun) as [Hp _ _].
  unfold handleMessage. repeat case_match; eauto.
  all: match goal with
       | Hq : pending _ !! _ = Some _ |- _ =>
           destruct (Hp _ _ Hq) as (? & ? & ? & ? & ?); congruence
       end.
Qed.

(** *** Splitting a schedule at an event *)

Lemma exec_events a st st' evs :
  exec a st = Some (st', evs) -> evs = [] \/ exists e, evs = [e].
Proof.
  intros H. destruct a; exec_inv H; eauto.
Qed.

Lemma run_split_event acts st0 st tr tr1 e tr2 :
  run acts st0 = Some (st, tr) ->
  tr = tr1 ++ e :: tr2 ->
  exists acts1 a acts2 st1 st2,
    acts = acts1 ++ a :: acts2
    /\ run acts1 st0 = Some (st1, tr1)
    /\ exec a st1 = Some (st2, [e])
    /\ run acts2 st2 = Some (st, tr2).
Proof.
  revert st0 tr tr1. induction acts as [|a acts IH]; intros st0 tr tr1 Hrun Htr; simpl in Hrun.
  - injection Hrun as <- <-. by destruct tr1.
  - destruct (exec a st0) as [[s1 evs1]|] eqn:Ha; [|done].
    destruct (run acts s1) as [[s2 evs2]|] eqn:Hr; [|done].
    injection Hrun as -> <-.
    destruct (exec_events _ _ _ _ Ha) as [->|[x ->]]; simpl in Htr.
    + destruct (IH _ _ _ Hr Htr) as (acts1 & b & acts2 & st1 & st2 & -> & H1 & Hb & H2).
      exists (a :: acts1), b, acts2, st1, st2. split; [done|]. split; [|done].
      simpl. by rewrite Ha, H1.
    + destruct tr1 as [|y tr1]; simpl in Htr; injection Htr as <- Htr.
      * subst evs2. exists [], a, acts, st0, s1. done.
      * destruct (IH _ _ _ Hr Htr) as (acts1 & b & acts2 & st1 & st2 & -> & H1 & Hb & H2).
        exists (a :: acts1), b, acts2, st1, st2. split; [done|]. split; [|done].
        simpl. by rewrite Ha, H1.
Qed.

(** *** Completions *)

Lemma exec_completes a st st' e id :
  exec a st = Some (st', [e]) -> completes id e ->
  completed id st'
  /\ (final id e \/ e = EvCallback id OTimeout \/ e = EvCallback id OCancelled).
Proof.
  intros H He. unfold completed.
  destruct a; exec_inv H; try (simpl in He; try done; subst).
  all: rewrite ?lookup_insert_eq.
  all: split; [eexists; split; [done|]; simpl; tauto|].
  all: simpl; unfold callback_outcome, call_outcome in *; repeat case_match; auto.
  all: discriminate.
Qed.

Lemma exec_completed a st st' evs id :
  completed id st -> exec a st = Some (st', evs) ->
  completed id st' /\ forall e, e ∈ evs -> ~ completes id e.
Proof.
  intros (c & Hc & Hpc) H. unfold completed.
  destruct a; exec_inv H.
  all: split;
    [ simpl; map_cases; try (eexists; split; [done|]; simpl; tauto);
      try (intuition congruence)
    | intros ev Hev Hcomp;
      repeat (apply elem_of_cons in Hev as [->|Hev]); try (by apply elem_of_nil in Hev);
      simpl in Hcomp; try done; subst; intuition congruence ].
Qed.

(** A final completion is handed over with the entry out of the table. *)
Lemma exec_final a st st' e id :
  wf st -> exec a st = Some (st', [e]) -> final id e -> retired id st'.
Proof.
  intros [Hp Hc Hi] H He. unfold retired.
  destruct a; exec_inv H; try (simpl in He; try done; subst); simpl.
  all: rewrite ?lookup_insert_eq, ?lookup_delete_eq; try (split; [eauto|done]).
  all: split; [eauto|].
  all: destruct (pending (conn st) !! id) as [rq|] eqn:Hq; [exfalso|done].
  all: destruct (Hp _ _ Hq) as (c' & Hc' & Hch & Hbuf & Hlive); simplify_eq.
  all: try congruence.
  all: try (match goal with
            | Hpc : pc ?c = _, Hl : live_pc (pc ?c) |- _ => rewrite Hpc in Hl; done
            end).
Qed.

(** *** At most one completion per id *)

Lemma late_run :
  run late_acts (init NewConnection)
  = Some (fst (the (run late_acts (init NewConnection))),
          [EvSend (request_msg "a" (mkCall (Async true) 0%nat "Echo" ∅ PcRegistered false)) None]
          ++ EvCallback "a" OTimeout :: [EvInboxWrite "a" (echo_response "a")]).
Proof. vm_compute. reflexivity. Qed.

(** C2 fails as stated: after the callback of "a" was invoked with the
    timeout, the response for "a" is written to its inbox. *)
Lemma inbox_write_after_timeout_callback : ~ quiet_after_completion NewConnection.
Proof.
  intros H.
  destruct (H late_acts _ _ "a"%string _ _ _ late_run eq_refl eq_refl
              (EvInboxWrite "a" (echo_response "a"))) as [_ Hw].
  - apply elem_of_cons. left. reflexivity.
  - apply Hw. reflexivity.
Qed.

(** C2, amended.  For a connection that starts with an empty pending table:
    a response whose id is in the table is put in that entry's inbox and
    the entry is deleted in the same step; a response whose id is not in the
    table changes nothing and gives no event; after a completion of call
    [id] there is no second completion of it, and an inbox write for [id]
    can follow only a callback invoked for the timeout or the cancellation;
    once the waiter of the call is over, nothing is written for [id]. *)
Theorem at_most_one_completion c0 :
  pending c0 = ∅ ->
  (forall acts st tr io msg r,
      run acts (init c0) = Some (st, tr) ->
      Type_ msg = ResponseType ->
      pending (conn st) !! ID msg = Some r ->
      handleMessage io msg st
      = Some (delete_pending (ID msg) (set_chan r [msg] st), [EvInboxWrite (ID msg) msg]))
  /\ (forall io msg st,
        Type_ msg = ResponseType ->
        pending (conn st) !! ID msg = None ->
        handleMessage io msg st = Some (st, []))
  /\ (forall acts st tr id tr1 e tr2,
        run acts (init c0) = Some (st, tr) ->
        tr = tr1 ++ e :: tr2 ->
        completes id e ->
        forall e', e' ∈ tr2 ->
          ~ completes id e'
          /\ (writes id e' -> e = EvCallback id OTimeout \/ e = EvCallback id OCancelled))
  /\ (forall acts st tr id c acts' st' tr',
        run acts (init c0) = Some (st, tr) ->
        calls st !! id = Some c ->
        pc c = PcDone ->
        run acts' st = Some (st', tr') ->
        forall e', e' ∈ tr' -> ~ writes id e').
Proof.
  intros H0. repeat split.
  - intros acts st tr io msg r Hrun Hty Hq.
    pose proof (run_wf _ _ _ _ (wf_init c0 H0) Hrun) as [Hp _ _].
    destruct (Hp _ _ Hq) as (c & Hc & Hch & Hbuf & Hlive).
    unfold handleMessage. rewrite decide_True by done. by rewrite Hq, Hbuf.
  - intros io msg st Hty Hq.
    unfold handleMessage. rewrite decide_True by done. by rewrite Hq.
  - destruct (run_split_event _ _ _ _ _ _ _ H H1)
      as (acts1 & a & acts2 & st1 & st2 & -> & Hr1 & Ha & Hr2).
    destruct (exec_completes _ _ _ _ _ Ha H2) as [Hdone _].
    destruct (run_stable (completed id) (fun ev => ~ completes id ev)
                (fun b s s' es Hs Hb => exec_completed b s s' es id Hs Hb)
                _ _ _ _ Hdone Hr2) as [_ Hno].
    by apply Hno.
  - intros Hw.
    destruct (run_split_event _ _ _ _ _ _ _ H H1)
      as (acts1 & a & acts2 & st1 & st2 & -> & Hr1 & Ha & Hr2).
    destruct (exec_completes _ _ _ _ _ Ha H2) as [_ [Hfin|Hsoft]]; [exfalso|done].
    pose proof (run_wf _ _ _ _ (wf_init c0 H0) Hr1) as Hwf1.
    pose proof (exec_final _ _ _ _ _ Hwf1 Ha Hfin) as Hret.
    destruct (run_retired _ _ _ _ _ Hret Hr2) as [_ Hno].
    by apply (Hno e').
  - intros acts st tr id c acts' st' tr' Hrun Hc Hpc Hrun' e' He' Hw.
    pose proof (run_wf _ _ _ _ (wf_init c0 H0) Hrun) as [Hp _ _].
    assert (retired id st) as Hret.
    { split; [eauto|].
      destruct (pending (conn st) !! id) as [r|] eqn:Hq; [exfalso|done].
      destruct (Hp _ _ Hq) as (c' & Hc' & _ & _ & Hlive). simplify_eq.
      by rewrite Hpc in Hlive. }
    destruct (run_retired _ _ _ _ _ Hret Hrun') as [_ Hno].
    by apply (Hno e').
Qed.

Lemma at_most_one_completion_witness :
  (forall acts st tr io msg r,
      run acts (init NewConnection) = Some (st, tr) ->
      Type_ msg = ResponseType ->
      pending (conn st) !! ID msg = Some r ->
      handleMessage io msg st
      = Some (delete_pending (ID msg) (set_chan r [msg] st), [EvInboxWrite (ID msg) msg]))
  /\ (forall io msg st,
        Type_ msg = ResponseType ->
        pending (conn st) !! ID msg = None ->
        handleMessage io msg st = Some (st, []))
  /\ (forall acts st tr id tr1 e tr2,
        run acts (init NewConnection) = Some (st, tr) ->
        tr = tr1 ++ e :: tr2 ->
        completes id e ->
        forall e', e' ∈ tr2 ->
          ~ completes id e'
          /\ (writes id e' -> e = EvCallback id OTimeout \/ e = EvCallback id OCancelled))
  /\ (forall acts st tr id c acts' st' tr',
        run acts (init NewConnection) = Some (st, tr) ->
        calls st !! id = Some c ->
        pc c = PcDone ->
        run acts' st = Some (st', tr') ->
        forall e', e' ∈ tr' -> ~ writes id e').
Proof. exact (at_most_one_completion NewConnection eq_refl). Defined.

(** The echo of the test suite: one request, its response, one return. *)
Example echo_call_completes_once :
  option_map snd
    (run (waiting_acts ++ [ARead (mkRead true (Some (echo_response "a"))) io_ok;
                           ASelectRecv "a";
                           ARead (mkRead true (Some (echo_response "a"))) io_ok])
       (init NewConnection))
  = Some [EvSend (request_msg "a" (mkCall Blocking 0%nat "Echo" ∅ PcRegistered false)) None;
          EvInboxWrite "a" (echo_response "a");
          EvReturn "a" (OResult (AString "ping"))].
Proof. vm_compute. reflexivity. Qed.

(** The calls of the test suite, seen from the caller: the echo, the
    division by zero, and a call that is not answered. *)
Example Call_scenarios :
  let division_by_zero :=
    {| Type_ := ResponseType; ID := "a"; Method := ""; Params := ∅; Result := ANil;
       Error := Some "division by zero"%string; ErrorCode := 44 |} in
  let returned (r : option (State * list event)) :=
    (pending (conn (fst (the r))), last (snd (the r))) in
  returned (Call "a" 0%nat "Echo" ∅ io_ok (Some (echo_response "a")) (init NewConnection))
  = (∅, Some (EvReturn "a" (OResult (AString "ping"))))
  /\ returned (Call "a" 0%nat "Divide" ∅ io_ok (Some division_by_zero) (init NewConnection))
     = (∅, Some (EvReturn "a" (OResponseError 44 "division by zero")))
  /\ returned (Call "a" 0%nat "Echo" ∅ io_ok None (init NewConnection))
     = (∅, Some (EvReturn "a" OTimeout))
  /\ returned (Call "a" 0%nat "Echo" ∅ io_broken None (init NewConnection))
     = (∅, Some (EvReturn "a" (OSendError "broken pipe")))
  /\ returned (CallAsync "a" 0%nat "Divide" ∅ true io_ok (Some division_by_zero)
                 (init NewConnection))
     = (∅, Some (EvCallback "a" (OErrorf 44 "division by zero")))
  /\ returned (CallAsync "a" 0%nat "Echo" ∅ true io_broken None (init NewConnection))
     = (∅, Some (EvCallback "a" (OSendError "broken pipe"))).
Proof. cbv zeta. repeat apply conj; vm_compute; reflexivity. Qed.

(** *** A send that fails *)

(** C7.  For a connection that starts with an empty pending table: when
    [Send] fails for the request of a call, the next step of that call
    deletes its entry, and only then is the error handed over, at once by
    [Call] and by the spawned callback for [CallAsync]; whenever a step
    hands the send error of call [id] to its caller, the entry of [id] is
    out of the table, stays out, and nothing is written to its inbox from
    then on. *)
Theorem send_error_after_removal c0 :
  pending c0 = ∅ ->
  (forall st id io c e st1 evs1,
      calls st !! id = Some c ->
      snd (Send io (request_msg id c) (conn st)) = Some e ->
      exec (ASendRequest id io) st = Some (st1, evs1) ->
      exists st2 evs2,
        exec (ADeleteOnSendError id) st1 = Some (st2, evs2)
        /\ pending (conn st2) !! id = None
        /\ match kind c with
           | Blocking => evs2 = [EvReturn id (OSendError e)]
           | Async true =>
               evs2 = []
               /\ exists st3, exec (ARunErrCallback id) st2
                              = Some (st3, [EvCallback id (OSendError e)])
           | Async false => evs2 = []
           end)
  /\ (forall acts st tr a st' e id,
        run acts (init c0) = Some (st, tr) ->
        exec a st = Some (st', [e]) ->
        send_error id e ->
        pending (conn st') !! id = None
        /\ forall acts' st'' tr',
             run acts' st' = Some (st'', tr') ->
             pending (conn st'') !! id = None
             /\ forall e', e' ∈ tr' -> ~ writes id e').
Proof.
  intros H0. split.
  - intros st id io c e st1 evs1 Hc Herr Hex.
    simpl in Hex. rewrite Hc in Hex.
    destruct (pc c) eqn:Hpc; try done. rewrite Herr in Hex. simplify_eq.
    simpl. rewrite lookup_insert_eq. simpl.
    destruct (kind c) as [|[|]] eqn:Hk; simpl.
    + eexists _, _. split; [done|]. simpl. by rewrite lookup_delete_eq.
    + eexists _, _. split; [done|]. simpl. rewrite lookup_delete_eq.
      split; [done|]. split; [done|]. rewrite lookup_insert_eq. simpl. eauto.
    + eexists _, _. split; [done|]. simpl. by rewrite lookup_delete_eq.
  - intros acts st tr a st' e id Hrun Ha He.
    assert (final id e) as Hfin.
    { destruct e as [| | |i o|i o|]; simpl in *; try done; by destruct o. }
    pose proof (run_wf _ _ _ _ (wf_init c0 H0) Hrun) as Hwf.
    pose proof (exec_final _ _ _ _ _ Hwf Ha Hfin) as Hret.
    split; [by destruct Hret|].
    intros acts' st'' tr' Hrun'.
    destruct (run_retired _ _ _ _ _ Hret Hrun') as [[_ Hgone] Hno]. done.
Qed.

Lemma send_error_after_removal_witness :
  (forall st id io c e st1 evs1,
      calls st !! id = Some c ->
      snd (Send io (request_msg id c) (conn st)) = Some e ->
      exec (ASendRequest id io) st = Some (st1, evs1) ->
      exists st2 evs2,
        exec (ADeleteOnSendError id) st1 = Some (st2, evs2)
        /\ pending (conn st2) !! id = None
        /\ match kind c with
           | Blocking => evs2 = [EvReturn id (OSendError e)]
           | Async true =>
               evs2 = []
               /\ exists st3, exec (ARunErrCallback id) st2
                              = Some (st3, [EvCallback id (OSendError e)])
           | Async false => evs2 = []
           end)
  /\ (forall acts st tr a st' e id,
        run acts (init NewConnection) = Some (st, tr) ->
        exec a st = Some (st', [e]) ->
        send_error id e ->
        pending (conn st') !! id = None
        /\ forall acts' st'' tr',
             run acts' st' = Some (st'', tr') ->
             pending (conn st'') !! id = None
             /\ forall e', e' ∈ tr' -> ~ writes id e').
Proof. exact (send_error_after_removal NewConnection eq_refl). Defined.

(** A blocking call and an asynchronous one whose sends fail; a response
    that names the first call arrives afterwards and is dropped. *)
Example failed_sends :
  let r := the (run [ACall Blocking "a" 0%nat "Echo" ∅; ASendRequest "a" io_broken;
                     ADeleteOnSendError "a";
                     ACall (Async true) "b" 1%nat "Echo" ∅; ASendRequest "b" io_broken;
                     ADeleteOnSendError "b"; ARunErrCallback "b";
                     ARead (mkRead true (Some (echo_response "a"))) io_ok]
                  (init NewConnection)) in
  pending (conn (fst r)) = ∅
  /\ wire (conn (fst r)) = []
  /\ List.filter (fun e => match e with EvSend _ _ => false | _ => true end) (snd r)
     = [EvReturn "a" (OSendError "broken pipe"); EvCallback "b" (OSendError "broken pipe")].
Proof. cbv zeta. repeat apply conj; vm_compute; reflexivity. Qed.

(** *** Requests for a method that is not registered *)

Lemma Send_ok_flushed msg c :
  flushed c ->
  Send io_ok msg c = (fst (Send io_ok msg c), None)
  /\ wire (fst (Send io_ok msg c)) = wire c ++ [msg]
  /\ flushed (fst (Send io_ok msg c)).
Proof.
  intros (Hbuf & Hgz & Hplain). unfold Send, Encode, Flush, flushed. simpl.
  destruct (Enc c) eqn:HE; simpl; rewrite ?HE.
  - rewrite (Hplain eq_refl). simpl. rewrite HE. repeat split; try done.
  - destruct (Hgz eq_refl) as [Hu Hw]. rewrite Hu, Hw. simpl. rewrite HE, Hbuf. simpl.
    repeat split; try done.
Qed.

(** C8.  A round of the read loop that decodes a request whose method has
    no handler calls [Send] once, with the 404 reply for the request's id,
    and does nothing else: the loop goes on, and the pending table, the
    handlers, the inboxes and the calls are as before.  When the transport
    takes the write, the wire has that one frame more. *)
Theorem unknown_method_replies_404 inp io msg st :
  reader st = Running ->
  decoded inp = Some msg ->
  (useCompression (conn st) = true -> gzReader (conn st) = false ->
   gzip_header_ok inp = true) ->
  Type_ msg = RequestType ->
  handlers (conn st) !! Method msg = None ->
  exists st' err,
    exec (ARead inp io) st = Some (st', [EvSend (not_found_reply msg) err])
    /\ reader st' = Running
    /\ pending (conn st') = pending (conn st)
    /\ handlers (conn st') = handlers (conn st)
    /\ chans st' = chans st
    /\ calls st' = calls st
    /\ (io = io_ok -> flushed (conn st) ->
        err = None /\ wire (conn st') = wire (conn st) ++ [not_found_reply msg]
        /\ flushed (conn st')).
Proof.
  intros Hrun Hdec Hgz Hty Hnone.
  assert (Type_ msg <> ResponseType) as Hne by (rewrite Hty; discriminate).
  assert (Get (Method msg) (handlers (conn st)) = None) as Hget
    by (unfold Get; by rewrite Hnone).
  simpl. unfold readLoop_round. rewrite Hrun, Hdec.
  destruct (useCompression (conn st) && negb (gzReader (conn st))) eqn:Hlazy; simpl.
  - apply andb_true_iff in Hlazy as [Hc Hr]. apply negb_true_iff in Hr.
    rewrite (Hgz Hc Hr). simpl.
    unfold handleMessage. rewrite decide_False by done. rewrite decide_True by done.
    simpl. rewrite Hget.
    eexists _, _. split; [reflexivity|]. simpl.
    rewrite Send_pending, Send_handlers. simpl.
    do 5 (split; [done|]).
    intros -> Hfl.
    assert (flushed (init_reader (conn st))) as Hfl' by exact Hfl.
    destruct (Send_ok_flushed (Ctx.error_msg
           (Ctx.mkContext (clientID (conn st)) (ID msg) (Params msg)) 404 "method not found")
           _ Hfl') as (Hs & Hw & Hf).
    split; [by rewrite Hs|]. split; [exact Hw|exact Hf].
  - unfold handleMessage. rewrite decide_False by done. rewrite decide_True by done.
    simpl. rewrite Hget.
    eexists _, _. split; [reflexivity|]. simpl.
    rewrite Send_pending, Send_handlers.
    do 5 (split; [done|]).
    intros -> Hfl.
    destruct (Send_ok_flushed (Ctx.error_msg
           (Ctx.mkContext (clientID (conn st)) (ID msg) (Params msg)) 404 "method not found")
           _ Hfl) as (Hs & Hw & Hf).
    split; [by rewrite Hs|]. split; [exact Hw|exact Hf].
Qed.

Lemma unknown_method_replies_404_witness :
  exists st' err,
    exec (ARead (mkRead true (Some unknown_request)) io_ok) (init NewConnection)
    = Some (st', [EvSend (not_found_reply unknown_request) err])
    /\ reader st' = Running
    /\ pending (conn st') = pending (conn (init NewConnection))
    /\ handlers (conn st') = handlers (conn (init NewConnection))
    /\ chans st' = chans (init NewConnection)
    /\ calls st' = calls (init NewConnection)
    /\ (io_ok = io_ok -> flushed (conn (init NewConnection)) ->
        err = None
        /\ wire (conn st') = wire (conn (init NewConnection)) ++ [not_found_reply unknown_request]
        /\ flushed (conn st')).
Proof.
  apply (unknown_method_replies_404 (mkRead true (Some unknown_request)) io_ok
           unknown_request (init NewConnection)).
  - reflexivity.
  - reflexivity.
  - intros _ _. reflexivity.
  - reflexivity.
  - reflexivity.
Defined.

Example unknown_method_on_the_wire :
  let c := EnableCompression (set_handlers {[ "Echo"%string := Some 1%nat ]} NewConnection) in
  let r := the (run [ARead (mkRead true (Some unknown_request)) io_ok;
                     ARead (mkRead true (Some unknown_request)) io_broken] (init c)) in
  wire (conn (fst r)) = [not_found_reply unknown_request]
  /\ reader (fst r) = Running
  /\ snd r = [EvSend (not_found_reply unknown_request) None;
              EvSend (not_found_reply unknown_request) (Some "broken pipe"%string)].
Proof. cbv zeta. repeat apply conj; vm_compute; reflexivity. Qed.

Lemma handleMessage_never_blocks_witness :
  is_Some (handleMessage io_ok (echo_response "a")
             (fst (the (run waiting_acts (init NewConnection))))).
Proof.
  exact (handleMessage_never_blocks NewConnection waiting_acts _ _ io_ok
           (echo_response "a") eq_refl waiting_run).
Defined.

(** No step of a connection's goroutines sets [Dec] to nil. *)
Lemma exec_Dec a st st' evs :
  is_Some (Dec (conn st)) -> exec a st = Some (st', evs) -> is_Some (Dec (conn st')).
Proof.
  intros Hd H. destruct a; exec_inv H; rewrite ?Send_Dec; simpl; eauto.
Qed.

End ConnFacts.

(** ** Properties of the server registry *)

Module SrvFacts.
Import Msg GoTime Srv SrvSpec.

Lemma Since_within now lp :
  (DefaultHeartbeatTimeout <? Since now lp) = false <-> now - lp <= 40 * Second.
Proof.
  unfold DefaultHeartbeatTimeout, Since, Sub.
  assert (Int64.min_int = -9223372036854775808) as -> by reflexivity.
  assert (Int64.max_int = 9223372036854775807) as -> by reflexivity.
  assert (40 * Second = 40000000000) as -> by reflexivity.
  rewrite Z.ltb_ge.
  destruct (Z.ltb_spec (now - lp) (-9223372036854775808)); [lia|].
  destruct (Z.ltb_spec 9223372036854775807 (now - lp)); lia.
Qed.

Lemma GetClientByID_alive now clientID s c :
  fst (GetClientByID now clientID s) = Some c <-> alive now clientID s c.
Proof.
  unfold GetClientByID, alive.
  destruct (clients s !! clientID) as [conn|] eqn:Hc; simpl.
  - destruct (lastPing s !! clientID) as [lp|] eqn:Hl; simpl.
    + destruct (DefaultHeartbeatTimeout <? Since now lp) eqn:Hs; simpl.
      * split; [done|]. intros (_ & lp' & Heq & Hle). simplify_eq.
        apply Since_within in Hle. congruence.
      * apply Since_within in Hs. split.
        -- intros Heq. simplify_eq. eauto.
        -- intros (Heq & _). congruence.
    + split; [done|]. intros (_ & lp' & Heq & _). done.
  - split; [done|]. intros (Heq & _). done.
Qed.

Lemma GetClientByID_stale now clientID s c :
  clients s !! clientID = Some c -> ~ alive now clientID s c ->
  GetClientByID now clientID s = (None, purge clientID s).
Proof.
  intros Hc Hdead.
  destruct (fst (GetClientByID now clientID s)) as [c'|] eqn:Hget.
  - apply GetClientByID_alive in Hget. destruct Hget as [Hc' Hl]. simplify_eq.
    exfalso. apply Hdead. by split.
  - revert Hget. unfold GetClientByID. rewrite Hc. repeat case_match; simpl; done.
Qed.

(** C3.  [GetClientByID] returns the connection of a client exactly when the
    client is in [clients] and its last ping is recorded and at most 40
    seconds old, and then changes nothing; for a client in [clients] whose
    last ping is missing or older it returns nil and leaves the client in
    neither map, the other clients as they were; for a client not in
    [clients] it returns nil and changes nothing. *)
Theorem GetClientByID_heartbeat now clientID s :
  (forall c, fst (GetClientByID now clientID s) = Some c <-> alive now clientID s c)
  /\ (forall c, alive now clientID s c -> snd (GetClientByID now clientID s) = s)
  /\ (forall c, clients s !! clientID = Some c -> ~ alive now clientID s c ->
        fst (GetClientByID now clientID s) = None
        /\ clients (snd (GetClientByID now clientID s)) !! clientID = None
        /\ lastPing (snd (GetClientByID now clientID s)) !! clientID = None
        /\ forall other, other <> clientID ->
             clients (snd (GetClientByID now clientID s)) !! other = clients s !! other
             /\ lastPing (snd (GetClientByID now clientID s)) !! other = lastPing s !! other)
  /\ (clients s !! clientID = None -> GetClientByID now clientID s = (None, s)).
Proof.
  split; [apply GetClientByID_alive|]. split; [|split].
  - intros c Halive. apply GetClientByID_alive in Halive. revert Halive.
    unfold GetClientByID. repeat case_match; simpl; done.
  - intros c Hc Hdead. rewrite (GetClientByID_stale _ _ _ _ Hc Hdead). simpl.
    split; [done|]. split; [apply lookup_delete_eq|]. split; [apply lookup_delete_eq|].
    intros other Hne. split; by apply lookup_delete_ne.
  - intros Hc. unfold GetClientByID. by rewrite Hc.
Qed.


(** *** The registry along the server's steps *)

Ltac srv_inv H :=
  unfold exec in H; repeat (case_match; simplify_eq/=; try done).

Ltac map_cases :=
  rewrite ?lookup_insert, ?lookup_delete;
  repeat case_decide; simplify_eq; try done.

Lemma GetClientByID_server now clientID s :
  snd (GetClientByID now clientID s) = s
  \/ snd (GetClientByID now clientID s) = purge clientID s.
Proof. unfold GetClientByID. repeat case_match; simpl; auto. Qed.

Lemma exec_removes_both a st st' clientID :
  exec a st = Some st' -> removes_both st st' clientID.
Proof.
  intros H. unfold removes_both.
  destruct a; srv_inv H; simpl.
  all: try (intros [[[x Hx] Hn]|[[x Hx] Hn]]; revert Hn; map_cases; congruence).
  injection H as <-. simpl.
  destruct (GetClientByID_server (clock st) clientID0 (server st)) as [->| ->]; simpl.
  - intros [[[x Hx] Hn]|[[x Hx] Hn]]; congruence.
  - intros [[[x Hx] Hn]|[[x Hx] Hn]]; revert Hn; map_cases; congruence.
Qed.

Lemma exec_authFunc a st st' :
  exec a st = Some st' -> authFunc (server st') = authFunc (server st).
Proof.
  intros H. destruct a; srv_inv H; simpl; try done.
  injection H as <-. simpl.
  destruct (GetClientByID_server (clock st) clientID (server st)) as [->| ->]; done.
Qed.

Lemma run_inv (P : State -> Prop) :
  (forall a st st', P st -> exec a st = Some st' -> P st') ->
  forall acts st st', P st -> run acts st = Some st' -> P st'.
Proof.
  intros Hstep acts. induction acts as [|a acts IH]; intros st st' HP Hrun; simpl in Hrun.
  - by simplify_eq.
  - destruct (exec a st) as [st1|] eqn:Ha; [|done]. eauto.
Qed.

Lemma exec_registered auth a st st' :
  registered auth st -> exec a st = Some st' -> registered auth st'.
Proof.
  intros (Hauth & Hdom & Hpass & Hreg) H.
  split; [by rewrite (exec_authFunc _ _ _ H)|].
  split; [|split].
  - intros c p. destruct a; srv_inv H; simpl; map_cases; eauto.
  - intros c p. destruct a; srv_inv H; simpl; map_cases; intros; simplify_eq; eauto.
    all: try (rewrite <- Hauth; split; [done|by simplify_eq]).
    all: try (match goal with
              | Hs : serving _ !! _ = Some _ |- _ => apply (Hpass _ _ Hs)
              end).
  - intros clientID c.
    destruct a; srv_inv H; simpl.
    all: try (map_cases; intros Hc; simplify_eq;
              try (destruct (Hreg _ _ Hc) as (p & Hp & Has));
              try (eexists; split; [done|]; simpl; done);
              try (simplify_eq; simpl in *; done);
              try (destruct (Hdom _ _ Hp); congruence)).
    simpl in *.
    destruct (GetClientByID_server (clock st) clientID0 (server st)) as [Heq|Heq];
      rewrite Heq in Hc; simpl in Hc.
    + by apply Hreg.
    + revert Hc. map_cases. apply Hreg.
Qed.


Lemma registered_init auth : registered auth (init auth).
Proof.
  split; [done|]. split; [|split]; simpl; intros ? ?; rewrite lookup_empty; done.
Qed.

Lemma run_registered auth acts st :
  run acts (init auth) = Some st -> registered auth st.
Proof.
  apply (run_inv (registered auth)); [|apply registered_init].
  intros a s s'. apply exec_registered.
Qed.

(** The client "client42" of the test suite connects and is registered;
    then 41 seconds pass without a ping. *)
Lemma silent_run :
  run silent_acts (init accept_all) = Some (default (init accept_all) (run silent_acts (init accept_all))).
Proof. vm_compute. reflexivity. Qed.

Lemma refused_run :
  run refused_acts (init accept_all)
  = Some (default (init accept_all) (run refused_acts (init accept_all))).
Proof. vm_compute. reflexivity. Qed.

(** C6 fails as stated, in both parts: when [AuthOK] cannot be sent the
    client's last ping is stored and the client is not in [clients]; and 41
    seconds after its registration, with no ping, a client is still in both
    maps. *)
Lemma registry_window_fails :
  ~ same_keys_always accept_all /\ ~ present_only_in_window accept_all.
Proof.
  split.
  - intros H. specialize (H refused_acts _ refused_run).
    assert ("client42"%string ∈ dom (lastPing (server
              (default (init accept_all) (run refused_acts (init accept_all))))))
      as Hin by (apply elem_of_dom; vm_compute; eauto).
    rewrite <- H in Hin. apply elem_of_dom in Hin as [c Hc].
    vm_compute in Hc. discriminate Hc.
  - intros H.
    destruct (H silent_acts _ silent_run "client42"%string 0%nat eq_refl)
      as (_ & _ & lp & Hlp & Hle).
    vm_compute in Hlp. injection Hlp as <-.
    vm_compute in Hle. by apply Hle.
Qed.

(** C6, amended.  A step that takes a client out of one of the two maps
    leaves it in neither; a client in [clients] maps to a connection that
    [ServeConn] registered under that id after an [AuthRequest] that
    [authFunc] accepted; the passing of time changes neither map; a client
    in [clients] whose last ping is missing or older than 40 seconds is
    taken out of both maps by a call of [GetClientByID] for it. *)
Theorem registry_removals_and_entries auth :
  (forall a st st' clientID, exec a st = Some st' -> removes_both st st' clientID)
  /\ (forall acts st clientID c,
        run acts (init auth) = Some st ->
        clients (server st) !! clientID = Some c ->
        exists p, serving st !! c = Some p /\ authenticated_as auth clientID p)
  /\ (forall d st st', exec (ATick d) st = Some st' -> server st' = server st)
  /\ (forall st clientID c,
        clients (server st) !! clientID = Some c ->
        ~ alive (clock st) clientID (server st) c ->
        exists st', exec (AGet clientID) st = Some st'
          /\ clients (server st') !! clientID = None
          /\ lastPing (server st') !! clientID = None).
Proof.
  split; [|split; [|split]].
  - intros a st st' clientID. apply exec_removes_both.
  - intros acts st clientID c Hrun Hc.
    destruct (run_registered _ _ _ Hrun) as (Hauth & Hdom & Hpass & Hreg).
    destruct (Hreg _ _ Hc) as (p & Hp & Hid).
    exists p. split; [done|].
    specialize (Hpass _ _ Hp).
    destruct p; simpl in *; try done; destruct Hpass as [Hty Hok]; subst; done.
  - intros d st st' H. simpl in H. destruct (0 <=? d); by simplify_eq.
  - intros st clientID c Hc Hdead.
    eexists. split; [reflexivity|]. simpl.
    rewrite (GetClientByID_stale _ _ _ _ Hc Hdead). simpl.
    split; apply lookup_delete_eq.
Qed.

Example registry_scenarios :
  let st := default (init accept_all) (run silent_acts (init accept_all)) in
  clients (server st) = {[ "client42"%string := 0%nat ]}
  /\ lastPing (server st) = {[ "client42"%string := 0 ]}
  /\ fst (GetClientByID (clock st) "client42" (server st)) = None
  /\ clients (snd (GetClientByID (clock st) "client42" (server st))) = ∅
  /\ lastPing (snd (GetClientByID (clock st) "client42" (server st))) = ∅.
Proof. cbv zeta. repeat apply conj; vm_compute; reflexivity. Qed.

(** When [AuthOK] cannot be sent, [ServeConn] returns with the client's
    last ping stored and the client not in [clients]. *)
Example lastPing_without_client :
  let st := default (init accept_all) (run refused_acts (init accept_all)) in
  clients (server st) = ∅
  /\ lastPing (server st) = {[ "client42"%string := 0 ]}
  /\ serving st !! 0%nat = Some SClosed.
Proof. cbv zeta. repeat apply conj; vm_compute; reflexivity. Qed.

(** The client pings 30 seconds after its registration and is found by
    [GetClientByID] 60 seconds after it; without the ping it is not. *)
Example ping_keeps_client_alive :
  let ping := {| Type_ := RequestType; ID := "p1"; Method := "Ping"; Params := ∅;
                 Result := ANil; Error := None; ErrorCode := 0 |} in
  let connect := [AServe 0%nat (Some client42_request); AAuthOK 0%nat true; ARegister 0%nat] in
  let pinged :=
    default (init accept_all)
      (run (connect ++ [ATick (30 * Second);
                        AConn 0%nat (Conn.ARead (Conn.mkRead true (Some ping)) Conn.io_ok);
                        APing 0%nat Conn.io_ok; ATick (30 * Second)])
         (init accept_all)) in
  let silent :=
    default (init accept_all)
      (run (connect ++ [ATick (60 * Second)]) (init accept_all)) in
  fst (GetClientByID (clock pinged) "client42" (server pinged)) = Some 0%nat
  /\ (Conn.wire ∘ Conn.conn <$> conns pinged !! 0%nat)
     = Some [Ctx.response_msg (Ctx.mkContext "client42" "p1" ∅) (AString "pong")]
  /\ fst (GetClientByID (clock silent) "client42" (server silent)) = None.
Proof. cbv zeta. repeat apply conj; vm_compute; reflexivity. Qed.

(** [ServeConn] for the client of the test suite: registered when all goes
    well; with the last ping stored and nothing else when [AuthOK] cannot
    be sent; with nothing stored when the frame is no [AuthRequest]. *)
Example ServeConn_outcomes :
  let maps (st : option State) :=
    (clients (server (default (init accept_all) st)),
     lastPing (server (default (init accept_all) st))) in
  maps (ServeConn 0%nat (Some client42_request) true (init accept_all))
  = ({[ "client42"%string := 0%nat ]}, {[ "client42"%string := 0 ]})
  /\ maps (ServeConn 0%nat (Some client42_request) false (init accept_all))
     = (∅, {[ "client42"%string := 0 ]})
  /\ maps (ServeConn 0%nat (Some (mkNeg AuthOKType "client42" "s3cr3t" true)) true
             (init accept_all))
     = (∅, ∅)
  /\ maps (ServeConn 0%nat None true (init accept_all)) = (∅, ∅).
Proof. cbv zeta. repeat apply conj; vm_compute; reflexivity. Qed.

(** *** The cleanup goroutine *)

Lemma exec_decoders a st st' :
  decoders_set st -> exec a st = Some st' -> decoders_set st'.
Proof.
  intros Hdec H c cs.
  destruct a; srv_inv H; simpl; map_cases; eauto.
  all: try (intros; simplify_eq; simpl; rewrite ?ConnFacts.Send_Dec; eauto).
  all: try (unfold Conn.EnableCompression; case_match; simpl; by eauto).
  all: match goal with
       | Hx : Conn.exec _ _ = Some _, Hy : conns _ !! _ = Some _ |- _ =>
           apply (ConnFacts.exec_Dec _ _ _ _ (Hdec _ _ Hy) Hx)
       end.
Qed.

(** No state of the server lets the cleanup goroutine leave its loop: the
    [Dec] field it polls is set when the connection is made and no step sets
    it to nil. *)
Lemma cleanup_never_runs auth acts st c :
  run acts (init auth) = Some st -> exec (ACleanup c) st = None.
Proof.
  intros Hrun.
  assert (decoders_set st) as Hdec.
  { apply (run_inv decoders_set) with acts (init auth); [|by intros ? ?|done].
    intros a s s'. apply exec_decoders. }
  simpl. repeat case_match; try done.
  match goal with
  | Hy : conns st !! _ = Some _ |- _ => destruct (Hdec _ _ Hy) as [d Hd]; congruence
  end.
Qed.

(** After the read loop of the registered client ended on a decode error,
    the client is still in both maps. *)
Example registration_outlives_read_loop :
  let st := default (init accept_all)
              (run [AServe 0%nat (Some client42_request); AAuthOK 0%nat true; ARegister 0%nat;
                    AConn 0%nat (Conn.ARead (Conn.mkRead true None) Conn.io_ok)]
                 (init accept_all)) in
  (Conn.reader <$> conns st !! 0%nat) = Some Conn.Exited
  /\ clients (server st) = {[ "client42"%string := 0%nat ]}
  /\ lastPing (server st) = {[ "client42"%string := 0 ]}
  /\ exec (ACleanup 0%nat) st = None.
Proof. cbv zeta. repeat apply conj; vm_compute; reflexivity. Qed.

Lemma cleanup_never_runs_witness :
  exec (ACleanup 0%nat) (default (init accept_all) (run silent_acts (init accept_all))) = None.
Proof. exact (cleanup_never_runs accept_all silent_acts _ 0%nat silent_run). Defined.

End SrvFacts.

(** ** Properties of the result adapter *)

Module AdapterFacts.
Import Msg Adapter.

(** C9.  For every destination and source, whatever the libraries do:
    a destination that is nil, not a pointer or a nil pointer gives an
    error; for a pointer to a variable, a source whose type is the
    variable's type is assigned and no library is called; otherwise a
    string-keyed map goes to the map decoder, configured with the tag
    "json", the destination and weakly typed input, and its error or value
    is the adapter's; otherwise the source goes through [Marshal], whose
    error is wrapped, and then [Unmarshal] into the destination, whose error
    or value is the adapter's. *)
Theorem decodeInto_order
    (NewDecoder : DecoderConfig -> option string)
    (Decode : DecoderConfig -> gmap string any -> string + any)
    (Marshal : any -> string + string)
    (Unmarshal : string -> dest -> string + any)
    (result : dest) (src : any) :
  let r := decodeInto NewDecoder Decode Marshal Unmarshal result src in
  (~ usable result -> is_error r)
  /\ (usable result -> TypeOf src = elem_type result -> r = inr src)
  /\ (usable result -> TypeOf src <> elem_type result -> is_map src ->
      forall m, src = AMap m ->
        (forall e, NewDecoder (json_config result) = Some e -> r = inl e)
        /\ (NewDecoder (json_config result) = None -> r = Decode (json_config result) m))
  /\ (usable result -> TypeOf src <> elem_type result -> ~ is_map src ->
      (forall e, Marshal src = inl e -> r = inl ("encode fallback: " ++ e)%string)
      /\ (forall data, Marshal src = inr data -> r = Unmarshal data result)).
Proof.
  intros r. subst r. unfold decodeInto, json_config.
  destruct result as [v|t|t cur]; simpl.
  - split; [intros _; by destruct v|].
    split; [intros []|]. split; intros [].
  - split; [done|].
    split; [intros []|]. split; intros [].
  - split; [intros H; by destruct H|].
    split; [intros _ Ht; by rewrite decide_True|].
    split.
    + intros _ Ht _ m ->. rewrite decide_False by done.
      split; [intros e ->; done|intros ->; done].
    + intros _ Ht Hm. rewrite decide_False by done.
      destruct src; simpl in Hm; try (by destruct Hm);
        (split; [intros e ->; done|intros data ->; done]).
Qed.

(** A map into a pointer to a map is assigned, not decoded. *)
Example decodeInto_map_into_map NewDecoder Decode Marshal Unmarshal :
  decodeInto NewDecoder Decode Marshal Unmarshal
    (DPointer TMap ANil) (AMap {[ "k"%string := AString "v" ]})
  = inr (AMap {[ "k"%string := AString "v" ]}).
Proof. reflexivity. Qed.

(** The reply of the echo handler into a [*string], and into a [*int]. *)
Example decodeInto_string NewDecoder Decode Marshal Unmarshal :
  decodeInto NewDecoder Decode Marshal Unmarshal (DPointer TString (AString "")) (AString "ping")
  = inr (AString "ping")
  /\ decodeInto NewDecoder Decode Marshal Unmarshal (DPointer TInt (AInt 0)) (AFloat64 5)
     = match Marshal (AFloat64 5) with
       | inl err => inl ("encode fallback: " ++ err)%string
       | inr data => Unmarshal data (DPointer TInt (AInt 0))
       end.
Proof. split; reflexivity. Qed.

End AdapterFacts.

(** ** Properties of the auto-client *)

Module AutoFacts.
Import Msg Auto.

(** An attempt that returns no error has stored its connection. *)
Lemma connectOnce_stores c io st :
  snd (connectOnce c io st) = None ->
  activeConn (client (fst (connectOnce c io st))) = Some c
  /\ is_Some (conns (fst (connectOnce c io st)) !! c)
  /\ connected (fst (connectOnce c io st)).
Proof.
  unfold connectOnce, connected. repeat case_match; simpl; try done; intros _.
  all: rewrite lookup_insert_eq; repeat split; eauto.
  all: exists c; rewrite lookup_insert_eq; eauto.
Qed.

(** An attempt that returns an error leaves the client as it was. *)
Lemma connectOnce_error c io st e :
  snd (connectOnce c io st) = Some e -> fst (connectOnce c io st) = st.
Proof. unfold connectOnce. repeat case_match; simpl; done. Qed.

Lemma exec_connected a st st' evs :
  connected st -> exec a st = Some (st', evs) -> connected st'.
Proof.
  intros (c & Hc & Hin) H. unfold connected.
  destruct a as [c' io|c' a|k id r m params]; simpl in H.
  - destruct (conns st !! c') eqn:Hc'; [done|]. simplify_eq.
    unfold connectOnce. repeat case_match; simpl; eauto.
    all: exists c'; split; [done|]; rewrite lookup_insert_eq; eauto.
  - unfold conn_step in H. repeat case_match; simplify_eq. simpl.
    exists c. split; [done|]. rewrite lookup_insert. case_decide; eauto.
  - unfold conn_step in H. repeat case_match; simplify_eq; simpl; eauto.
    all: exists c; split; [done|]; rewrite lookup_insert; case_decide; eauto.
Qed.

Lemma run_connected acts st st' tr :
  connected st -> run acts st = Some (st', tr) -> connected st'.
Proof.
  revert st tr. induction acts as [|a acts IH]; intros st tr Hc Hrun; simpl in Hrun.
  - by simplify_eq.
  - destruct (exec a st) as [[st1 evs1]|] eqn:Ha; [|done].
    destruct (run acts st1) as [[st2 evs2]|] eqn:Hr; [|done]. simplify_eq.
    eapply IH; [|done]. by eapply exec_connected.
Qed.

(** C10.  From a state in which the slot holds a connection, along every
    schedule (further attempts that succeed or fail, steps of the
    connections, their read loops' exits among them, and calls): the slot
    holds a connection, [IsConnected] is true, each of the four call methods
    gives that connection and not the not-connected error, and a call
    through the client is the step of that connection's own [Call] or
    [CallAsync], whether its read loop runs or has ended. *)
Theorem slot_never_cleared st acts st' tr :
  connected st ->
  run acts st = Some (st', tr) ->
  exists c cs,
    Load (client st') = Some c
    /\ conns st' !! c = Some cs
    /\ IsConnected (client st') = true
    /\ Call (client st') = inr c
    /\ CallWithResult (client st') = inr c
    /\ CallAsync (client st') = inr c
    /\ CallAsyncWithResult (client st') = inr c
    /\ forall k id r m params,
         exec (ACallVia k id r m params) st'
         = conn_step c (Conn.ACall k id r m params) st'.
Proof.
  intros Hc Hrun.
  destruct (run_connected _ _ _ _ Hc Hrun) as (c & Hslot & cs & Hcs).
  exists c, cs. unfold IsConnected, Call, CallWithResult, CallAsync, CallAsyncWithResult, Load.
  rewrite Hslot. do 7 (split; [done|]).
  intros k id r m params. simpl. unfold Call, CallAsync, Load.
  destruct k; by rewrite Hslot.
Qed.

(** The first attempt of the test suite's client succeeds; then the read
    loop of its connection ends and a second attempt fails. *)
Lemma slot_never_cleared_witness :
  exists c cs,
    Load (client lost_state) = Some c
    /\ conns lost_state !! c = Some cs
    /\ IsConnected (client lost_state) = true
    /\ Call (client lost_state) = inr c
    /\ CallWithResult (client lost_state) = inr c
    /\ CallAsync (client lost_state) = inr c
    /\ CallAsyncWithResult (client lost_state) = inr c
    /\ forall k id r m params,
         exec (ACallVia k id r m params) lost_state
         = conn_step c (Conn.ACall k id r m params) lost_state.
Proof.
  apply (slot_never_cleared
           (fst (connectOnce 0%nat (mkConnect true true (Some auth_ok)) (init client42)))
           (drop 1 lost_acts) lost_state
           (snd (default (init client42, [])
                   (run (drop 1 lost_acts)
                      (fst (connectOnce 0%nat (mkConnect true true (Some auth_ok))
                              (init client42))))))).
  - apply connectOnce_stores. reflexivity.
  - vm_compute. reflexivity.
Defined.

Example dead_connection_still_used :
  let st := lost_state in
  IsConnected (client st) = true
  /\ (Conn.reader <$> conns st !! 0%nat) = Some Conn.Exited
  /\ option_map snd (run [ACallVia Conn.Blocking "a" 0%nat "Echo" ∅;
                          AConn 0%nat (Conn.ASendRequest "a" Conn.io_ok);
                          AConn 0%nat (Conn.ASelectTimeout "a");
                          AConn 0%nat (Conn.ADelete "a")] st)
     = Some [EvConn 0%nat (Conn.EvSend
               (Conn.request_msg "a" (Conn.mkCall Conn.Blocking 0%nat "Echo" ∅ Conn.PcRegistered false))
               None);
             EvConn 0%nat (Conn.EvReturn "a" Conn.OTimeout)].
Proof. cbv zeta. repeat apply conj; vm_compute; reflexivity. Qed.

Example not_connected_before_first_handshake :
  IsConnected client42 = false
  /\ Call client42 = inl not_connected
  /\ option_map snd (run [AConnect 0%nat (mkConnect false false None);
                          ACallVia Conn.Blocking "a" 0%nat "Echo" ∅] (init client42))
     = Some [EvConnect 0%nat (Some "dial"%string); EvNotConnected "a"].
Proof. cbv zeta. repeat apply conj; vm_compute; reflexivity. Qed.

End AutoFacts.

(** ** More properties of the connection: identity, order, correlation *)

Module DeliveryFacts.
Import Msg Conn ConnSpec ConnInv ConnObs.

(** *** The client id of a connection *)

Lemma Send_clientID io msg c : clientID (fst (Send io msg c)) = clientID c.
Proof.
  unfold Send, Encode, Flush.
  repeat case_match; reflexivity.
Qed.

(** No step of a connection's goroutines changes its client id. *)
Lemma exec_clientID a st st' evs :
  exec a st = Some (st', evs) -> clientID (conn st') = clientID (conn st).
Proof.
  intros H. destruct a; ConnFacts.exec_inv H; rewrite ?Send_clientID; done.
Qed.

(** A handler is dispatched with the client id of the connection. *)
Lemma exec_dispatch_clientID a st st' evs fn ctx :
  exec a st = Some (st', evs) -> EvDispatch fn ctx ∈ evs ->
  Ctx.ClientID ctx = clientID (conn st).
Proof.
  intros H He. destruct a; ConnFacts.exec_inv H;
    repeat (apply elem_of_cons in He as [He|He]; simplify_eq/=; try done);
    try (by apply elem_of_nil in He).
Qed.


(** *** The order of the frames on the wire *)

Lemma Send_nil_flushed io msg c :
  flushed c -> snd (Send io msg c) = None ->
  wire (fst (Send io msg c)) = wire c ++ [msg] /\ flushed (fst (Send io msg c)).
Proof.
  intros (Hbuf & Hgz & Hplain). unfold Send, Encode, Flush, flushed.
  destruct (encode_err io); [done|].
  destruct (Enc c) eqn:HE; simpl; rewrite ?HE.
  - rewrite (Hplain eq_refl). simpl. rewrite HE. intros _. repeat split; done.
  - destruct (Hgz eq_refl) as [Hu Hw]. rewrite Hu, Hw. simpl.
    destruct (flush_err io); [done|]. simpl. rewrite HE, Hbuf. intros _.
    repeat split; done.
Qed.

Lemma sent_app tr1 tr2 : sent (tr1 ++ tr2) = sent tr1 ++ sent tr2.
Proof.
  induction tr1 as [|e tr1 IH]; [done|]. simpl.
  destruct e as [msg [err|]| | | | |]; simpl; by rewrite ?IH.
Qed.

Lemma exec_wire a st st' evs :
  flushed (conn st) -> exec a st = Some (st', evs) ->
  forallb send_succeeded evs = true ->
  wire (conn st') = wire (conn st) ++ sent evs /\ flushed (conn st').
Proof.
  intros Hfl H Hok.
  assert (flushed (init_reader (conn st))) as Hfl' by exact Hfl.
  destruct a; ConnFacts.exec_inv H; simpl in *; rewrite ?app_nil_r; try done.
  all: match goal with
       | |- context [Send ?io ?msg ?c] =>
           destruct (snd (Send io msg c)) eqn:Herr; [done|];
           first [ destruct (Send_nil_flushed io msg c Hfl Herr) as [Hw Hf]
                 | destruct (Send_nil_flushed io msg c Hfl' Herr) as [Hw Hf] ];
           done
       end.
Qed.

(** Along a schedule in which no [Send] returns an error, on a connection
    whose compressor holds nothing back, the frames written to the
    transport are the frames handed to [Send] (the requests of the calls
    and the read loop's 404 replies), each once, in the order of the [Send]
    calls, behind what the wire held before; and the compressor holds
    nothing back at the end. *)
Theorem frames_reach_wire_in_order acts st st' tr :
  flushed (conn st) ->
  run acts st = Some (st', tr) ->
  forallb send_succeeded tr = true ->
  wire (conn st') = wire (conn st) ++ sent tr /\ flushed (conn st').
Proof.
  revert st tr. induction acts as [|a acts IH]; intros st tr Hfl Hrun Hok; simpl in Hrun.
  - injection Hrun as <- <-. simpl. by rewrite app_nil_r.
  - destruct (exec a st) as [[st1 evs1]|] eqn:Ha; [|done].
    destruct (run acts st1) as [[st2 evs2]|] eqn:Hr; [|done].
    injection Hrun as <- <-.
    rewrite forallb_app in Hok. apply andb_true_iff in Hok as [Hok1 Hok2].
    destruct (exec_wire _ _ _ _ Hfl Ha Hok1) as [Hw1 Hfl1].
    destruct (IH _ _ Hfl1 Hr Hok2) as [Hw2 Hfl2].
    split; [|done]. by rewrite Hw2, Hw1, sent_app, app_assoc.
Qed.

Lemma frames_reach_wire_in_order_witness :
  let c := EnableCompression NewConnection in
  let acts := [ACall Blocking "a" 0%nat "Echo" ∅; ASendRequest "a" io_ok;
               ARead (mkRead true (Some unknown_request)) io_ok;
               ACall (Async true) "b" 1%nat "Echo" ∅; ASendRequest "b" io_ok] in
  let r := the (run acts (init c)) in
  wire (conn (fst r)) = wire (conn (init c)) ++ sent (snd r) /\ flushed (conn (fst r)).
Proof.
  apply (frames_reach_wire_in_order
           [ACall Blocking "a" 0%nat "Echo" ∅; ASendRequest "a" io_ok;
            ARead (mkRead true (Some unknown_request)) io_ok;
            ACall (Async true) "b" 1%nat "Echo" ∅; ASendRequest "b" io_ok]
           (init (EnableCompression NewConnection))).
  - repeat split; done.
  - vm_compute. reflexivity.
  - vm_compute. reflexivity.
Defined.

(** The three frames of that schedule, in the order of their [Send] calls. *)
Example frames_in_order :
  let c := EnableCompression NewConnection in
  let acts := [ACall Blocking "a" 0%nat "Echo" ∅; ASendRequest "a" io_ok;
               ARead (mkRead true (Some unknown_request)) io_ok;
               ACall (Async true) "b" 1%nat "Echo" ∅; ASendRequest "b" io_ok] in
  map (fun m => (Type_ m, ID m)) (wire (conn (fst (the (run acts (init c))))))
  = [(RequestType, "a"%string); (ResponseType, "r1"%string); (RequestType, "b"%string)].
Proof. vm_compute. reflexivity. Qed.

(** *** When the read loop ends *)

Lemma wf_set_conn c st :
  pending c = pending (conn st) -> wf st -> wf (set_conn c st).
Proof.
  intros Hp [H1 H2 H3]. split; simpl; [|done..].
  intros id r. rewrite Hp. apply H1.
Qed.

Lemma handleMessage_wf io msg st :
  wf st ->
  exists st' evs, handleMessage io msg st = Some (st', evs) /\ reader st' = reader st.
Proof.
  intros [Hp _ _]. unfold handleMessage.
  repeat case_match; try (eexists _, _; split; [reflexivity|done]).
  all: match goal with
       | Hq : pending _ !! _ = Some _ |- _ =>
           destruct (Hp _ _ Hq) as (? & ? & ? & ? & ?); congruence
       end.
Qed.

(** In every state of a connection that starts with an empty pending
    table, a round of the running read loop can be taken, whatever it
    reads and whatever the transport does with a reply; and the round ends
    the loop exactly when it gets no frame: when the gzip reader cannot be
    set up or [Decode] fails.  No frame ends the loop, whatever its type,
    id or method, and no error of [Send] does. *)
Theorem readLoop_ends_only_on_read_failure c0 acts st tr inp io :
  pending c0 = ∅ ->
  run acts (init c0) = Some (st, tr) ->
  reader st = Running ->
  exists st' evs,
    exec (ARead inp io) st = Some (st', evs)
    /\ (reader st' = Exited <-> read_fails inp (conn st)).
Proof.
  intros H0 Hrun Hr.
  pose proof (ConnFacts.run_wf _ _ _ _ (ConnFacts.wf_init c0 H0) Hrun) as Hwf.
  simpl. unfold readLoop_round, read_fails. rewrite Hr.
  destruct (useCompression (conn st) && negb (gzReader (conn st))) eqn:Hlazy; simpl.
  - apply andb_true_iff in Hlazy as [Hc Hg]. apply negb_true_iff in Hg.
    destruct (gzip_header_ok inp) eqn:Hh; simpl.
    + destruct (decoded inp) as [msg|] eqn:Hd.
      * destruct (handleMessage_wf io msg (set_conn (init_reader (conn st)) st))
          as (st' & evs & Hm & Hrd).
        { by apply wf_set_conn. }
        exists st', evs. split; [done|]. rewrite Hrd. simpl. rewrite Hr.
        split; [done|]. intros [?|(_ & _ & ?)]; done.
      * eexists _, _. split; [reflexivity|]. simpl. split; [by left|done].
    + eexists _, _. split; [reflexivity|]. simpl. split; [by right|done].
  - destruct (decoded inp) as [msg|] eqn:Hd.
    + destruct (handleMessage_wf io msg st Hwf) as (st' & evs & Hm & Hrd).
      exists st', evs. split; [done|]. rewrite Hrd, Hr.
      split; [done|]. intros [?|(Hc & Hg & _)]; [done|].
      rewrite Hc, Hg in Hlazy. done.
    + eexists _, _. split; [reflexivity|]. simpl. split; [by left|done].
Qed.

Lemma readLoop_ends_only_on_read_failure_witness :
  let st := fst (the (run waiting_acts (init NewConnection))) in
  exists st' evs,
    exec (ARead (mkRead true (Some (echo_response "zz"))) io_broken) st = Some (st', evs)
    /\ (reader st' = Exited
        <-> read_fails (mkRead true (Some (echo_response "zz"))) (conn st)).
Proof.
  apply (readLoop_ends_only_on_read_failure NewConnection waiting_acts _ _
           (mkRead true (Some (echo_response "zz"))) io_broken
           eq_refl ConnFacts.waiting_run).
  reflexivity.
Defined.


(** *** Whose response a call gets *)

(** A frame in the inbox of a call after a step was there before it, or is
    a response carrying the call's id that the step wrote. *)
Lemma exec_inbox_origin a st st' evs :
  wf st -> exec a st = Some (st', evs) ->
  forall i c' buf m,
    calls st' !! i = Some c' -> chans st' !! ch c' = Some buf -> m ∈ buf ->
    (exists c0 buf0, calls st !! i = Some c0 /\ chans st !! ch c0 = Some buf0 /\ m ∈ buf0)
    \/ (ID m = i /\ Type_ m = ResponseType /\ EvInboxWrite i m ∈ evs).
Proof.
  intros [Hp Hc Hi] H.
  destruct a; ConnFacts.exec_inv H; intros i c' buf m Hl Hb Hin; simpl in *.
  all: try (left; eexists _, _; split; [eassumption|]; split; [eassumption|]; exact Hin).
  all: revert Hl Hb; ConnFacts.map_cases; intros; simplify_eq/=.
  all: try (by apply elem_of_nil in Hin).
  all: try (left; eexists _, _; split; [eassumption|]; split; [eassumption|]; exact Hin).
  all: try (left; eexists _, _; split; [eassumption|]; split; [eassumption|];
            apply elem_of_cons; by right).
  all: try (match goal with
            | Hne : ?j ≠ ?i, Hj : calls _ !! ?j = Some ?c, Hk : calls _ !! ?i = Some ?c',
              Hch : ch ?c = ch ?c' |- _ => destruct Hne; exact (Hi _ _ _ _ Hj Hk Hch)
            end).
  all: apply elem_of_cons in Hin as [->|Hin]; [|by apply elem_of_nil in Hin].
  all: match goal with
       | Hq : pending _ !! ID ?r = Some _ |- _ =>
           destruct (Hp _ _ Hq) as (c0 & Hc0 & Hch0 & _);
           assert (ID r = i) as <- by exact (Hi _ _ _ _ Hc0 Hl Hch0)
       end.
  all: right; split; [done|]; split; [done|]; apply elem_of_cons; by left.
Qed.

Lemma run_inboxes_own acts st st' tr0 tr :
  wf st -> inboxes_own st tr0 -> run acts st = Some (st', tr) ->
  inboxes_own st' (tr0 ++ tr).
Proof.
  revert st tr0 tr. induction acts as [|a acts IH]; intros st tr0 tr Hwf Hown Hrun;
    simpl in Hrun.
  - injection Hrun as <- <-. by rewrite app_nil_r.
  - destruct (exec a st) as [[st1 evs1]|] eqn:Ha; [|done].
    destruct (run acts st1) as [[st2 evs2]|] eqn:Hr; [|done].
    injection Hrun as <- <-.
    rewrite app_assoc. apply (IH st1); [by apply ConnFacts.exec_wf with a st evs1| |done].
    intros i c' buf m Hl Hb Hin.
    destruct (exec_inbox_origin _ _ _ _ Hwf Ha i c' buf m Hl Hb Hin)
      as [(c0 & buf0 & Hc0 & Hb0 & Hin0)|(Hid & Hty & Hev)].
    + destruct (Hown _ _ _ _ Hc0 Hb0 Hin0) as (? & ? & ?).
      do 2 (split; [done|]). apply elem_of_app. by left.
    + do 2 (split; [done|]). apply elem_of_app. by right.
Qed.

(** What a step hands to the caller of call [id] is the send error, the
    timeout or the cancellation, or is drawn from the frame at the head of
    the call's inbox. *)
Lemma exec_return_source a st st' id o :
  exec a st = Some (st', [EvReturn id o]) ->
  local_outcome o
  \/ exists c msg rest,
       calls st !! id = Some c /\ chans st !! ch c = Some (msg :: rest)
       /\ o = call_outcome msg.
Proof.
  intros H. destruct a; ConnFacts.exec_inv H; simpl; auto.
  all: right; eexists _, _, _; split; [eassumption|]; split; [eassumption|]; done.
Qed.

Lemma exec_callback_source a st st' id o :
  exec a st = Some (st', [EvCallback id o]) ->
  local_outcome o
  \/ exists c msg rest,
       calls st !! id = Some c /\ chans st !! ch c = Some (msg :: rest)
       /\ o = callback_outcome msg.
Proof.
  intros H. destruct a; ConnFacts.exec_inv H; simpl; auto.
  all: right; eexists _, _, _; split; [eassumption|]; split; [eassumption|]; done.
Qed.

(** Correlation.  On a connection that starts with an empty pending table,
    whatever a call is completed with (the return of [Call], the argument
    of the callback of [CallAsync]) is the send error, the timeout or the
    cancellation, or is the result or the error of a response frame that
    carries the call's own id and that the read loop wrote to the call's
    inbox earlier in the schedule: no call is completed with the response
    to another call. *)
Theorem completion_from_own_response c0 acts st tr tr1 e tr2 id o :
  pending c0 = ∅ ->
  run acts (init c0) = Some (st, tr) ->
  tr = tr1 ++ e :: tr2 ->
  e = EvReturn id o \/ e = EvCallback id o ->
  local_outcome o
  \/ exists msg,
       EvInboxWrite id msg ∈ tr1 /\ ID msg = id /\ Type_ msg = ResponseType
       /\ (e = EvReturn id o -> o = call_outcome msg)
       /\ (e = EvCallback id o -> o = callback_outcome msg).
Proof.
  intros H0 Hrun Htr He.
  destruct (ConnFacts.run_split_event _ _ _ _ _ _ _ Hrun Htr)
    as (acts1 & a & acts2 & st1 & st2 & -> & Hrun1 & Ha & Hrun2).
  pose proof (ConnFacts.run_wf _ _ _ _ (ConnFacts.wf_init c0 H0) Hrun1) as Hwf.
  assert (inboxes_own st1 tr1) as Hown.
  { apply (run_inboxes_own acts1 (init c0) st1 [] tr1); [by apply ConnFacts.wf_init| |done].
    intros i c' buf m Hl. simpl in Hl. by rewrite lookup_empty in Hl. }
  destruct He as [->| ->].
  - destruct (exec_return_source _ _ _ _ _ Ha) as [Hloc|(c & msg & rest & Hc & Hb & Ho)];
      [by left|].
    right. exists msg.
    destruct (Hown id c (msg :: rest) msg Hc Hb) as (Hid & Hty & Hin).
    { apply elem_of_cons. by left. }
    do 3 (split; [done|]). split; [done|]. intros Heq. discriminate Heq.
  - destruct (exec_callback_source _ _ _ _ _ Ha) as [Hloc|(c & msg & rest & Hc & Hb & Ho)];
      [by left|].
    right. exists msg.
    destruct (Hown id c (msg :: rest) msg Hc Hb) as (Hid & Hty & Hin).
    { apply elem_of_cons. by left. }
    do 3 (split; [done|]). split; [|done]. intros Heq. discriminate Heq.
Qed.

Lemma completion_from_own_response_witness :
  local_outcome (OResult (AString "ping"))
  \/ exists msg,
       EvInboxWrite "a" msg ∈ [EvSend echo_request None; EvInboxWrite "a" (echo_response "a")]
       /\ ID msg = "a"%string /\ Type_ msg = ResponseType
       /\ (EvReturn "a" (OResult (AString "ping")) = EvReturn "a" (OResult (AString "ping"))
           -> OResult (AString "ping") = call_outcome msg)
       /\ (EvReturn "a" (OResult (AString "ping")) = EvCallback "a" (OResult (AString "ping"))
           -> OResult (AString "ping") = callback_outcome msg).
Proof.
  apply (completion_from_own_response NewConnection answered_acts
           (fst (the (run answered_acts (init NewConnection))))
           (snd (the (run answered_acts (init NewConnection))))
           [EvSend echo_request None; EvInboxWrite "a" (echo_response "a")]
           (EvReturn "a" (OResult (AString "ping"))) []).
  - reflexivity.
  - vm_compute. reflexivity.
  - vm_compute. reflexivity.
  - by left.
Defined.

End DeliveryFacts.

(** ** Properties of [ServeConn], the heartbeat and the server's call methods *)

Module HeartbeatFacts.
Import Msg GoTime Srv SrvSpec SrvCalls.

(** *** The outcomes of [ServeConn] *)

(** When the client is authenticated and [AuthOK] cannot be sent,
    [ServeConn] has stored the client's last ping and returns without
    undoing it: [lastPing] has the id, [clients] is as it was, and the
    connection is closed. *)
Theorem AuthOK_failure_leaves_lastPing st c neg :
  conns st !! c = None ->
  NType neg = AuthRequestType ->
  authFunc (server st) (ClientID neg) (AuthCode neg) = true ->
  exists st',
    ServeConn c (Some neg) false st = Some st'
    /\ lastPing (server st') = <[ClientID neg := clock st]> (lastPing (server st))
    /\ clients (server st') = clients (server st)
    /\ serving st' !! c = Some SClosed.
Proof.
  intros Hfresh Hty Hauth.
  unfold ServeConn. simpl. rewrite Hfresh, decide_True, Hauth by done. simpl.
  rewrite lookup_insert_eq. simpl. rewrite !lookup_insert_eq.
  eexists. split; [reflexivity|]. simpl. rewrite lookup_insert_eq. done.
Qed.

Lemma AuthOK_failure_leaves_lastPing_witness :
  exists st',
    ServeConn 0%nat (Some client42_request) false (init accept_all) = Some st'
    /\ lastPing (server st')
       = <[ClientID client42_request := clock (init accept_all)]>
           (lastPing (server (init accept_all)))
    /\ clients (server st') = clients (server (init accept_all))
    /\ serving st' !! 0%nat = Some SClosed.
Proof.
  apply (AuthOK_failure_leaves_lastPing (init accept_all) 0%nat client42_request);
    reflexivity.
Defined.

(** When the client is authenticated and [AuthOK] is sent, [ServeConn]
    stores the connection under the client's id, in the place of whatever
    connection the id had, with the instant of the authentication as its
    last ping: [GetClientByID] returns the new connection at once.  The
    connection carries the client's id, the server's handlers, compression
    as the client asked for it, an empty pending table and a running read
    loop. *)
Theorem ServeConn_registers st c neg :
  conns st !! c = None ->
  NType neg = AuthRequestType ->
  authFunc (server st) (ClientID neg) (AuthCode neg) = true ->
  exists st' cs,
    ServeConn c (Some neg) true st = Some st'
    /\ clients (server st') = <[ClientID neg := c]> (clients (server st))
    /\ lastPing (server st') = <[ClientID neg := clock st]> (lastPing (server st))
    /\ fst (GetClientByID (clock st') (ClientID neg) (server st')) = Some c
    /\ conns st' !! c = Some cs
    /\ Conn.clientID (Conn.conn cs) = ClientID neg
    /\ Conn.handlers (Conn.conn cs) = handlers (server st)
    /\ Conn.useCompression (Conn.conn cs) = UseCompression neg
    /\ Conn.pending (Conn.conn cs) = ∅
    /\ Conn.reader cs = Conn.Running.
Proof.
  intros Hfresh Hty Hauth.
  unfold ServeConn. simpl. rewrite Hfresh, decide_True, Hauth by done. simpl.
  rewrite lookup_insert_eq. simpl. rewrite !lookup_insert_eq. simpl.
  rewrite lookup_insert_eq.
  eexists _, _. split; [reflexivity|]. simpl.
  do 2 (split; [done|]).
  split.
  { apply SrvFacts.GetClientByID_alive. split; simpl; [apply lookup_insert_eq|].
    exists (clock st). split; [apply lookup_insert_eq|].
    assert (40 * Second = 40000000000) as -> by reflexivity. lia. }
  rewrite lookup_insert_eq. split; [reflexivity|]. simpl.
  destruct (UseCompression neg); simpl; done.
Qed.

Lemma ServeConn_registers_witness :
  exists st' cs,
    ServeConn 0%nat (Some client42_request) true (init accept_all) = Some st'
    /\ clients (server st')
       = <[ClientID client42_request := 0%nat]> (clients (server (init accept_all)))
    /\ lastPing (server st')
       = <[ClientID client42_request := clock (init accept_all)]>
           (lastPing (server (init accept_all)))
    /\ fst (GetClientByID (clock st') (ClientID client42_request) (server st')) = Some 0%nat
    /\ conns st' !! 0%nat = Some cs
    /\ Conn.clientID (Conn.conn cs) = ClientID client42_request
    /\ Conn.handlers (Conn.conn cs) = handlers (server (init accept_all))
    /\ Conn.useCompression (Conn.conn cs) = UseCompression client42_request
    /\ Conn.pending (Conn.conn cs) = ∅
    /\ Conn.reader cs = Conn.Running.
Proof.
  apply (ServeConn_registers (init accept_all) 0%nat client42_request); reflexivity.
Defined.

(** When the negotiation frame cannot be read, is no [AuthRequest], or
    carries credentials that [authFunc] refuses, [ServeConn] closes the
    connection and leaves the server as it was: nothing is stored in
    [clients] or [lastPing]. *)
Theorem ServeConn_turned_away st c neg ok :
  conns st !! c = None ->
  turned_away (server st) neg ->
  exists st',
    ServeConn c neg ok st = Some st'
    /\ server st' = server st
    /\ serving st' !! c = Some SClosed.
Proof.
  intros Hfresh Haway.
  unfold ServeConn. simpl. rewrite Hfresh.
  destruct neg as [m|]; simpl in *.
  - destruct (decide (NType m = AuthRequestType)) as [Hty|Hty].
    + destruct Haway as [Hno|Hno]; [done|]. rewrite Hno. simpl.
      rewrite lookup_insert_eq. eexists. split; [reflexivity|]. simpl.
      by rewrite lookup_insert_eq.
    + simpl. rewrite lookup_insert_eq. eexists. split; [reflexivity|]. simpl.
      by rewrite lookup_insert_eq.
  - rewrite lookup_insert_eq. eexists. split; [reflexivity|]. simpl.
    by rewrite lookup_insert_eq.
Qed.

Lemma ServeConn_turned_away_witness :
  exists st',
    ServeConn 0%nat (Some (mkNeg AuthOKType "client42" "s3cr3t" true)) true (init accept_all)
    = Some st'
    /\ server st' = server (init accept_all)
    /\ serving st' !! 0%nat = Some SClosed.
Proof.
  apply (ServeConn_turned_away (init accept_all) 0%nat
           (Some (mkNeg AuthOKType "client42" "s3cr3t" true)) true).
  - reflexivity.
  - left. discriminate.
Defined.


(** *** The heartbeat *)

(** After [handlePing] has run for a registered client at the instant
    [now], [GetClientByID] at the instant [now'] returns the client's
    connection exactly when [now'] is at most 40 seconds after [now], and
    then changes nothing; the ping makes no other client reachable or
    unreachable. *)
Theorem handlePing_keeps_reachable now now' ctx s c :
  clients s !! Ctx.ClientID ctx = Some c ->
  (fst (GetClientByID now' (Ctx.ClientID ctx) (handlePing now ctx s)) = Some c
   <-> now' - now <= 40 * Second)
  /\ (now' - now <= 40 * Second ->
      snd (GetClientByID now' (Ctx.ClientID ctx) (handlePing now ctx s))
      = handlePing now ctx s)
  /\ forall other, other <> Ctx.ClientID ctx ->
       fst (GetClientByID now' other (handlePing now ctx s))
       = fst (GetClientByID now' other s).
Proof.
  intros Hc. split; [|split].
  - rewrite SrvFacts.GetClientByID_alive. unfold alive, handlePing. simpl.
    rewrite lookup_insert_eq. split.
    + intros (_ & lp & Hlp & Hle). by simplify_eq.
    + intros Hle. split; [done|]. eauto.
  - intros Hle. unfold GetClientByID, handlePing. simpl.
    rewrite Hc, lookup_insert_eq.
    apply SrvFacts.Since_within in Hle. by rewrite Hle.
  - intros other Hne. unfold GetClientByID, handlePing. simpl.
    rewrite lookup_insert_ne by done.
    repeat case_match; done.
Qed.

Lemma handlePing_keeps_reachable_witness :
  let s := set_clients {[ "client42"%string := 0%nat ]} (NewServer accept_all) in
  let ctx := Ctx.mkContext "client42" "p1" ∅ in
  (fst (GetClientByID (70 * Second) (Ctx.ClientID ctx) (handlePing (30 * Second) ctx s))
   = Some 0%nat
   <-> 70 * Second - 30 * Second <= 40 * Second)
  /\ (70 * Second - 30 * Second <= 40 * Second ->
      snd (GetClientByID (70 * Second) (Ctx.ClientID ctx) (handlePing (30 * Second) ctx s))
      = handlePing (30 * Second) ctx s)
  /\ forall other, other <> Ctx.ClientID ctx ->
       fst (GetClientByID (70 * Second) other (handlePing (30 * Second) ctx s))
       = fst (GetClientByID (70 * Second) other s).
Proof.
  apply (handlePing_keeps_reachable (30 * Second) (70 * Second)
           (Ctx.mkContext "client42" "p1" ∅)
           (set_clients {[ "client42"%string := 0%nat ]} (NewServer accept_all)) 0%nat).
  reflexivity.
Defined.

(** No step but the registration of [ServeConn] stores an entry of
    [clients]. *)
Lemma exec_clients_absent a st st' clientID :
  registers a = false ->
  clients (server st) !! clientID = None ->
  exec a st = Some st' ->
  clients (server st') !! clientID = None.
Proof.
  intros Hreg Hnone H.
  destruct a; try done; SrvFacts.srv_inv H; simpl; try done.
  - rewrite lookup_delete. by case_decide.
  - injection H as <-. simpl.
    destruct (SrvFacts.GetClientByID_server (clock st) clientID0 (server st)) as [->| ->];
      simpl; [done|].
    rewrite lookup_delete. by case_decide.
Qed.

Lemma run_clients_absent acts st st' clientID :
  forallb (fun a => negb (registers a)) acts = true ->
  clients (server st) !! clientID = None ->
  run acts st = Some st' ->
  clients (server st') !! clientID = None.
Proof.
  revert st. induction acts as [|a acts IH]; intros st Hall Hnone Hrun; simpl in *.
  - by simplify_eq.
  - apply andb_true_iff in Hall as [Ha Hall]. apply negb_true_iff in Ha.
    destruct (exec a st) as [st1|] eqn:Hex; [|done].
    apply (IH st1); [done| |done].
    by apply exec_clients_absent with a st.
Qed.

(** Once [GetClientByID] has returned nil for a client, the server's call
    methods fail for it with "client ... is not connected" and change
    nothing, at any later instant and whatever happens in between (time
    passing, frames read, pings handled, connections turned away), until a
    [ServeConn] registers the id again: a [Ping] renews [lastPing] only,
    and does not bring a dropped client back. *)
Theorem dropped_client_stays_unreachable st acts st' clientID :
  fst (GetClientByID (clock st) clientID (server st)) = None ->
  forallb (fun a => negb (registers a)) acts = true ->
  run (AGet clientID :: acts) st = Some st' ->
  forall now,
    Call now clientID (server st') = (inl (not_connected clientID), server st')
    /\ CallWithResult now clientID (server st') = (inl (not_connected clientID), server st')
    /\ CallAsync now clientID (server st') = (inl (not_connected clientID), server st')
    /\ CallAsyncWithResult now clientID (server st')
       = (inl (not_connected clientID), server st').
Proof.
  intros Hnil Hall Hrun now.
  assert (clients (server st') !! clientID = None) as Hnone.
  { change (run (AGet clientID :: acts) st) with
      (run acts (set_server (snd (GetClientByID (clock st) clientID (server st))) st)) in Hrun.
    eapply (run_clients_absent acts); [exact Hall| |exact Hrun]. simpl.
    revert Hnil. unfold GetClientByID.
    repeat case_match; simpl; try done; intros _; apply lookup_delete_eq. }
  unfold Call, CallWithResult, CallAsync, CallAsyncWithResult, GetClientByID.
  rewrite Hnone. done.
Qed.

Lemma dropped_client_stays_unreachable_witness :
  let st := default (init accept_all) (run silent_acts (init accept_all)) in
  let st' := default st (run (AGet "client42" :: late_ping_acts) st) in
  Call (42 * Second) "client42" (server st')
  = (inl (not_connected "client42"), server st')
  /\ CallWithResult (42 * Second) "client42" (server st')
     = (inl (not_connected "client42"), server st')
  /\ CallAsync (42 * Second) "client42" (server st')
     = (inl (not_connected "client42"), server st')
  /\ CallAsyncWithResult (42 * Second) "client42" (server st')
     = (inl (not_connected "client42"), server st').
Proof.
  apply (dropped_client_stays_unreachable
           (default (init accept_all) (run silent_acts (init accept_all)))
           late_ping_acts _ "client42").
  - vm_compute. reflexivity.
  - reflexivity.
  - vm_compute. reflexivity.
Defined.

(** In the state that schedule ends in, the dropped client's last ping is
    recorded again and the client is in [clients] no more. *)
Example ping_after_drop :
  let st := default (init accept_all) (run silent_acts (init accept_all)) in
  let st' := default st (run (AGet "client42" :: late_ping_acts) st) in
  lastPing (server st') = {[ "client42"%string := 41 * Second ]}
  /\ clients (server st') = ∅.
Proof. cbv zeta. repeat apply conj; vm_compute; reflexivity. Qed.


(** *** Whose heartbeat is recorded *)

Lemma pings_elem c evs c' ctx :
  (c', ctx) ∈ pings c evs -> c' = c /\ exists fn, Conn.EvDispatch fn ctx ∈ evs.
Proof.
  induction evs as [|e evs IH]; simpl; intros H.
  - by apply elem_of_nil in H.
  - destruct e;
      try (destruct (IH H) as [-> [fn Hfn]]; split; [done|]; exists fn;
           by apply elem_of_cons; right).
    case_decide.
    + apply elem_of_cons in H as [H|H].
      * simplify_eq. split; [done|]. eexists. apply elem_of_cons. by left.
      * destruct (IH H) as [-> [fn' Hfn]]. split; [done|]. exists fn'.
        apply elem_of_cons. by right.
    + destruct (IH H) as [-> [fn' Hfn]]. split; [done|]. exists fn'.
      apply elem_of_cons. by right.
Qed.

Lemma elem_of_without {A} (l : list A) k x :
  x ∈ take k l ++ drop (S k) l -> x ∈ l.
Proof.
  intros H. rewrite <- (take_drop k l).
  apply elem_of_app in H as [H|H]; apply elem_of_app; [by left|right].
  rewrite <- (take_drop 1 (drop k l)), drop_drop. apply elem_of_app. right.
  by replace (k + 1)%nat with (S k) by lia.
Qed.

Lemma exec_vetted_conn auth a st st' :
  vetted auth st -> exec a st = Some st' ->
  forall c p cs, serving st' !! c = Some p -> conns st' !! c = Some cs ->
    match p with
    | SAuthenticated neg | SReady neg | SRunning neg | SCleaned neg =>
        Conn.clientID (Conn.conn cs) = ClientID neg
    | SClosed => True
    end.
Proof.
  intros (Hid & Hdisp & Hlp) H c0 p cs0.
  destruct a; SrvFacts.srv_inv H; simpl; SrvFacts.map_cases;
    intros; simplify_eq; simpl; eauto.
  all: try (match goal with
            | Hs : serving _ !! ?c = Some _, Hc : conns _ !! ?c = Some _ |- _ =>
                pose proof (Hid _ _ _ Hs Hc) as Hk; simpl in Hk
            end).
  all: try done.
  all: try (unfold Conn.EnableCompression; case_match; simpl; done).
  all: try (rewrite DeliveryFacts.Send_clientID; done).
  all: try (match goal with
            | Hx : Conn.exec _ _ = Some _ |- _ =>
                rewrite (DeliveryFacts.exec_clientID _ _ _ _ Hx); done
            end).
Qed.


Lemma exec_vetted_dispatched auth a st st' :
  registered auth st -> vetted auth st -> exec a st = Some st' ->
  forall c ctx, (c, ctx) ∈ dispatched st' -> accepted auth (Ctx.ClientID ctx).
Proof.
  intros (Hauth & Hdom & Hpass & Hreg) (Hid & Hdisp & Hlp) H c0 ctx.
  destruct a; SrvFacts.srv_inv H; simpl; eauto.
  - intros Hin. apply elem_of_app in Hin as [Hin|Hin]; [eauto|].
    apply pings_elem in Hin as [-> [fn Hfn]].
    match goal with
    | Hx : Conn.exec _ _ = Some _ |- _ =>
        rewrite (DeliveryFacts.exec_dispatch_clientID _ _ _ _ _ _ Hx Hfn)
    end.
    match goal with
    | Hs : serving _ !! ?c = Some _, Hc : conns _ !! ?c = Some _ |- _ =>
        rewrite (Hid _ _ _ Hs Hc); destruct (Hpass _ _ Hs) as [_ Hok]
    end.
    eexists. exact Hok.
  - intros Hin. apply elem_of_app in Hin as [Hin|Hin]; [eauto|].
    apply pings_elem in Hin as [-> [fn Hfn]].
    match goal with
    | Hx : Conn.exec _ _ = Some _ |- _ =>
        rewrite (DeliveryFacts.exec_dispatch_clientID _ _ _ _ _ _ Hx Hfn)
    end.
    match goal with
    | Hs : serving _ !! ?c = Some _, Hc : conns _ !! ?c = Some _ |- _ =>
        rewrite (Hid _ _ _ Hs Hc); destruct (Hpass _ _ Hs) as [_ Hok]
    end.
    eexists. exact Hok.
  - intros Hin. apply elem_of_without in Hin. eauto.
  - injection H as <-. simpl. eauto.
Qed.

Lemma exec_vetted_lastPing auth a st st' :
  registered auth st -> vetted auth st -> exec a st = Some st' ->
  forall clientID, is_Some (lastPing (server st') !! clientID) -> accepted auth clientID.
Proof.
  intros (Hauth & Hdom & Hpass & Hreg) (Hid & Hdisp & Hlp) H clientID.
  destruct a; SrvFacts.srv_inv H; simpl; eauto.
  - SrvFacts.map_cases; eauto. intros _. eexists. eassumption.
  - SrvFacts.map_cases; eauto.
  - SrvFacts.map_cases; eauto. intros _.
    match goal with
    | Hk : dispatched _ !! _ = Some _ |- _ =>
        apply list_elem_of_lookup_2 in Hk; eauto
    end.
  - injection H as <-. simpl.
    destruct (SrvFacts.GetClientByID_server (clock st) clientID0 (server st)) as [->| ->];
      simpl; [eauto|].
    SrvFacts.map_cases; eauto.
Qed.

Lemma exec_vetted auth a st st' :
  registered auth st /\ vetted auth st -> exec a st = Some st' ->
  registered auth st' /\ vetted auth st'.
Proof.
  intros [Hreg Hvet] H. split; [by apply SrvFacts.exec_registered with a st|].
  split; [|split].
  - by apply exec_vetted_conn with auth a st.
  - by apply exec_vetted_dispatched with a st.
  - by apply exec_vetted_lastPing with a st.
Qed.

Lemma vetted_init auth : vetted auth (init auth).
Proof.
  split; [|split]; simpl.
  - intros c p cs. by rewrite lookup_empty.
  - intros c ctx H. by apply elem_of_nil in H.
  - intros clientID. rewrite lookup_empty. by intros [x Hx].
Qed.

(** In every state the server reaches, an id with a recorded last ping or
    an entry in [clients] is an id that [authFunc] accepted with some code:
    [ServeConn] stores an id only after [authFunc] passed it, and
    [handlePing] records the ping under the id its connection was
    authenticated as, whatever the [Ping] request carries. *)
Theorem registry_only_accepted_ids auth acts st clientID :
  run acts (init auth) = Some st ->
  is_Some (lastPing (server st) !! clientID) \/ is_Some (clients (server st) !! clientID) ->
  accepted auth clientID.
Proof.
  intros Hrun Hin.
  assert (registered auth st /\ vetted auth st) as [Hreg Hvet].
  { apply (SrvFacts.run_inv (fun s => registered auth s /\ vetted auth s))
      with acts (init auth); [|split|done].
    - intros a s s'. apply exec_vetted.
    - apply SrvFacts.registered_init.
    - apply vetted_init. }
  destruct Hin as [Hin|[c Hc]].
  - destruct Hvet as (_ & _ & Hlp). by apply Hlp.
  - destruct Hreg as (_ & _ & Hpass & Hcl).
    destruct (Hcl _ _ Hc) as (p & Hp & Hmatch).
    specialize (Hpass _ _ Hp).
    destruct p; try done; destruct Hpass as [_ Hok]; subst; eexists; exact Hok.
Qed.

Lemma registry_only_accepted_ids_witness : accepted accept_all "client42".
Proof.
  apply (registry_only_accepted_ids accept_all silent_acts
           (default (init accept_all) (run silent_acts (init accept_all))) "client42").
  - exact SrvFacts.silent_run.
  - left. vm_compute. eauto.
Defined.

End HeartbeatFacts.

(** ** A call and its answer *)

Module ExchangeFacts.
Import Msg Conn ConnInv ConnObs Exchange.

(** A round of the running read loop that gets the frame [msg] hands it to
    [handleMessage], on the connection as it is or with the gzip reader
    set up. *)
Lemma round_with_frame msg io st :
  reader st = Running ->
  exists st1,
    exec (ARead (mkRead true (Some msg)) io) st = handleMessage io msg st1
    /\ chans st1 = chans st /\ calls st1 = calls st /\ reader st1 = Running
    /\ pending (conn st1) = pending (conn st)
    /\ handlers (conn st1) = handlers (conn st)
    /\ clientID (conn st1) = clientID (conn st)
    /\ wire (conn st1) = wire (conn st)
    /\ (flushed (conn st) -> flushed (conn st1)).
Proof.
  intros Hr. simpl. unfold readLoop_round. rewrite Hr. simpl.
  rewrite andb_false_r. simpl.
  destruct (useCompression (conn st) && negb (gzReader (conn st))).
  - eexists. split; [reflexivity|]. simpl. do 7 (split; [done|]).
    intros Hfl. exact Hfl.
  - exists st. do 8 (split; [done|]). done.
Qed.

Lemma serve_writes_reply handler req st :
  flushed (conn st) -> reader st = Running -> Type_ req = RequestType ->
  exists st1 evs,
    serve handler req io_ok st = Some (st1, evs)
    /\ wire (conn st1) = wire (conn st) ++ [reply handler (conn st) req]
    /\ reader st1 = Running.
Proof.
  intros Hfl Hr Hty. unfold serve.
  destruct (round_with_frame req io_ok st Hr)
    as (st0 & -> & Hch & Hca & Hr0 & Hp & Hh & Hid & Hw & Hfl0).
  specialize (Hfl0 Hfl).
  unfold handleMessage, reply, context_of.
  rewrite decide_False by (rewrite Hty; discriminate).
  rewrite decide_True by done.
  rewrite Hh, Hid.
  destruct (Get (Method req) (handlers (conn st))) as [fn|]; simpl.
  - match goal with
    | |- context [Send io_ok ?m ?c] =>
        destruct (ConnFacts.Send_ok_flushed m c Hfl0) as (Hs & Hw1 & Hf1)
    end.
    eexists _, _. split; [reflexivity|]. simpl. by rewrite Hw1, Hw.
  - match goal with
    | |- context [Send io_ok ?m ?c] =>
        destruct (ConnFacts.Send_ok_flushed m c Hfl0) as (Hs & Hw1 & Hf1)
    end.
    eexists _, _. split; [reflexivity|]. simpl. by rewrite Hw1, Hw.
Qed.

Lemma response_completes_call msg id c st :
  wf st -> reader st = Running ->
  calls st !! id = Some c -> kind c = Blocking -> pc c = PcWaiting ->
  pending (conn st) !! id = Some (ch c) ->
  Type_ msg = ResponseType -> ID msg = id ->
  exists st2,
    run [ARead (mkRead true (Some msg)) io_ok; ASelectRecv id] st
    = Some (st2, [EvInboxWrite id msg; EvReturn id (call_outcome msg)])
    /\ pending (conn st2) !! id = None.
Proof.
  intros [Hp _ _] Hr Hc Hk Hpc Hpe Hty Hid.
  destruct (Hp _ _ Hpe) as (c' & Hc' & _ & Hbuf & _).
  unfold run.
  destruct (round_with_frame msg io_ok st Hr)
    as (st0 & -> & Hch & Hca & Hr0 & Hp0 & _).
  unfold handleMessage. rewrite decide_True by done.
  rewrite Hp0, Hid, Hpe, Hch, Hbuf. simpl.
  rewrite Hca, Hc. simpl. rewrite Hpc, lookup_insert_eq, Hk. simpl.
  eexists. split; [reflexivity|]. simpl. rewrite Hp0. apply lookup_delete_eq.
Qed.


Lemma reply_header handler callee req :
  Type_ (reply handler callee req) = ResponseType
  /\ ID (reply handler callee req) = ID req.
Proof.
  unfold reply. destruct (Get (Method req) (handlers callee)) as [fn|]; [|done].
  destruct (handler fn (context_of callee req)); done.
Qed.

Lemma call_outcome_reply transfer handler callee req :
  keeps_header transfer ->
  call_outcome (transfer (reply handler callee (transfer req)))
  = expected transfer handler callee req.
Proof.
  intros Hk. unfold call_outcome, expected, reply.
  destruct (Hk req) as (_ & _ & -> & _).
  destruct (Get (Method req) (handlers callee)) as [fn|].
  - destruct (handler fn (context_of callee (transfer req))) as [v|code m]; simpl.
    + destruct (Hk (Ctx.response_msg (context_of callee (transfer req)) v))
        as (_ & _ & _ & -> & _). done.
    + destruct (Hk (Ctx.error_msg (context_of callee (transfer req)) code m))
        as (_ & _ & _ & -> & ->). done.
  - destruct (Hk (Ctx.error_msg (context_of callee (transfer req)) 404 "method not found"))
      as (_ & _ & _ & -> & ->). done.
Qed.

(** A call and its answer.  The caller's connection has stored the entry
    of a blocking call and both transports take what is written.  Then
    [Send] puts the request on the caller's wire; the callee's read loop,
    given the request as its decoder yields it, dispatches the handler
    registered for the method, whose [WriteResponse] or [WriteError] puts
    one response with the request's id on the callee's wire, or, with no
    handler, the loop itself writes the 404 error; and the caller's read
    loop, given that response, delivers it to the call, whose [Call]
    returns the handler's result as the codec hands it over, or a
    [ResponseError] with the handler's code and message, or with 404 and
    "method not found"; the entry has left the pending table. *)
Theorem call_round_trip transfer handler id c sta stb :
  keeps_header transfer ->
  wf sta -> flushed (conn sta) -> reader sta = Running ->
  flushed (conn stb) -> reader stb = Running ->
  calls sta !! id = Some c -> kind c = Blocking -> pc c = PcRegistered ->
  pending (conn sta) !! id = Some (ch c) ->
  exists sta1 stb1 evs sta2,
    exec (ASendRequest id io_ok) sta = Some (sta1, [EvSend (request_msg id c) None])
    /\ wire (conn sta1) = wire (conn sta) ++ [request_msg id c]
    /\ serve handler (transfer (request_msg id c)) io_ok stb = Some (stb1, evs)
    /\ wire (conn stb1)
       = wire (conn stb) ++ [reply handler (conn stb) (transfer (request_msg id c))]
    /\ run [ARead (mkRead true
                     (Some (transfer (reply handler (conn stb) (transfer (request_msg id c))))))
              io_ok;
            ASelectRecv id] sta1
       = Some (sta2,
               [EvInboxWrite id (transfer (reply handler (conn stb) (transfer (request_msg id c))));
                EvReturn id (expected transfer handler (conn stb) (request_msg id c))])
    /\ pending (conn sta2) !! id = None.
Proof.
  intros Hk Hwf Hfla Hra Hflb Hrb Hc Hkind Hpc Hpe.
  destruct (ConnFacts.Send_ok_flushed (request_msg id c) (conn sta) Hfla) as (Hs & Hw & Hf).
  pose proof (ConnFacts.Send_pending io_ok (request_msg id c) (conn sta)) as Hsp.
  assert (exec (ASendRequest id io_ok) sta
          = Some (set_call id (set_pc PcWaiting c)
                    (set_conn (fst (Send io_ok (request_msg id c) (conn sta))) sta),
                  [EvSend (request_msg id c) None])) as Hex.
  { simpl. rewrite Hc, Hpc.
    destruct (Send io_ok (request_msg id c) (conn sta)) as [c1 err]. simpl in *.
    by injection Hs as ->. }
  pose proof (ConnFacts.exec_wf _ _ _ _ Hwf Hex) as Hwf1.
  destruct (serve_writes_reply handler (transfer (request_msg id c)) stb Hflb Hrb)
    as (stb1 & evs & Hserve & Hwb & _).
  { by destruct (Hk (request_msg id c)) as (-> & _). }
  destruct (reply_header handler (conn stb) (transfer (request_msg id c))) as [Hty Hid].
  destruct (Hk (reply handler (conn stb) (transfer (request_msg id c))))
    as (Hty' & Hid' & _).
  destruct (Hk (request_msg id c)) as (_ & Hidq & _).
  destruct (response_completes_call
              (transfer (reply handler (conn stb) (transfer (request_msg id c))))
              id (set_pc PcWaiting c) _ Hwf1) as (sta2 & Hrun & Hgone).
  { exact Hra. }
  { simpl. apply lookup_insert_eq. }
  { exact Hkind. }
  { reflexivity. }
  { simpl. rewrite Hsp. exact Hpe. }
  { by rewrite Hty'. }
  { by rewrite Hid', Hid, Hidq. }
  eexists. exists stb1, evs, sta2.
  split; [exact Hex|]. split; [exact Hw|]. split; [exact Hserve|]. split; [exact Hwb|].
  split; [|exact Hgone].
  rewrite Hrun. by rewrite (call_outcome_reply _ _ _ _ Hk).
Qed.

(** The test suite's [Echo] call, with a codec that hands every frame over
    as it was written. *)
Lemma call_round_trip_witness :
  exists sta1 stb1 evs sta2,
    exec (ASendRequest "a" io_ok) test_caller
    = Some (sta1, [EvSend (request_msg "a" (mkCall Blocking 0%nat "Echo"
                                              {[ "text"%string := AString "hi" ]}
                                              PcRegistered false)) None])
    /\ wire (conn sta1)
       = wire (conn test_caller)
         ++ [request_msg "a" (mkCall Blocking 0%nat "Echo"
                                {[ "text"%string := AString "hi" ]} PcRegistered false)]
    /\ serve test_handler
         (id (request_msg "a" (mkCall Blocking 0%nat "Echo"
                                 {[ "text"%string := AString "hi" ]} PcRegistered false)))
         io_ok (init test_callee) = Some (stb1, evs)
    /\ wire (conn stb1)
       = wire (conn (init test_callee))
         ++ [reply test_handler (conn (init test_callee))
               (id (request_msg "a" (mkCall Blocking 0%nat "Echo"
                                       {[ "text"%string := AString "hi" ]}
                                       PcRegistered false)))]
    /\ run [ARead (mkRead true
                     (Some (id (reply test_handler (conn (init test_callee))
                                  (id (request_msg "a"
                                         (mkCall Blocking 0%nat "Echo"
                                            {[ "text"%string := AString "hi" ]}
                                            PcRegistered false)))))))
              io_ok;
            ASelectRecv "a"] sta1
       = Some (sta2,
               [EvInboxWrite "a"
                  (id (reply test_handler (conn (init test_callee))
                         (id (request_msg "a"
                                (mkCall Blocking 0%nat "Echo"
                                   {[ "text"%string := AString "hi" ]}
                                   PcRegistered false)))));
                EvReturn "a"
                  (expected id test_handler (conn (init test_callee))
                     (request_msg "a" (mkCall Blocking 0%nat "Echo"
                                         {[ "text"%string := AString "hi" ]}
                                         PcRegistered false)))])
    /\ pending (conn sta2) !! "a" = None.
Proof.
  apply (call_round_trip id test_handler "a"
           (mkCall Blocking 0%nat "Echo" {[ "text"%string := AString "hi" ]} PcRegistered false)
           test_caller (init test_callee)).
  - intros m. repeat split.
  - apply (ConnFacts.run_wf
             [ACall Blocking "a" 0%nat "Echo" {[ "text"%string := AString "hi" ]}]
             (init (EnableCompression NewConnection)) _ []).
    + by apply ConnFacts.wf_init.
    + vm_compute. reflexivity.
  - repeat split; done.
  - reflexivity.
  - repeat split; done.
  - reflexivity.
  - vm_compute. reflexivity.
  - reflexivity.
  - reflexivity.
  - vm_compute. reflexivity.
Defined.

(** What the calls of the test suite return: [Echo] its parameter, [Divide]
    the error 44, a method that is not registered the error 404. *)
Example round_trip_outcomes :
  let call m := mkCall Blocking 0%nat m {[ "text"%string := AString "hi" ]} PcRegistered false in
  expected id test_handler test_callee (request_msg "a" (call "Echo"))
  = OResult (AString "hi")
  /\ expected id test_handler test_callee (request_msg "a" (call "Divide"))
     = OResponseError 44 "division by zero"
  /\ expected id test_handler test_callee (request_msg "a" (call "Nope"))
     = OResponseError 404 "method not found".
Proof. cbv zeta. repeat apply conj; vm_compute; reflexivity. Qed.

End ExchangeFacts.

(** ** Properties of the auto-client's [Start] and reconnect loop *)

Module ReconnectFacts.
Import Msg GoTime Auto Reconnect.

Lemma connectOnce_succeeds c io st :
  snd (connectOnce c io st) = None <-> succeeds io = true.
Proof.
  unfold connectOnce, succeeds.
  destruct (dial_ok io), (send_ok io), (received io) as [resp|]; simpl; try done.
  destruct (decide (NType resp = AuthOKType)) as [Hty|Hty]; simpl.
  - by rewrite bool_decide_eq_true_2.
  - by rewrite bool_decide_eq_false_2.
Qed.

(** *** [Start] *)

(** [Start] on a client that is not connected.  It returns nil only when
    the first attempt succeeded within the five seconds; the reconnect loop
    is started exactly when the first attempt succeeds, and then the client
    is connected.  When the first attempt fails the client is as it was,
    not connected, and no loop runs: nothing retries.  When the attempt
    succeeds after the five seconds, [Start] has returned the timeout error
    although the client is connected and its loop runs. *)
Theorem Start_outcomes c io in_time st st' err looping :
  Load (client st) = None ->
  Start c io in_time st = (st', err, looping) ->
  (err = None <-> in_time = true /\ succeeds io = true)
  /\ (looping = true <-> succeeds io = true)
  /\ (looping = true <-> IsConnected (client st') = true)
  /\ (looping = false -> st' = st)
  /\ (in_time = false -> err = Some "initial connection timeout"%string).
Proof.
  intros Hload. unfold Start. intros Heq. injection Heq as <- <- <-.
  destruct (snd (connectOnce c io st)) as [e|] eqn:Herr.
  - assert (succeeds io = false) as Hs.
    { destruct (succeeds io) eqn:Hs; [|done].
      apply (connectOnce_succeeds c io st) in Hs. congruence. }
    rewrite (AutoFacts.connectOnce_error _ _ _ _ Herr).
    unfold IsConnected. rewrite Hload, Hs.
    destruct in_time; repeat split; try done; by intros [? ?].
  - assert (succeeds io = true) as Hs by (by apply (connectOnce_succeeds c io st)).
    destruct (AutoFacts.connectOnce_stores _ _ _ Herr) as (Hslot & _ & _).
    unfold IsConnected, Load. rewrite Hslot, Hs.
    destruct in_time; repeat split; try done; by intros [? ?].
Qed.

Lemma Start_outcomes_witness :
  (Some "initial connection timeout"%string = None
   <-> false = true /\ succeeds (mkConnect true true (Some auth_ok)) = true)
  /\ (true = true <-> succeeds (mkConnect true true (Some auth_ok)) = true)
  /\ (true = true
      <-> IsConnected
            (client (fst (connectOnce 0%nat (mkConnect true true (Some auth_ok))
                            (init client42)))) = true)
  /\ (true = false
      -> fst (connectOnce 0%nat (mkConnect true true (Some auth_ok)) (init client42))
         = init client42)
  /\ (false = false
      -> Some "initial connection timeout"%string
         = Some "initial connection timeout"%string).
Proof.
  apply (Start_outcomes 0%nat (mkConnect true true (Some auth_ok)) false (init client42));
    reflexivity.
Defined.

(** The three cases for the client of the test suite: what [Start]
    returns, whether the loop is started, and whether the client is
    connected afterwards. *)
Example Start_cases :
  let view (r : State * option string * bool) :=
    (snd (fst r), snd r, IsConnected (client (fst (fst r)))) in
  view (Start 0%nat (mkConnect true true (Some auth_ok)) true (init client42))
  = (None, true, true)
  /\ view (Start 0%nat (mkConnect false false None) true (init client42))
     = (Some "dial"%string, false, false)
  /\ view (Start 0%nat (mkConnect true true (Some auth_ok)) false (init client42))
     = (Some "initial connection timeout"%string, true, true).
Proof. cbv zeta. repeat apply conj; vm_compute; reflexivity. Qed.


(** *** The reconnect loop *)

Lemma backoffDuration_bounds n :
  1 <= n <= 33 ->
  Backoff.backoffDuration n = Some (Backoff.spec_delay n)
  /\ 2 * Second <= Backoff.spec_delay n <= 3 * Minute.
Proof.
  intros Hn. split.
  - unfold Backoff.backoffDuration, Backoff.spec_delay.
    rewrite (Int64Facts.wrap_small (n - 1))
      by (unfold Int64.in_range, Int64.min_int, Int64.max_int; lia).
    destruct (Z.ltb_spec (n - 1) 0) as [?|_]; [lia|].
    rewrite BackoffFacts.shl_base_exact by lia.
    destruct (Z.ltb_spec (3 * Minute) (2 ^ (n - 1) * (2 * Second))); f_equal; lia.
  - unfold Backoff.spec_delay.
    assert (1 <= 2 ^ (n - 1)) by (apply (Z.pow_le_mono_r 2 0 (n - 1)); lia).
    unfold Minute, Second. lia.
Qed.

(** The delays of the reconnect loop.  As long as no more than 33 attempts
    fail in a row, the loop sleeps once after every failed attempt and not
    at all after a successful one, and the sleep after the k-th failure in
    a row lasts min(2^(k-1) * 2s, 3min), between two seconds and three
    minutes: a success sets the count back, so the failure after it is
    followed by two seconds again. *)
Theorem loop_delays outcomes n :
  1 <= n ->
  within 33 outcomes n = true ->
  Backoff.loop outcomes n = Some (spec_delays outcomes n)
  /\ Forall (fun d => 2 * Second <= d <= 3 * Minute) (spec_delays outcomes n)
  /\ length (spec_delays outcomes n) = length (List.filter negb outcomes).
Proof.
  revert n. induction outcomes as [|[|] outcomes IH]; intros n Hn Hw; simpl in *.
  - done.
  - apply (IH 1); [lia|done].
  - apply andb_true_iff in Hw as [Hle Hw]. apply Z.leb_le in Hle.
    destruct (backoffDuration_bounds n) as [-> Hb]; [lia|].
    rewrite (Int64Facts.wrap_small (n + 1))
      by (unfold Int64.in_range, Int64.min_int, Int64.max_int; lia).
    destruct (IH (n + 1)) as (-> & Hall & Hlen); [lia|done|].
    split; [done|]. split; [by constructor|]. by rewrite Hlen.
Qed.

Lemma loop_delays_witness :
  Backoff.loop [false; false; true; false] 1
  = Some (spec_delays [false; false; true; false] 1)
  /\ Forall (fun d => 2 * Second <= d <= 3 * Minute)
       (spec_delays [false; false; true; false] 1)
  /\ length (spec_delays [false; false; true; false] 1)
     = length (List.filter negb [false; false; true; false]).
Proof. apply (loop_delays [false; false; true; false] 1); [lia|reflexivity]. Defined.

Example loop_delays_example :
  spec_delays [false; false; true; false] 1 = [2 * Second; 4 * Second; 2 * Second].
Proof. reflexivity. Qed.


Lemma connectOnce_success c io st :
  succeeds io = true ->
  exists k,
    connectOnce c io st
    = ({| client := Store c (client st); conns := <[c := Conn.init k]> (conns st);
          ready := ready st ++ [c] |}, None)
    /\ Conn.handlers k = handlers (client st)
    /\ Conn.clientID k = ""%string
    /\ Conn.pending k = ∅.
Proof.
  unfold succeeds, connectOnce.
  destruct (dial_ok io), (send_ok io), (received io) as [resp|]; simpl; try done.
  intros Hty. apply bool_decide_eq_true_1 in Hty. rewrite decide_True by done.
  eexists. split; [reflexivity|]. simpl.
  destruct (UseCompression resp); done.
Qed.




(** Three turns of the loop with the server answering: three connections,
    no sleep, the last connection in the slot. *)
Example loop_three_connections :
  spec_delays (outcomes three_attempts) 1 = []
  /\ made three_attempts = [0%nat; 1%nat; 2%nat]
  /\ option_map (fun r => (Load (client (fst r)), snd r)) (loop three_attempts 1 (init client42))
     = Some (Some 2%nat, []).
Proof. cbv zeta. repeat apply conj; vm_compute; reflexivity. Qed.


(** *** The connection that a reconnect replaces *)

(** A successful attempt stores the new connection in the slot and leaves
    every connection made before as it was: [connectOnce] does not close
    the connection it replaces.  The goroutines of an older connection take
    the same steps with the same events as before, its calls in flight
    among them, while the calls made through the client from now on go to
    the new connection. *)
Theorem reconnect_keeps_old_connection c io st c' cs :
  conns st !! c = None ->
  succeeds io = true ->
  conns st !! c' = Some cs ->
  exists st',
    exec (AConnect c io) st = Some (st', [EvConnect c None])
    /\ conns st' !! c' = Some cs
    /\ Load (client st') = Some c
    /\ c <> c'
    /\ (forall a, option_map snd (exec (AConn c' a) st') = option_map snd (exec (AConn c' a) st))
    /\ (forall k id r m params,
          exec (ACallVia k id r m params) st'
          = conn_step c (Conn.ACall k id r m params) st').
Proof.
  intros Hfresh Hs Hc'.
  destruct (connectOnce_success c io st Hs) as (k & Hco & _).
  assert (c <> c') as Hne by (intros ->; congruence).
  eexists. simpl. rewrite Hfresh, Hco. simpl. split; [reflexivity|]. simpl.
  split; [by rewrite lookup_insert_ne|]. split; [done|]. split; [done|].
  split.
  - intros a. unfold conn_step. simpl. rewrite lookup_insert_ne, Hc' by done.
    by destruct (Conn.exec a cs) as [[cs' evs]|].
  - intros kd i r m params. unfold Call, CallAsync, Load. simpl. by destruct kd.
Qed.

Lemma reconnect_keeps_old_connection_witness :
  let st := fst (connectOnce 0%nat (mkConnect true true (Some auth_ok)) (init client42)) in
  exists st',
    exec (AConnect 1%nat (mkConnect true true (Some auth_ok))) st
    = Some (st', [EvConnect 1%nat None])
    /\ conns st' !! 0%nat = Some (Conn.init (Conn.EnableCompression Conn.NewConnection))
    /\ Load (client st') = Some 1%nat
    /\ 1%nat <> 0%nat
    /\ (forall a, option_map snd (exec (AConn 0%nat a) st')
                  = option_map snd (exec (AConn 0%nat a) st))
    /\ (forall k id r m params,
          exec (ACallVia k id r m params) st'
          = conn_step 1%nat (Conn.ACall k id r m params) st').
Proof.
  apply (reconnect_keeps_old_connection 1%nat (mkConnect true true (Some auth_ok))
           (fst (connectOnce 0%nat (mkConnect true true (Some auth_ok)) (init client42)))
           0%nat (Conn.init (Conn.EnableCompression Conn.NewConnection)));
    reflexivity.
Defined.

(** *** What a handler on the client's side is given *)

Lemma exec_handlers a st st' evs :
  Conn.exec a st = Some (st', evs) ->
  Conn.handlers (Conn.conn st') = Conn.handlers (Conn.conn st).
Proof.
  intros H. destruct a; ConnFacts.exec_inv H; rewrite ?ConnFacts.Send_handlers; done.
Qed.

Lemma exec_dispatch_registered a st st' evs fn ctx :
  Conn.exec a st = Some (st', evs) -> Conn.EvDispatch fn ctx ∈ evs ->
  exists method, Conn.handlers (Conn.conn st) !! method = Some (Some fn).
Proof.
  intros H He. destruct a; ConnFacts.exec_inv H;
    repeat (apply elem_of_cons in He as [He|He]; simplify_eq/=; try done);
    try (by apply elem_of_nil in He).
  all: match goal with
       | Hg : Conn.Get ?m ?h = Some _ |- _ =>
           exists m; unfold Conn.Get in Hg; destruct (h !! m) as [hf|]; simpl in Hg;
           by simplify_eq
       end.
Qed.

Lemma conn_step_plain ac c a st st' evs :
  plain_conns ac st -> conn_step c a st = Some (st', evs) ->
  plain_conns ac st' /\ forall e, e ∈ evs -> plain_dispatch ac e.
Proof.
  intros [Hh Hconns] H. unfold conn_step in H.
  destruct (conns st !! c) as [cs|] eqn:Hc; [|done].
  destruct (Conn.exec a cs) as [[cs' es]|] eqn:Ha; [|done].
  injection H as <- <-.
  destruct (Hconns _ _ Hc) as [Hid Hhs].
  split.
  - split; [done|]. simpl. intros c0 cs0. rewrite lookup_insert. case_decide.
    + intros Heq. simplify_eq.
      rewrite (DeliveryFacts.exec_clientID _ _ _ _ Ha), (exec_handlers _ _ _ _ Ha). done.
    + apply Hconns.
  - intros e He. apply list_elem_of_In, in_map_iff in He as (e0 & <- & He0).
    apply list_elem_of_In in He0.
    destruct e0; try done. simpl. split.
    + by rewrite (DeliveryFacts.exec_dispatch_clientID _ _ _ _ _ _ Ha He0).
    + destruct (exec_dispatch_registered _ _ _ _ _ _ Ha He0) as [m Hm].
      exists m. by rewrite <- Hhs.
Qed.

Lemma exec_plain ac a st st' evs :
  plain_conns ac st -> exec a st = Some (st', evs) ->
  plain_conns ac st' /\ forall e, e ∈ evs -> plain_dispatch ac e.
Proof.
  intros Hpl H. destruct a as [c io|c a|k i r m params]; simpl in H.
  - destruct (conns st !! c) eqn:Hc; [done|]. injection H as <- <-.
    split.
    + destruct Hpl as [Hh Hconns].
      destruct (snd (connectOnce c io st)) as [err|] eqn:Herr.
      * by rewrite (AutoFacts.connectOnce_error _ _ _ _ Herr).
      * apply connectOnce_succeeds in Herr.
        destruct (connectOnce_success c io st Herr) as (k & -> & Hk & Hid & _). simpl.
        split; [done|]. simpl. intros c0 cs0. rewrite lookup_insert. case_decide.
        -- intros Heq. simplify_eq. simpl. by rewrite Hk, Hh.
        -- apply Hconns.
    + intros e He. apply elem_of_cons in He as [->|He]; [done|]. by apply elem_of_nil in He.
  - by apply conn_step_plain with c a st.
  - destruct k; simpl in H.
    + destruct (Call (client st)); [|by eapply conn_step_plain].
      injection H as <- <-. split; [done|].
      intros e He. apply elem_of_cons in He as [->|He]; [done|]. by apply elem_of_nil in He.
    + destruct (CallAsync (client st)); [|by eapply conn_step_plain].
      injection H as <- <-. split; [done|].
      intros e He. apply elem_of_cons in He as [->|He]; [done|]. by apply elem_of_nil in He.
Qed.

(** Every handler that a connection of the auto-client dispatches is one
    registered with the client before it connected, and the context it is
    given has an empty client id: [connectOnce] hands the client's handlers
    to the connection and sets no [clientID]. *)
Theorem client_side_dispatch ac acts st tr c fn ctx :
  run acts (init ac) = Some (st, tr) ->
  EvConn c (Conn.EvDispatch fn ctx) ∈ tr ->
  Ctx.ClientID ctx = ""%string
  /\ exists method, handlers ac !! method = Some (Some fn).
Proof.
  intros Hrun Hin.
  assert (forall acts0 st0 st1 tr1,
            plain_conns ac st0 -> run acts0 st0 = Some (st1, tr1) ->
            forall e, e ∈ tr1 -> plain_dispatch ac e) as Hall.
  { induction acts0 as [|a acts0 IH]; intros st0 st1 tr1 Hpl Hr e He; simpl in Hr.
    - injection Hr as <- <-. by apply elem_of_nil in He.
    - destruct (exec a st0) as [[s1 evs1]|] eqn:Ha; [|done].
      destruct (run acts0 s1) as [[s2 evs2]|] eqn:Hr2; [|done].
      injection Hr as <- <-.
      destruct (exec_plain _ _ _ _ _ Hpl Ha) as [Hpl1 Hev1].
      apply elem_of_app in He as [He|He]; [by apply Hev1|].
      by apply (IH s1 s2 evs2). }
  apply (Hall acts (init ac) st tr) with (e := EvConn c (Conn.EvDispatch fn ctx));
    [|done..].
  split; [done|]. intros c0 cs0. simpl. by rewrite lookup_empty.
Qed.

Lemma client_side_dispatch_witness :
  Ctx.ClientID (Ctx.mkContext "" "r1" ∅) = ""%string
  /\ exists method, handlers echo_client !! method = Some (Some 1%nat).
Proof.
  apply (client_side_dispatch echo_client
           [AConnect 0%nat (mkConnect true true (Some auth_ok));
            AConn 0%nat (Conn.ARead (Conn.mkRead true (Some echo_call)) Conn.io_ok)]
           (fst (default (init echo_client, [])
                   (run [AConnect 0%nat (mkConnect true true (Some auth_ok));
                         AConn 0%nat (Conn.ARead (Conn.mkRead true (Some echo_call)) Conn.io_ok)]
                      (init echo_client))))
           [EvConnect 0%nat None;
            EvConn 0%nat (Conn.EvDispatch 1%nat (Ctx.mkContext "" "r1" ∅))]
           0%nat 1%nat (Ctx.mkContext "" "r1" ∅)).
  - vm_compute. reflexivity.
  - apply elem_of_cons. right. apply elem_of_cons. by left.
Defined.

End ReconnectFacts.

(** ** Properties of the handler registry *)

Module HandlerFacts.
Import Msg Conn Registry.

(** [Get] after [Register]: the method registered last reads as the
    function given, in the place of any function registered for it before;
    the other methods read as before; a method never registered, or
    registered with the nil function, reads as nil. *)
Theorem Register_then_Get method fn hr :
  Get method (Register method fn hr) = fn
  /\ (forall other, other <> method -> Get other (Register method fn hr) = Get other hr)
  /\ (forall fn', Register method fn' (Register method fn hr) = Register method fn' hr)
  /\ (forall m, Get m (∅ : gmap string HandlerFunc) = None)
  /\ (fn = None -> Get method (Register method fn hr) = Get method (∅ : gmap string HandlerFunc)).
Proof.
  unfold Get, Register. split; [by rewrite lookup_insert_eq|].
  split; [by intros other Hne; rewrite lookup_insert_ne|].
  split; [intros fn'; apply insert_insert_eq|].
  split; [intros m; by rewrite lookup_empty|].
  intros ->. by rewrite lookup_insert_eq, lookup_empty.
Qed.

(** The two dispatch functions of the registry.  [Handle] does what
    [HandleWithContext] does with the context [Handle] builds (the
    request's id and parameters, no client id), and writes the same 404
    reply for a method that is not registered, but for a method registered
    with the nil function: [HandleWithContext] answers 404 as for a method
    not registered, and [Handle] calls the nil function.  The request
    branch of the read loop is [HandleWithContext] for the context with the
    connection's client id, the handler run in a goroutine. *)
Theorem Handle_and_HandleWithContext io msg hr conn :
  Handle io msg hr conn
  = match hr !! Method msg with
    | Some None => NilCall
    | _ => HandleWithContext io (Ctx.mkContext "" (ID msg) (Params msg)) (Method msg) hr conn
    end
  /\ (hr !! Method msg = Some None ->
      HandleWithContext io (Ctx.mkContext "" (ID msg) (Params msg)) (Method msg) hr conn
      = Replied (fst (Send io (not_found msg) conn)) (snd (Send io (not_found msg) conn)))
  /\ forall st,
       Type_ msg = RequestType ->
       handleMessage io msg st
       = as_step (not_found msg)
           (HandleWithContext io
              (Ctx.mkContext (clientID (Conn.conn st)) (ID msg) (Params msg))
              (Method msg) (handlers (Conn.conn st)) (Conn.conn st))
           st.
Proof.
  split; [|split].
  - unfold Handle, HandleWithContext, Get.
    destruct (hr !! Method msg) as [[f|]|]; done.
  - intros Hnil. unfold HandleWithContext, Get. by rewrite Hnil.
  - intros st Hty. unfold handleMessage, HandleWithContext.
    rewrite decide_False by (rewrite Hty; discriminate).
    rewrite decide_True by done.
    by destruct (Get (Method msg) (handlers (Conn.conn st))).
Qed.

End HandlerFacts.

(** ** Properties of the dialer *)

Module TransportFacts.
Import Transport.

(** [Dial] and the configuration.  A dial that fails at the TCP connection
    or that uses no TLS leaves the dialer and every configuration as they
    were.  A dial with TLS whose TCP connection succeeds works on the
    configuration the dialer points to, or, when the pointer is nil, on a
    new empty one that the dialer points to from then on: it writes the
    dialer's ALPN into [NextProtos] of that configuration, in place and
    before the handshake, so also when the handshake fails (and the TCP
    connection is then closed); the other fields of the configuration, the
    other fields of the dialer and the other configurations stay as they
    were. *)
Theorem Dial_configuration fresh io d h cfg :
  config_at d h = Some cfg ->
  exists out,
    Dial fresh io d h = Some out
    /\ (tcp_ok io && UseTLS d = false -> dialer out = d /\ heap out = h)
    /\ (tcp_ok io && UseTLS d = true ->
        TLSConfig (dialer out) = Some (target fresh d)
        /\ heap out !! target fresh d = Some (mkTLS [ALPN d] (settings cfg))
        /\ (forall r', r' <> target fresh d -> heap out !! r' = h !! r')
        /\ (Timeout (dialer out), UseTLS (dialer out), ALPN (dialer out))
           = (Timeout d, UseTLS d, ALPN d)
        /\ (handshake_ok io = true ->
            result out = inr (OverTLS (target fresh d)) /\ closed out = false)
        /\ (handshake_ok io = false ->
            result out = inl "handshake"%string /\ closed out = true))
    /\ (tcp_ok io = false -> result out = inl "dial"%string /\ closed out = false)
    /\ (tcp_ok io = true -> UseTLS d = false -> result out = inr Plain /\ closed out = false).
Proof.
  unfold config_at, Dial, target. intros Hcfg.
  destruct (TLSConfig d) as [r|] eqn:Hr; simpl.
  - rewrite Hcfg.
    destruct (tcp_ok io), (UseTLS d) eqn:Ht, (handshake_ok io); simpl;
      eexists; (split; [reflexivity|]); simpl; rewrite ?Ht;
      repeat split; try done;
      try (intros r' Hne; by rewrite lookup_insert_ne);
      try apply lookup_insert_eq.
  - injection Hcfg as <-. rewrite lookup_insert_eq.
    destruct (tcp_ok io), (UseTLS d) eqn:Ht, (handshake_ok io); simpl;
      eexists; (split; [reflexivity|]); simpl; rewrite ?Ht;
      repeat split; try done;
      try (intros r' Hne; by rewrite !lookup_insert_ne);
      try apply lookup_insert_eq.
Qed.

Lemma Dial_configuration_witness :
  exists out,
    Dial 1%nat (mkDial true false) dialer_a shared_heap = Some out
    /\ (tcp_ok (mkDial true false) && UseTLS dialer_a = false ->
        dialer out = dialer_a /\ heap out = shared_heap)
    /\ (tcp_ok (mkDial true false) && UseTLS dialer_a = true ->
        TLSConfig (dialer out) = Some (target 1%nat dialer_a)
        /\ heap out !! target 1%nat dialer_a
           = Some (mkTLS [ALPN dialer_a] (settings (mkTLS ["http/1.1"%string] 7)))
        /\ (forall r', r' <> target 1%nat dialer_a -> heap out !! r' = shared_heap !! r')
        /\ (Timeout (dialer out), UseTLS (dialer out), ALPN (dialer out))
           = (Timeout dialer_a, UseTLS dialer_a, ALPN dialer_a)
        /\ (handshake_ok (mkDial true false) = true ->
            result out = inr (OverTLS (target 1%nat dialer_a)) /\ closed out = false)
        /\ (handshake_ok (mkDial true false) = false ->
            result out = inl "handshake"%string /\ closed out = true))
    /\ (tcp_ok (mkDial true false) = false ->
        result out = inl "dial"%string /\ closed out = false)
    /\ (tcp_ok (mkDial true false) = true -> UseTLS dialer_a = false ->
        result out = inr Plain /\ closed out = false).
Proof.
  apply (Dial_configuration 1%nat (mkDial true false) dialer_a shared_heap
           (mkTLS ["http/1.1"%string] 7)); reflexivity.
Defined.

(** Two dialers that share one configuration: after both have dialed, the
    configuration carries the ALPN of the one that dialed last, and the TLS
    connection the first one returned points to that same configuration. *)
Theorem Dial_shared_configuration fresh1 fresh2 io1 io2 d1 d2 h r cfg :
  TLSConfig d1 = Some r -> TLSConfig d2 = Some r ->
  UseTLS d1 = true -> UseTLS d2 = true ->
  tcp_ok io1 = true -> tcp_ok io2 = true -> handshake_ok io1 = true ->
  h !! r = Some cfg ->
  exists out1 out2,
    Dial fresh1 io1 d1 h = Some out1
    /\ Dial fresh2 io2 d2 (heap out1) = Some out2
    /\ result out1 = inr (OverTLS r)
    /\ heap out1 !! r = Some (mkTLS [ALPN d1] (settings cfg))
    /\ heap out2 !! r = Some (mkTLS [ALPN d2] (settings cfg)).
Proof.
  intros Hr1 Hr2 Ht1 Ht2 Hc1 Hc2 Hh1 Hcfg.
  unfold Dial. rewrite Hr1, Ht1, Hc1, Hh1. simpl. rewrite Hcfg.
  exists (mkDialed d1 (<[r := mkTLS [ALPN d1] (settings cfg)]> h) (inr (OverTLS r)) false).
  simpl. rewrite Hr2, Ht2, Hc2. simpl. rewrite lookup_insert_eq.
  destruct (handshake_ok io2).
  all: eexists; split; [reflexivity|]; simpl.
  all: split; [reflexivity|]; simpl; rewrite !lookup_insert_eq; done.
Qed.

Lemma Dial_shared_configuration_witness :
  exists out1 out2,
    Dial 1%nat (mkDial true true) dialer_a shared_heap = Some out1
    /\ Dial 2%nat (mkDial true true) dialer_b (heap out1) = Some out2
    /\ result out1 = inr (OverTLS 0%nat)
    /\ heap out1 !! 0%nat = Some (mkTLS [ALPN dialer_a] (settings (mkTLS ["http/1.1"%string] 7)))
    /\ heap out2 !! 0%nat = Some (mkTLS [ALPN dialer_b] (settings (mkTLS ["http/1.1"%string] 7))).
Proof.
  apply (Dial_shared_configuration 1%nat 2%nat (mkDial true true) (mkDial true true)
           dialer_a dialer_b shared_heap 0%nat (mkTLS ["http/1.1"%string] 7));
    reflexivity.
Defined.

End TransportFacts.

(** ** Properties of the handshake *)

Module HandshakeFacts.
Import Msg Handshake.

(** The handshake of an auto-client with a server whose [authFunc] accepts
    its credentials, the frames arriving as they were written.  The server
    registers its connection under the client's id; the client stores its
    connection in the slot; and the two connections agree on compression:
    each has it on exactly when the client was made with it, and each
    encoder writes through gzip exactly then, with nothing written yet and
    the read loops running. *)
Theorem handshake_agrees st cs stc cc :
  Srv.authFunc (Srv.server st) (Auto.clientID (Auto.client stc))
    (Auto.authCode (Auto.client stc)) = true ->
  Srv.conns st !! cs = None ->
  exists st' ks stc' kc,
    Srv.ServeConn cs (Some (auth_request (Auto.client stc))) true st = Some st'
    /\ Auto.connectOnce cc (attempt_with (Srv.server st) (Auto.client stc)) stc = (stc', None)
    /\ Srv.conns st' !! cs = Some ks
    /\ Auto.conns stc' !! cc = Some kc
    /\ Srv.clients (Srv.server st') !! Auto.clientID (Auto.client stc) = Some cs
    /\ Auto.Load (Auto.client stc') = Some cc
    /\ Conn.useCompression (Conn.conn ks) = Auto.useCompression (Auto.client stc)
    /\ Conn.useCompression (Conn.conn kc) = Auto.useCompression (Auto.client stc)
    /\ Conn.Enc (Conn.conn ks) = Conn.Enc (Conn.conn kc)
    /\ Conn.Enc (Conn.conn kc)
       = (if Auto.useCompression (Auto.client stc) then Conn.EncGzip else Conn.EncConn)
    /\ ConnInv.flushed (Conn.conn ks) /\ ConnInv.flushed (Conn.conn kc)
    /\ Conn.reader ks = Conn.Running /\ Conn.reader kc = Conn.Running.
Proof.
  intros Hauth Hfresh.
  unfold Srv.ServeConn, attempt_with, server_reply, Auto.connectOnce. simpl.
  rewrite Hfresh. simpl. rewrite Hauth. simpl.
  repeat (rewrite lookup_insert_eq; simpl).
  eexists _, _, _, _. split; [reflexivity|]. split; [reflexivity|]. simpl.
  rewrite !lookup_insert_eq. split; [reflexivity|]. split; [reflexivity|].
  split; [reflexivity|]. split; [reflexivity|]. simpl.
  destruct (Auto.useCompression (Auto.client stc)); simpl; repeat split; done.
Qed.

Lemma handshake_agrees_witness :
  exists st' ks stc' kc,
    Srv.ServeConn 0%nat (Some (auth_request Auto.client42)) true accepting = Some st'
    /\ Auto.connectOnce 0%nat (attempt_with (Srv.server accepting) Auto.client42)
         (Auto.init Auto.client42) = (stc', None)
    /\ Srv.conns st' !! 0%nat = Some ks
    /\ Auto.conns stc' !! 0%nat = Some kc
    /\ Srv.clients (Srv.server st') !! Auto.clientID Auto.client42 = Some 0%nat
    /\ Auto.Load (Auto.client stc') = Some 0%nat
    /\ Conn.useCompression (Conn.conn ks) = Auto.useCompression Auto.client42
    /\ Conn.useCompression (Conn.conn kc) = Auto.useCompression Auto.client42
    /\ Conn.Enc (Conn.conn ks) = Conn.Enc (Conn.conn kc)
    /\ Conn.Enc (Conn.conn kc)
       = (if Auto.useCompression Auto.client42 then Conn.EncGzip else Conn.EncConn)
    /\ ConnInv.flushed (Conn.conn ks) /\ ConnInv.flushed (Conn.conn kc)
    /\ Conn.reader ks = Conn.Running /\ Conn.reader kc = Conn.Running.
Proof.
  apply (handshake_agrees accepting 0%nat (Auto.init Auto.client42) 0%nat);
    reflexivity.
Defined.

(** The handshake with a server whose [authFunc] refuses the client's
    credentials: the server stores nothing and closes the connection; the
    client's attempt returns "authentication failed" and leaves the client
    as it was, its slot included. *)
Theorem handshake_refused st cs stc cc ok :
  Srv.authFunc (Srv.server st) (Auto.clientID (Auto.client stc))
    (Auto.authCode (Auto.client stc)) = false ->
  Srv.conns st !! cs = None ->
  exists st',
    Srv.ServeConn cs (Some (auth_request (Auto.client stc))) ok st = Some st'
    /\ Srv.server st' = Srv.server st
    /\ Srv.serving st' !! cs = Some Srv.SClosed
    /\ Auto.connectOnce cc (attempt_with (Srv.server st) (Auto.client stc)) stc
       = (stc, Some "authentication failed"%string).
Proof.
  intros Hauth Hfresh.
  unfold Srv.ServeConn, attempt_with, server_reply, Auto.connectOnce. simpl.
  rewrite Hfresh. simpl. rewrite Hauth. simpl.
  rewrite lookup_insert_eq.
  eexists. split; [reflexivity|]. simpl. by rewrite lookup_insert_eq.
Qed.

Lemma handshake_refused_witness :
  exists st',
    Srv.ServeConn 0%nat (Some (auth_request Auto.client42)) true refusing = Some st'
    /\ Srv.server st' = Srv.server refusing
    /\ Srv.serving st' !! 0%nat = Some Srv.SClosed
    /\ Auto.connectOnce 0%nat (attempt_with (Srv.server refusing) Auto.client42)
         (Auto.init Auto.client42)
       = (Auto.init Auto.client42, Some "authentication failed"%string).
Proof.
  apply (handshake_refused refusing 0%nat (Auto.init Auto.client42) 0%nat true);
    reflexivity.
Defined.

End HandshakeFacts.

(** ** Properties of the pending table *)

Module PendingFacts.
Import Msg Conn ConnSpec ConnInv ConnObs PendingObs.

Lemma posted_init c0 : posted (init c0).
Proof. intros id c Hc. simpl in Hc. by rewrite lookup_empty in Hc. Qed.

Lemma exec_posted a st st' evs :
  wf st -> posted st -> exec a st = Some (st', evs) -> posted st'.
Proof.
  intros [Hp Hc Hi] Hpost H.
  destruct a; ConnFacts.exec_inv H; intros i c' Hl Hbs; simpl in *;
    rewrite ?ConnFacts.Send_pending; simpl.
  all: revert Hl Hbs; ConnFacts.map_cases; intros; simplify_eq/=; try done.
  all: try (match goal with
            | Hx : calls _ !! ?j = Some ?c, Hb : before_select (pc ?c) |- _ =>
                destruct (Hpost _ _ Hx Hb) as [[Hpe Hbuf]|[Hpe [m Hbuf]]]
            end).
  all: try (match goal with
            | Hx : calls _ !! ?j = Some ?c, Hq : pc ?c = _ |- _ =>
                let Hb := fresh "Hb" in
                assert (before_select (pc c)) as Hb by (by rewrite Hq);
                destruct (Hpost _ _ Hx Hb) as [[Hpe Hbuf]|[Hpe [m Hbuf]]]
            end).
  all: try (left; split; [done|]; done).
  all: try (right; split; [done|]; eauto; done).
  all: try congruence.
  all: try (match goal with
            | Hne : ?j ≠ ?i, Hj : calls _ !! ?j = Some ?c, Hk : calls _ !! ?i = Some ?c',
              Hch : ch ?c = ch ?c' |- _ => destruct Hne; exact (Hi _ _ _ _ Hj Hk Hch)
            end).
  all: match goal with
       | Hne : ID ?r ≠ ?i, Hq : pending _ !! ID ?r = Some _, Hk : calls _ !! ?i = Some _ |- _ =>
           destruct (Hp _ _ Hq) as (c0 & Hc0 & Hch0 & _);
           destruct Hne; exact (Hi _ _ _ _ Hc0 Hk Hch0)
       end.
Qed.

Lemma run_posted acts st st' tr :
  wf st -> posted st -> run acts st = Some (st', tr) -> posted st'.
Proof.
  intros Hwf Hpost Hrun.
  apply (ConnFacts.run_stable (fun s => wf s /\ posted s) (fun _ => True))
    with acts st st' tr in Hrun; [by destruct Hrun as [[_ ?] _]| |done].
  intros a s s' es [Hw Hq] Ha. split; [|done].
  split; [by apply ConnFacts.exec_wf with a s es|by apply exec_posted with a s es].
Qed.

(** The pending table and the calls, in every state of a connection that
    starts with an empty table.  An entry belongs to a call that is not
    over, and a call that is over has no entry: the table does not grow
    with the calls made.  A call waiting in its [select] has its entry in
    the table and an empty inbox, or has no entry and one frame in its
    inbox, which it can receive at once: a response taken out of the table
    is not lost to the caller. *)
Theorem pending_and_inbox c0 acts st tr id c :
  pending c0 = ∅ ->
  run acts (init c0) = Some (st, tr) ->
  calls st !! id = Some c ->
  (forall r, pending (conn st) !! id = Some r -> r = ch c /\ live_pc (pc c))
  /\ (finished (pc c) -> pending (conn st) !! id = None)
  /\ (pc c = PcWaiting ->
      (pending (conn st) !! id = Some (ch c) /\ chans st !! ch c = Some [])
      \/ (pending (conn st) !! id = None
          /\ exists msg st' e,
               chans st !! ch c = Some [msg]
               /\ exec (ASelectRecv id) st = Some (st', e)
               /\ e = match kind c with
                      | Blocking => [EvReturn id (call_outcome msg)]
                      | Async _ => callback_event (kind c) id (callback_outcome msg)
                      end)).
Proof.
  intros H0 Hrun Hc.
  pose proof (ConnFacts.run_wf _ _ _ _ (ConnFacts.wf_init c0 H0) Hrun) as Hwf.
  pose proof (run_posted _ _ _ _ (ConnFacts.wf_init c0 H0) (posted_init c0) Hrun) as Hpost.
  destruct Hwf as [Hp _ _].
  assert (forall r, pending (conn st) !! id = Some r -> r = ch c /\ live_pc (pc c)) as Hlive.
  { intros r Hr. destruct (Hp _ _ Hr) as (c1 & Hc1 & Hch & _ & Hl). by simplify_eq. }
  split; [done|]. split.
  - intros Hfin. destruct (pending (conn st) !! id) as [r|] eqn:Hr; [|done].
    destruct (Hlive r eq_refl) as [_ Hl]. destruct (pc c); done.
  - intros Hw.
    destruct (Hpost id c Hc) as [Hleft|[Hnone [msg Hbuf]]]; [by rewrite Hw|by left|].
    right. split; [done|]. simpl. rewrite Hc, Hw, Hbuf.
    destruct (kind c); eexists msg, _, _; (split; [done|]); split; reflexivity.
Qed.

Lemma pending_and_inbox_witness :
  let st := fst (the (run (waiting_acts ++ [ARead (mkRead true (Some (echo_response "a"))) io_ok])
                        (init NewConnection))) in
  let c := mkCall Blocking 0%nat "Echo" ∅ PcWaiting false in
  (forall r, pending (conn st) !! "a" = Some r -> r = ch c /\ live_pc (pc c))
  /\ (finished (pc c) -> pending (conn st) !! "a" = None)
  /\ (pc c = PcWaiting ->
      (pending (conn st) !! "a" = Some (ch c) /\ chans st !! ch c = Some [])
      \/ (pending (conn st) !! "a" = None
          /\ exists msg st' e,
               chans st !! ch c = Some [msg]
               /\ exec (ASelectRecv "a") st = Some (st', e)
               /\ e = match kind c with
                      | Blocking => [EvReturn "a" (call_outcome msg)]
                      | Async _ => callback_event (kind c) "a" (callback_outcome msg)
                      end)).
Proof.
  apply (pending_and_inbox NewConnection
           (waiting_acts ++ [ARead (mkRead true (Some (echo_response "a"))) io_ok])
           (fst (the (run (waiting_acts
                             ++ [ARead (mkRead true (Some (echo_response "a"))) io_ok])
                        (init NewConnection))))
           (snd (the (run (waiting_acts
                             ++ [ARead (mkRead true (Some (echo_response "a"))) io_ok])
                        (init NewConnection))))
           "a" (mkCall Blocking 0%nat "Echo" ∅ PcWaiting false)).
  - reflexivity.
  - vm_compute. reflexivity.
  - vm_compute. reflexivity.
Defined.

(** *** Cancellation *)

(** Cancelling an asynchronous call that waits in its [select].  After
    [Cancel] the waiter can take the cancel case: the callback, when there
    is one, is invoked once with the cancellation error, and the deferred
    delete takes the entry out of the pending table.  A response for the id
    that arrives afterwards is dropped by the read loop without a trace: no
    inbox is written, no event occurs, and the calls and the table are as
    before. *)
Theorem cancel_then_late_response st id c has_callback msg io :
  calls st !! id = Some c ->
  kind c = Async has_callback ->
  pc c = PcWaiting ->
  reader st = Running ->
  Type_ msg = ResponseType -> ID msg = id ->
  exists st' st'',
    run [ACancel id; ASelectCancel id; ADelete id] st
    = Some (st', if has_callback then [EvCallback id OCancelled] else [])
    /\ pending (conn st') !! id = None
    /\ (pc <$> calls st' !! id) = Some PcDone
    /\ exec (ARead (mkRead true (Some msg)) io) st' = Some (st'', [])
    /\ pending (conn st'') = pending (conn st')
    /\ chans st'' = chans st'
    /\ calls st'' = calls st'.
Proof.
  intros Hc Hk Hpc Hr Hty Hid.
  set (c1 := set_cancelled c).
  set (st1 := set_call id c1 st).
  set (c2 := set_pc PcCompleting c1).
  set (st2 := set_call id c2 st1).
  set (st3 := set_call id (set_pc PcDone c2) (delete_pending id st2)).
  assert (exec (ACancel id) st = Some (st1, [])) as E1.
  { simpl. by rewrite Hc, Hk, Hpc. }
  assert (exec (ASelectCancel id) st1
          = Some (st2, if has_callback then [EvCallback id OCancelled] else [])) as E2.
  { simpl. rewrite lookup_insert_eq. simpl. rewrite Hk, Hpc. simpl.
    by destruct has_callback. }
  assert (exec (ADelete id) st2 = Some (st3, [])) as E3.
  { simpl. rewrite lookup_insert_eq. simpl. by rewrite Hk. }
  destruct (ExchangeFacts.round_with_frame msg io st3 Hr)
    as (st0 & Hex & Hch & Hca & _ & Hp0 & _).
  assert (pending (conn st3) !! id = None) as Hgone by apply lookup_delete_eq.
  exists st3, st0.
  split.
  { change (run [ACancel id; ASelectCancel id; ADelete id] st)
      with (match exec (ACancel id) st with
            | None => None
            | Some (s1, evs1) =>
                match run [ASelectCancel id; ADelete id] s1 with
                | None => None
                | Some (s2, evs2) => Some (s2, evs1 ++ evs2)
                end
            end).
    rewrite E1.
    change (run [ASelectCancel id; ADelete id] st1)
      with (match exec (ASelectCancel id) st1 with
            | None => None
            | Some (s1, evs1) =>
                match run [ADelete id] s1 with
                | None => None
                | Some (s2, evs2) => Some (s2, evs1 ++ evs2)
                end
            end).
    rewrite E2.
    change (run [ADelete id] st2)
      with (match exec (ADelete id) st2 with
            | None => None
            | Some (s1, evs1) => Some (s1, evs1 ++ [])
            end).
    rewrite E3. simpl. by rewrite app_nil_r. }
  split; [done|].
  split; [simpl; by rewrite lookup_insert_eq|].
  split.
  { rewrite Hex. unfold handleMessage. rewrite decide_True by done.
    by rewrite Hp0, Hid, Hgone. }
  done.
Qed.

Lemma cancel_then_late_response_witness :
  let st := fst (the (run [ACall (Async true) "a" 0%nat "Echo" ∅; ASendRequest "a" io_ok]
                        (init NewConnection))) in
  exists st' st'',
    run [ACancel "a"; ASelectCancel "a"; ADelete "a"] st
    = Some (st', if true then [EvCallback "a" OCancelled] else [])
    /\ pending (conn st') !! "a" = None
    /\ (pc <$> calls st' !! "a") = Some PcDone
    /\ exec (ARead (mkRead true (Some (echo_response "a"))) io_ok) st' = Some (st'', [])
    /\ pending (conn st'') = pending (conn st')
    /\ chans st'' = chans st'
    /\ calls st'' = calls st'.
Proof.
  apply (cancel_then_late_response
           (fst (the (run [ACall (Async true) "a" 0%nat "Echo" ∅; ASendRequest "a" io_ok]
                        (init NewConnection))))
           "a" (mkCall (Async true) 0%nat "Echo" ∅ PcWaiting false) true
           (echo_response "a") io_ok).
  - vm_compute. reflexivity.
  - reflexivity.
  - reflexivity.
  - reflexivity.
  - reflexivity.
  - reflexivity.
Defined.

End PendingFacts.
